(** * Pages status aggregation and rate-limited proxy layer

    A shallow embedding of the serverless handlers
    [list-pages-sites], [get-pages-info] and [enable-github-pages]
    together with the shared in-memory rate limiter they consult.

    Conventions of the embedding.
    - JavaScript numbers that hold counters, HTTP statuses and
      millisecond timestamps are integers well inside the exact range of
      a double; they are modelled as [Z].
    - The module-level [Map] of the rate limiter is a [gmap string _]
      threaded explicitly through every call.
    - [Date.now()] is an explicit argument.
    - A handler is a computation over a world that holds the limiter's
      map and, as a record of what was sent, the list of upstream calls.
      Exceptions are explicit; [try]/[catch] and early [return] follow
      the source.
    - Session, profile store and upstream API are oracles of the
      environment; each may answer or throw.  Upstream JSON bodies have
      the members the handlers read, with the types the hosting API
      documents.
    - [console.log] and [console.error] have no effect on a response and
      are left out. *)

From Stdlib Require Import ZArith Lia.
From stdpp Require Import base tactics option list strings gmap fin_maps pretty.

Local Open Scope Z_scope.

(** ** [_shared/rate-limiter.ts] *)

Module RateLimiter.

(** [interface RateLimitConfig] *)
Record RateLimitConfig := mkConfig {
  maxRequests : Z;
  windowMs : Z;
}.

(** The value type of [requestCounts]: [{ count: number; resetAt: number }]. *)
Record UserData := mkUserData {
  count : Z;
  resetAt : Z;
}.

(** Return type of [checkRateLimit]. *)
Record RateLimitResult := mkResult {
  allowed : bool;
  remaining : Z;
  result_resetAt : Z;
}.

#[global] Instance UserData_eq_dec : EqDecision UserData.
Proof. solve_decision. Defined.

#[global] Instance RateLimitResult_eq_dec : EqDecision RateLimitResult.
Proof. solve_decision. Defined.

(** Default rate limit: 100 requests per minute per user. *)
Definition DEFAULT_RATE_LIMIT : RateLimitConfig :=
  {| maxRequests := 100; windowMs := 60000 |}.

(** [checkRateLimit(userId, config)].  The first component is the
    returned object, the second the contents of [requestCounts] after
    the call.  [userData.count++] mutates the object that the map holds
    (the one just fetched, or the one just stored), hence the final
    insertion under [userKey]. *)
Definition checkRateLimit (now : Z) (userId : string)
    (config : RateLimitConfig) (requestCounts : gmap string UserData)
    : RateLimitResult * gmap string UserData :=
  let userKey := userId in
  let fresh := {| count := 0; resetAt := now + windowMs config |} in
  let userData :=
    match requestCounts !! userKey with
    | Some d => if bool_decide (now >= resetAt d) then fresh else d
    | None => fresh
    end in
  let userData := {| count := count userData + 1; resetAt := resetAt userData |} in
  let requestCounts := <[userKey := userData]> requestCounts in
  let allowed := bool_decide (count userData <= maxRequests config) in
  let remaining := Z.max 0 (maxRequests config - count userData) in
  ({| allowed := allowed; remaining := remaining; result_resetAt := resetAt userData |},
   requestCounts).

(** [cleanupRateLimitStore()]: drop every entry whose window is over. *)
Definition cleanupRateLimitStore (now : Z) (requestCounts : gmap string UserData)
    : gmap string UserData :=
  filter (λ kv, ¬ (now >= resetAt kv.2)) requestCounts.

(** [Math.ceil(x / 1000)] on an integer [x]. *)
Definition ceil_div_1000 (x : Z) : Z := - ((- x) `div` 1000).

(** [getRateLimitHeaders(result, config)] *)
Definition getRateLimitHeaders (result : RateLimitResult)
    (config : RateLimitConfig) : gmap string string :=
  {[ "X-RateLimit-Limit" := pretty (maxRequests config);
     "X-RateLimit-Remaining" := pretty (remaining result);
     "X-RateLimit-Reset" := pretty (ceil_div_1000 (result_resetAt result)) ]}.

(** The count the limiter sees for [userId] at time [now] before it
    increments: the stored count of a live window, [0] when there is no
    window or the stored one is over. *)
Definition live_count (now : Z) (userId : string)
    (requestCounts : gmap string UserData) : Z :=
  match requestCounts !! userId with
  | Some d => if bool_decide (now >= resetAt d) then 0 else count d
  | None => 0
  end.

(** A sequence of calls for one identity, at the given instants. *)
Fixpoint checkRateLimit_calls (userId : string) (config : RateLimitConfig)
    (times : list Z) (requestCounts : gmap string UserData)
    : list RateLimitResult * gmap string UserData :=
  match times with
  | [] => ([], requestCounts)
  | now :: times =>
      let '(r, requestCounts) := checkRateLimit now userId config requestCounts in
      let '(rs, requestCounts) := checkRateLimit_calls userId config times requestCounts in
      (r :: rs, requestCounts)
  end.

(** Operations on the shared store, as any mix of handlers and
    maintenance may issue them. *)
Inductive op :=
| Check (userId : string) (now : Z)
| Cleanup (now : Z).

(** Runs the operations in order; every [Check] reports the identity it
    was for and what [checkRateLimit] returned. *)
Fixpoint run_ops (config : RateLimitConfig) (ops : list op)
    (requestCounts : gmap string UserData)
    : list (string * RateLimitResult) * gmap string UserData :=
  match ops with
  | [] => ([], requestCounts)
  | Check userId now :: ops =>
      let '(r, requestCounts) := checkRateLimit now userId config requestCounts in
      let '(rs, requestCounts) := run_ops config ops requestCounts in
      ((userId, r) :: rs, requestCounts)
  | Cleanup now :: ops =>
      run_ops config ops (cleanupRateLimitStore now requestCounts)
  end.

(** An operation leaves the window of [userId] that ends at [R] alive:
    calls for [userId] and sweeps happen before [R]; calls for other
    identities are unconstrained. *)
Definition before_reset (userId : string) (R : Z) (o : op) : Prop :=
  match o with
  | Check u now => u = userId → now < R
  | Cleanup now => now < R
  end.

(** What a call returns when it leaves the count [c] in a window that
    ends at [R]. *)
Definition outcome (config : RateLimitConfig) (c R : Z) : RateLimitResult :=
  {| allowed := bool_decide (c <= maxRequests config);
     remaining := Z.max 0 (maxRequests config - c);
     result_resetAt := R |}.

(** The stores the limiter itself can build hold positive counts only. *)
Definition valid (requestCounts : gmap string UserData) : Prop :=
  map_Forall (λ _ d, 1 <= count d) requestCounts.

(** The calls made for [userId] among [ops]. *)
Definition is_call_for (userId : string) (o : op) : bool :=
  match o with
  | Check u _ => bool_decide (u = userId)
  | Cleanup _ => false
  end.

Definition calls_for (userId : string) (ops : list op) : list op :=
  filter (λ o, is_call_for userId o = true) ops.

(** The window of [userId] ends at [R], holds the count [c] and is used
    up. *)
Definition exhausted (config : RateLimitConfig) (userId : string) (R : Z)
    (requestCounts : gmap string UserData) (c : Z) : Prop :=
  requestCounts !! userId = Some {| count := c; resetAt := R |}
  ∧ maxRequests config < c.

End RateLimiter.

(** ** JavaScript control flow: exceptions over a mutable world *)

Module Js.

(** The payload of a thrown value; only its text is ever looked at. *)
Definition JsError := string.

(** How a block of statements ends. *)
Inductive Completion (A : Type) :=
| Normal (a : A)
| Throw (e : JsError).
Arguments Normal {A} a.
Arguments Throw {A} e.

(** A computation over a world [W]; effects made before a throw stay. *)
Definition M (W A : Type) : Type := W → Completion A * W.

#[global] Instance M_ret {W} : MRet (M W) := λ A a w, (Normal a, w).

#[global] Instance M_bind {W} : MBind (M W) := λ A B f m w,
  match m w with
  | (Normal a, w) => f a w
  | (Throw e, w) => (Throw e, w)
  end.

(** [throw e] *)
Definition throw {W A} (e : JsError) : M W A := λ w, (Throw e, w).

(** An awaited promise or a call that either yields a value or throws. *)
Definition await {W A} (r : JsError + A) : M W A :=
  match r with
  | inl e => throw e
  | inr a => mret a
  end.

(** [try { body } catch (error) { handler error }] *)
Definition try_catch {W A} (body : M W A) (handler : JsError → M W A) : M W A :=
  λ w, match body w with
       | (Normal a, w) => (Normal a, w)
       | (Throw e, w) => handler e w
       end.

(** [for (const x of xs) { acc = body x acc }], the loop state threaded
    through the iterations. *)
Fixpoint for_of {W A S} (xs : list A) (body : A → S → M W S) (acc : S) : M W S :=
  match xs with
  | [] => mret acc
  | x :: xs => acc ← body x acc; for_of xs body acc
  end.

(** A request body as [req.json()] yields it. *)
#[warnings="-register-all"]
Inductive jsval :=
| JNull
| JBool (b : bool)
| JNum (z : Z)
| JStr (s : string)
| JArr (items : list jsval)
| JObj (fields : list (string * jsval)).

(** [a || b] on a value that is a string when present: the empty string
    and an absent (or null) value are falsy. *)
Definition truthy (a : option string) : bool :=
  match a with
  | Some s => negb (String.eqb s EmptyString)
  | None => false
  end.

Definition or_default (a : option string) (b : string) : string :=
  match a with
  | Some s => if truthy a then s else b
  | None => b
  end.

Definition or_else (a b : option string) : option string :=
  if truthy a then a else b.

End Js.

(** ** The upstream hosting API as the handlers see it *)

Module Upstream.
Import Js.

(** An element of the repository listing; only [name] is read. *)
Record Repo := mkRepo { name : string }.

#[global] Instance Repo_eq_dec : EqDecision Repo.
Proof. solve_decision. Defined.

(** [pagesInfo.source] *)
Record Source := mkSource {
  branch : option string;
  path : option string;
}.

(** The Pages configuration document; an absent or null member is
    [None]. *)
Record PagesInfo := mkPagesInfo {
  source : option Source;
  html_url : option string;
  status : option string;
  built_at : option string;
  updated_at : option string;
}.

(** The requests the handlers send, with the bearer credential. *)
Inductive Request :=
| ListUserRepos (per_page : Z) (affiliation : string) (token : string)
| GetPages (owner repo : string) (token : string)
| PostPages (owner repo : string) (branch path : string) (token : string).

#[global] Instance Request_eq_dec : EqDecision Request.
Proof. solve_decision. Defined.

(** The URL each request is sent to. *)
Definition url (r : Request) : string :=
  match r with
  | ListUserRepos per_page affiliation _ =>
      "https://api.github.com/user/repos?per_page=" +:+ pretty per_page
        +:+ "&affiliation=" +:+ affiliation
  | GetPages owner repo _ | PostPages owner repo _ _ _ =>
      "https://api.github.com/repos/" +:+ owner +:+ "/" +:+ repo +:+ "/pages"
  end.

(** A parsed response body. *)
Inductive Json :=
| ReposJson (repos : list Repo)
| PagesJson (info : PagesInfo).

(** A [fetch] response: [text()] and [json()] may each throw. *)
Record Response := mkResponse {
  resp_status : Z;
  text : JsError + string;
  json : JsError + Json;
}.

(** [response.ok] *)
Definition ok (r : Response) : bool :=
  bool_decide (200 <= resp_status r <= 299).

(** Iterating the listing: an array is iterated, an object is not
    iterable and [for ... of] throws. *)
Definition iterate (j : Json) : JsError + list Repo :=
  match j with
  | ReposJson repos => inr repos
  | PagesJson _ => inl "TypeError: repos is not iterable"
  end.

(** Member reads on the Pages document; an array has none of the
    members read. *)
Definition members (j : Json) : PagesInfo :=
  match j with
  | PagesJson info => info
  | ReposJson _ => mkPagesInfo None None None None None
  end.

End Upstream.

(** ** What the handlers import from modules outside this development *)

Module Shared.
Import Js.

(** [{ status, message }] as [sanitizeGitHubError] returns it. *)
Record SanitizedError := mkSanitized {
  status : Z;
  message : string;
}.

(** One entry of [validation.error.errors]. *)
Record ZodIssue := mkIssue {
  path : list string;
  issue_message : string;
}.

(** [validation.data] of [listPagesSitesSchema]. *)
Module ListPagesSitesInput.
Record t := mk { provider_token : string }.
End ListPagesSitesInput.

(** [validation.data] of [getPagesInfoSchema]. *)
Module GetPagesInfoInput.
Record t := mk { owner : string; repo : string; provider_token : string }.
End GetPagesInfoInput.

(** [validation.data] of [enablePagesSchema]. *)
Module EnablePagesInput.
Record t := mk {
  owner : string;
  repo : string;
  branch : string;
  path : string;
  provider_token : string;
}.
End EnablePagesInput.

(** The schema library, the field schemas of [_shared/validation.ts],
    [_shared/error-sanitizer.ts] and [_shared/cors.ts] are not part of
    the sources at hand.  A schema is its [safeParse]: [inl] carries
    [validation.error.errors], [inr] carries [validation.data]. *)
Class Imports := {
  listPagesSitesSchema : jsval → list ZodIssue + ListPagesSitesInput.t;
  getPagesInfoSchema : jsval → list ZodIssue + GetPagesInfoInput.t;
  enablePagesSchema : jsval → list ZodIssue + EnablePagesInput.t;
  sanitizeGitHubError : Z → string → SanitizedError;
  sanitizeGeneralError : JsError → string;
  corsHeaders : gmap string string;
}.

End Shared.

(** ** The HTTP boundary of an edge function *)

Module Http.
Import Js.

(** The live-site summary, [interface PagesSite]. *)
Module PagesSite.
Record source_t := mkSource { branch : string; path : string }.
Record t := mk {
  repository : string;
  owner : string;
  site_branch : string;
  url : string;
  status : string;
  source : source_t;
  updated_at : option string;
}.
End PagesSite.

(** The object handed to [JSON.stringify] for the response body. *)
Inductive Body :=
| ErrorBody (error : string)
| InvalidInputBody (error : string) (details : list string)
| SitesBody (sites : list PagesSite.t)
| PagesDisabledBody
| PagesInfoBody (url status : option string) (source : option Upstream.Source)
| EnableSuccessBody (url status : option string) (message : string).

(** An outgoing [Response]. *)
Record Response := mkResponse {
  status : Z;
  headers : gmap string string;
  body : option Body;
}.

(** [new Response(body, { status, headers })].  The status defaults to
    200; the constructor throws a [RangeError] for a status outside
    200..599 and a [TypeError] for a body on a null-body status. *)
Definition new_Response (body : option Body) (init_status : option Z)
    (init_headers : gmap string string) : JsError + Response :=
  let status := default 200 init_status in
  if negb (bool_decide (200 <= status <= 599)) then
    inl "RangeError: status out of range"
  else if bool_decide (is_Some body) && bool_decide (status ∈ [204; 205; 304]) then
    inl "TypeError: response with null body status cannot have body"
  else inr {| status := status; headers := init_headers; body := body |}.

(** The incoming request: its method, its [Authorization] header and
    what [req.json()] yields. *)
Record Request := mkRequest {
  method : string;
  authorization : option string;
  json : JsError + jsval;
}.

End Http.

(** ** The three handlers *)

Module Edge.
Import Js RateLimiter Shared.

(** The session user; only [id] is read. *)
Module User.
Record t := mk { id : string }.
End User.

(** The selected profile row. *)
Record Profile := mkProfile { github_username : option string }.

(** Everything one invocation reads from outside.  [fetch_result n r] is
    the outcome of sending [r] when [n] upstream calls were sent before
    it; [inl] is a rejected promise, which is how a network failure or a
    timeout shows. *)
Record Env := mkEnv {
  now : Z;
  getUser : option string → JsError + option User.t;
  profiles_single : string → JsError + option Profile;
  fetch_result : nat → Upstream.Request → JsError + Upstream.Response;
}.

(** What an invocation can change: the rate limiter's map, and the
    upstream calls sent so far, oldest first. *)
Record World := mkWorld {
  requestCounts : gmap string UserData;
  upstream_calls : list Upstream.Request;
}.

(** [await fetch(...)]: the call is sent, then resolves or rejects. *)
Definition fetch (env : Env) (r : Upstream.Request) : M World Upstream.Response :=
  λ w,
    let w' := {| requestCounts := requestCounts w;
                 upstream_calls := upstream_calls w ++ [r] |} in
    match fetch_result env (length (upstream_calls w)) r with
    | inl e => (Throw e, w')
    | inr resp => (Normal resp, w')
    end.

(** [checkRateLimit(user.id)] with the default configuration, acting on
    the shared map. *)
Definition checkRateLimit_default (env : Env) (userId : string)
    : M World RateLimitResult :=
  λ w,
    let '(r, counts) :=
      checkRateLimit (now env) userId DEFAULT_RATE_LIMIT (requestCounts w) in
    (Normal r, {| requestCounts := counts; upstream_calls := upstream_calls w |}).

(** [e.path.join('.')] *)
Fixpoint join_dot (l : list string) : string :=
  match l with
  | [] => EmptyString
  | [x] => x
  | x :: l => x +:+ "." +:+ join_dot l
  end.

(** [validation.error.errors.map(e => `${e.path.join('.')}: ${e.message}`)] *)
Definition details (errors : list ZodIssue) : list string :=
  map (λ e, join_dot (path e) +:+ ": " +:+ issue_message e) errors.

(** [profile?.github_username] when it is truthy. *)
Definition truthy_username (profile : option Profile) : option string :=
  match profile with
  | Some p => if truthy (github_username p) then github_username p else None
  | None => None
  end.

Section Handlers.
Context `{Imports}.

(** [{ ...corsHeaders, 'Content-Type': 'application/json' }] *)
Definition json_headers : gmap string string :=
  <["Content-Type" := "application/json"]> corsHeaders.

(** The headers of the 429 response. *)
Definition rate_limited_headers (r : RateLimitResult) : gmap string string :=
  <["Content-Type" := "application/json"]>
    (getRateLimitHeaders r DEFAULT_RATE_LIMIT ∪ corsHeaders).

(** [new Response(JSON.stringify(body), { status, headers })] *)
Definition respond (body : Http.Body) (status : option Z)
    (headers : gmap string string) : M World Http.Response :=
  await (Http.new_Response (Some body) status headers).

Definition invalid_input (errors : list ZodIssue) : M World Http.Response :=
  respond (Http.InvalidInputBody "Invalid input" (details errors)) (Some 400) json_headers.

Definition unauthorized : M World Http.Response :=
  respond (Http.ErrorBody "Unauthorized") (Some 401) json_headers.

Definition rate_limit_exceeded (r : RateLimitResult) : M World Http.Response :=
  respond (Http.ErrorBody "Rate limit exceeded. Please try again later.")
    (Some 429) (rate_limited_headers r).

Definition profile_not_found : M World Http.Response :=
  respond (Http.ErrorBody "GitHub profile not found") (Some 403) json_headers.

Definition not_owner : M World Http.Response :=
  respond (Http.ErrorBody "Unauthorized: can only access your own repositories")
    (Some 403) json_headers.

(** The response for a non-ok upstream answer. *)
Definition upstream_error (resp : Upstream.Response) : M World Http.Response :=
  rawError ← await (Upstream.text resp);
  let sanitized := sanitizeGitHubError (Upstream.resp_status resp) rawError in
  respond (Http.ErrorBody (message sanitized)) (Some (status sanitized)) json_headers.

(** The outer [catch (error)] of every handler. *)
Definition internal_error (error : JsError) : M World Http.Response :=
  let sanitizedError := sanitizeGeneralError error in
  respond (Http.ErrorBody sanitizedError) (Some 500) json_headers.

(** The steps the three handlers share after validation: session
    user, rate limit, profile.  [k] continues with the account name. *)
Definition authenticated (env : Env) (req : Http.Request)
    (k : string → M World Http.Response) : M World Http.Response :=
  user ← await (getUser env (Http.authorization req));
  match user with
  | None => unauthorized
  | Some user =>
      rateLimitResult ← checkRateLimit_default env (User.id user);
      if negb (allowed rateLimitResult) then rate_limit_exceeded rateLimitResult
      else
        profile ← await (profiles_single env (User.id user));
        match truthy_username profile with
        | None => profile_not_found
        | Some github_username => k github_username
        end
  end.

(** A handler body under its outer [try]/[catch]. *)
Definition serve (body : M World Http.Response) : M World Http.Response :=
  try_catch body internal_error.

(** *** [list-pages-sites] *)

(** The object pushed onto [livePagesSites]. *)
Definition site (username : string) (repo : Upstream.Repo)
    (pagesInfo : Upstream.PagesInfo) : Http.PagesSite.t :=
  let source_branch := Upstream.source pagesInfo ≫= Upstream.branch in
  let source_path := Upstream.source pagesInfo ≫= Upstream.path in
  {| Http.PagesSite.repository := Upstream.name repo;
     Http.PagesSite.owner := username;
     Http.PagesSite.site_branch := or_default source_branch "unknown";
     Http.PagesSite.url :=
       or_default (Upstream.html_url pagesInfo)
         ("https://" +:+ username +:+ ".github.io/" +:+ Upstream.name repo);
     Http.PagesSite.status := or_default (Upstream.status pagesInfo) "unknown";
     Http.PagesSite.source :=
       {| Http.PagesSite.branch := or_default source_branch "unknown";
          Http.PagesSite.path := or_default source_path "/" |};
     Http.PagesSite.updated_at :=
       or_else (Upstream.built_at pagesInfo) (Upstream.updated_at pagesInfo) |}.

(** One iteration of the loop over [repos], with its own
    [try]/[catch]. *)
Definition check_pages (env : Env) (username provider_token : string)
    (repo : Upstream.Repo) (livePagesSites : list Http.PagesSite.t)
    : M World (list Http.PagesSite.t) :=
  try_catch
    (pagesResponse ← fetch env (Upstream.GetPages username (Upstream.name repo) provider_token);
     if bool_decide (Upstream.resp_status pagesResponse = 404) then mret livePagesSites
     else if Upstream.ok pagesResponse then
       pagesInfo ← await (Upstream.json pagesResponse);
       let pagesInfo := Upstream.members pagesInfo in
       mret (livePagesSites ++ [site username repo pagesInfo])
     else mret livePagesSites)
    (λ error, mret livePagesSites).

Definition list_pages_sites_body (env : Env) (req : Http.Request)
    : M World Http.Response :=
  body ← await (Http.json req);
  match listPagesSitesSchema body with
  | inl errors => invalid_input errors
  | inr data =>
      let provider_token := ListPagesSitesInput.provider_token data in
      authenticated env req (λ username,
        reposResponse ← fetch env (Upstream.ListUserRepos 100 "owner" provider_token);
        if negb (Upstream.ok reposResponse) then upstream_error reposResponse
        else
          repos ← await (Upstream.json reposResponse);
          repos ← await (Upstream.iterate repos);
          livePagesSites ← for_of repos (check_pages env username provider_token) [];
          respond (Http.SitesBody livePagesSites) None json_headers)
  end.

Definition list_pages_sites (env : Env) (req : Http.Request)
    : M World Http.Response :=
  if String.eqb (Http.method req) "OPTIONS" then
    await (Http.new_Response None (Some 200) corsHeaders)
  else serve (list_pages_sites_body env req).

(** *** [get-pages-info] *)

Definition get_pages_info_body (env : Env) (req : Http.Request)
    : M World Http.Response :=
  body ← await (Http.json req);
  match getPagesInfoSchema body with
  | inl errors => invalid_input errors
  | inr data =>
      let owner := GetPagesInfoInput.owner data in
      let repo := GetPagesInfoInput.repo data in
      let provider_token := GetPagesInfoInput.provider_token data in
      authenticated env req (λ github_username,
        if negb (String.eqb owner github_username) then not_owner
        else
          githubResponse ← fetch env (Upstream.GetPages owner repo provider_token);
          if bool_decide (Upstream.resp_status githubResponse = 404) then
            respond Http.PagesDisabledBody None json_headers
          else if negb (Upstream.ok githubResponse) then upstream_error githubResponse
          else
            pagesInfo ← await (Upstream.json githubResponse);
            let pagesInfo := Upstream.members pagesInfo in
            respond
              (Http.PagesInfoBody (Upstream.html_url pagesInfo)
                 (Upstream.status pagesInfo) (Upstream.source pagesInfo))
              None json_headers)
  end.

Definition get_pages_info (env : Env) (req : Http.Request)
    : M World Http.Response :=
  if String.eqb (Http.method req) "OPTIONS" then
    await (Http.new_Response None None corsHeaders)
  else serve (get_pages_info_body env req).

(** *** [enable-github-pages] *)

Definition enable_github_pages_body (env : Env) (req : Http.Request)
    : M World Http.Response :=
  body ← await (Http.json req);
  match enablePagesSchema body with
  | inl errors => invalid_input errors
  | inr data =>
      let owner := EnablePagesInput.owner data in
      let repo := EnablePagesInput.repo data in
      let branch := EnablePagesInput.branch data in
      let path := EnablePagesInput.path data in
      let provider_token := EnablePagesInput.provider_token data in
      authenticated env req (λ github_username,
        if negb (String.eqb owner github_username) then not_owner
        else
          githubResponse ←
            fetch env (Upstream.PostPages owner repo branch path provider_token);
          if negb (Upstream.ok githubResponse) then upstream_error githubResponse
          else
            pagesInfo ← await (Upstream.json githubResponse);
            let pagesInfo := Upstream.members pagesInfo in
            respond
              (Http.EnableSuccessBody (Upstream.html_url pagesInfo)
                 (Upstream.status pagesInfo)
                 "GitHub Pages has been enabled successfully!")
              None json_headers)
  end.

Definition enable_github_pages (env : Env) (req : Http.Request)
    : M World Http.Response :=
  if String.eqb (Http.method req) "OPTIONS" then
    await (Http.new_Response None None corsHeaders)
  else serve (enable_github_pages_body env req).

End Handlers.
End Edge.

(** ** [_shared/error-sanitizer.ts] *)

Module Sanitizer.
Import Js Shared.

(** Modelled from the spec: [sanitizeGitHubError] of
    [_shared/error-sanitizer.ts], whose source is missing.  Upstream
    401/403 map to outward 403 "insufficient permission", 404 to outward
    404 "not found", 422 to outward 400 "invalid request", and 5xx or
    any unmapped status to outward 502 "upstream error". *)
Definition sanitizeGitHubError (httpStatus : Z) (rawBody : string) : SanitizedError :=
  if bool_decide (httpStatus = 401 ∨ httpStatus = 403) then
    {| status := 403; message := "insufficient permission" |}
  else if bool_decide (httpStatus = 404) then
    {| status := 404; message := "not found" |}
  else if bool_decide (httpStatus = 422) then
    {| status := 400; message := "invalid request" |}
  else
    {| status := 502; message := "upstream error" |}.

(** Modelled from the spec: [sanitizeGeneralError] of the same missing
    file; every local exception collapses to one generic message (the
    handlers send it with status 500). *)
Definition sanitizeGeneralError (error : JsError) : string :=
  "internal error".

(** The outward messages the sanitizer can produce. *)
Definition generic_messages : list string :=
  ["insufficient permission"; "not found"; "invalid request"; "upstream error"].

End Sanitizer.

(** ** A reference instance of the imports *)

Module Reference.
Import Js Shared.

(** The member [k] of a parsed JSON object when it is a string; a
    repeated key keeps its last value. *)
Definition string_member (k : string) (v : jsval) : option string :=
  match v with
  | JObj fields =>
      match (list_to_map (reverse fields) : gmap string jsval) !! k with
      | Some (JStr s) => Some s
      | _ => None
      end
  | _ => None
  end.

(** A required string under key [k]. *)
Definition required (k : string) (v : jsval) : list ZodIssue + string :=
  match string_member k v with
  | Some s => inr s
  | None => inl [ {| path := [k]; issue_message := "Required" |} ]
  end.

(** [z.string().min(1, 'GitHub token required')] under key [k]. *)
Definition token_field (k : string) (v : jsval) : list ZodIssue + string :=
  match string_member k v with
  | Some s =>
      if String.eqb s EmptyString
      then inl [ {| path := [k]; issue_message := "GitHub token required" |} ]
      else inr s
  | None => inl [ {| path := [k]; issue_message := "Required" |} ]
  end.

(** The double quote character, as a string. *)
Definition dquote : string := String (Ascii.ascii_of_nat 34) EmptyString.

(** The message of the [errorMap] of the [path] field. *)
Definition path_message : string :=
  "Path must be either " +:+ dquote +:+ "/" +:+ dquote +:+ " (root) or "
    +:+ dquote +:+ "/docs" +:+ dquote.

(** [z.enum(['/', '/docs'], { errorMap })] under key [k]. *)
Definition path_field (k : string) (v : jsval) : list ZodIssue + string :=
  match string_member k v with
  | Some s =>
      if String.eqb s "/" || String.eqb s "/docs" then inr s
      else inl [ {| path := [k]; issue_message := path_message |} ]
  | None => inl [ {| path := [k]; issue_message := path_message |} ]
  end.

(** The issues of one field, none when it parsed. *)
Definition issues {A} (r : list ZodIssue + A) : list ZodIssue :=
  match r with inl l => l | inr _ => [] end.

(** [z.object({ provider_token: z.string().min(1, ...) })] *)
Definition listPagesSitesSchema (v : jsval) : list ZodIssue + ListPagesSitesInput.t :=
  match token_field "provider_token" v with
  | inr t => inr (ListPagesSitesInput.mk t)
  | inl l => inl l
  end.

(** Modelled from the spec: the field schemas [ownerField] and
    [repoField] of the missing [_shared/validation.ts]; the request is
    [{ owner: string, repo: string, provider_token: string }]. *)
Definition getPagesInfoSchema (v : jsval) : list ZodIssue + GetPagesInfoInput.t :=
  match required "owner" v, required "repo" v, token_field "provider_token" v with
  | inr o, inr r, inr t => inr (GetPagesInfoInput.mk o r t)
  | o, r, t => inl (issues o ++ issues r ++ issues t)
  end.

(** Modelled from the spec: [ownerField], [repoField] and [branchField]
    of the missing [_shared/validation.ts]; the request is
    [{ owner, repo, branch, path: / | /docs, provider_token }]. *)
Definition enablePagesSchema (v : jsval) : list ZodIssue + EnablePagesInput.t :=
  match required "owner" v, required "repo" v, required "branch" v,
        path_field "path" v, token_field "provider_token" v with
  | inr o, inr r, inr b, inr p, inr t => inr (EnablePagesInput.mk o r b p t)
  | o, r, b, p, t => inl (issues o ++ issues r ++ issues b ++ issues p ++ issues t)
  end.

(** The CORS headers, as [rename-branch] spells them out. *)
Definition corsHeaders : gmap string string :=
  {[ "Access-Control-Allow-Origin" := "*";
     "Access-Control-Allow-Headers" :=
       "authorization, x-client-info, apikey, content-type" ]}.

#[export] Instance imports : Imports := {|
  Shared.listPagesSitesSchema := listPagesSitesSchema;
  Shared.getPagesInfoSchema := getPagesInfoSchema;
  Shared.enablePagesSchema := enablePagesSchema;
  Shared.sanitizeGitHubError := Sanitizer.sanitizeGitHubError;
  Shared.sanitizeGeneralError := Sanitizer.sanitizeGeneralError;
  Shared.corsHeaders := corsHeaders;
|}.

End Reference.

(** ** The fleet scan in the terms of its contract *)

Module Fleet.
Import Js RateLimiter Edge.

(** What probing one repository amounts to. *)
Inductive ProbeResult :=
| Enabled (info : Upstream.PagesInfo)
| Disabled
| ProbeError.

(** The reading of one probe: upstream 404 is [Disabled]; a success
    response whose body parses is [Enabled]; a rejected [fetch], any
    other status and an unreadable body are [ProbeError]. *)
Definition classify (o : JsError + Upstream.Response) : ProbeResult :=
  match o with
  | inl _ => ProbeError
  | inr resp =>
      if bool_decide (Upstream.resp_status resp = 404) then Disabled
      else if Upstream.ok resp then
        match Upstream.json resp with
        | inr j => Enabled (Upstream.members j)
        | inl _ => ProbeError
        end
      else ProbeError
  end.

(** The probe request for a listed repository. *)
Definition probe_request (username provider_token : string) (repo : Upstream.Repo)
    : Upstream.Request :=
  Upstream.GetPages username (Upstream.name repo) provider_token.

(** The probe of the repository listed at position [i], when the probes
    start at upstream call number [first]. *)
Definition probe (env : Env) (first : nat) (username provider_token : string)
    (i : nat) (repo : Upstream.Repo) : ProbeResult :=
  classify (fetch_result env (first + i) (probe_request username provider_token repo)).

(** The summary a listed repository contributes, if any. *)
Definition summary (env : Env) (first : nat) (username provider_token : string)
    (i : nat) (repo : Upstream.Repo) : option Http.PagesSite.t :=
  match probe env first username provider_token i repo with
  | Enabled info => Some (site username repo info)
  | Disabled | ProbeError => None
  end.

(** The projection of the listing: every repository, in listing order,
    replaced by its summary or dropped. *)
Definition summaries (env : Env) (first : nat) (username provider_token : string)
    (repos : list Upstream.Repo) : list Http.PagesSite.t :=
  omap id (imap (summary env first username provider_token) repos).

(** The invocation gets past the session and rate-limit steps, as [user],
    and its profile resolves to the account name [username]. *)
Definition admitted (env : Env) (req : Http.Request) (w : World)
    (user : User.t) (username : string) : Prop :=
  String.eqb (Http.method req) "OPTIONS" = false
  ∧ getUser env (Http.authorization req) = inr (Some user)
  ∧ allowed (checkRateLimit (now env) (User.id user) DEFAULT_RATE_LIMIT (requestCounts w)).1 = true
  ∧ ∃ profile,
      profiles_single env (User.id user) = inr profile
      ∧ truthy_username profile = Some username.

(** The world once the rate limiter has counted the request of
    [userId]. *)
Definition counted (env : Env) (userId : string) (w : World) : World :=
  {| requestCounts :=
       (checkRateLimit (now env) userId DEFAULT_RATE_LIMIT (requestCounts w)).2;
     upstream_calls := upstream_calls w |}.

(** The world after one more upstream call. *)
Definition sent (r : Upstream.Request) (w : World) : World :=
  {| requestCounts := requestCounts w; upstream_calls := upstream_calls w ++ [r] |}.

(** The listing request of the scan. *)
Definition listing_request (provider_token : string) : Upstream.Request :=
  Upstream.ListUserRepos 100 "owner" provider_token.

(** The listing call, the next upstream call in [w], answers with a
    success response whose body is the array [repos]. *)
Definition listed (env : Env) (w : World) (provider_token : string)
    (repos : list Upstream.Repo) : Prop :=
  ∃ resp,
    fetch_result env (length (upstream_calls w)) (listing_request provider_token) = inr resp
    ∧ Upstream.ok resp = true
    ∧ Upstream.json resp = inr (Upstream.ReposJson repos).

(** The computation [m] leaves the part [f] of the world as it found
    it, however it ends. *)
Definition keeps {X A} (f : World → X) (m : M World A) : Prop :=
  ∀ w, f (m w).2 = f w.

(** An invocation is turned away without any upstream call: with 403
    when the limiter result [r] admitted it, with 429 when not. *)
Definition turned_away (w : World) (r : RateLimitResult)
    (run : Completion Http.Response * World) : Prop :=
  ∃ resp,
    run.1 = Normal resp
    ∧ Http.status resp = (if allowed r then 403 else 429)
    ∧ upstream_calls run.2 = upstream_calls w.

(** A status [new Response] accepts together with a body. *)
Definition sendable (status : Z) : Prop :=
  200 <= status <= 599 ∧ status ∉ [204; 205; 304].

#[global] Instance sendable_dec (status : Z) : Decision (sendable status).
Proof. unfold sendable. apply _. Defined.

End Fleet.

(** ** A model of the upstream hosting API *)

Module GitHub.
Import Js Edge.

(** An account: its name, the repositories it owns in listing order and
    the Pages document of those that publish. *)
Record Account := mkAccount {
  login : string;
  owned : list Upstream.Repo;
  pages : gmap string Upstream.PagesInfo;
}.

(** The answers of the API.  The listing is paginated: a request that
    names no page gets the first [per_page] repositories.  The Pages
    document of a repository without Pages is a 404. *)
Definition answer (a : Account) (r : Upstream.Request) : Upstream.Response :=
  match r with
  | Upstream.ListUserRepos per_page _ _ =>
      {| Upstream.resp_status := 200;
         Upstream.text := inr "[...]";
         Upstream.json := inr (Upstream.ReposJson (take (Z.to_nat per_page) (owned a))) |}
  | Upstream.GetPages owner repo _ =>
      match (if String.eqb owner (login a) then pages a !! repo else None) with
      | Some info =>
          {| Upstream.resp_status := 200;
             Upstream.text := inr "{...}";
             Upstream.json := inr (Upstream.PagesJson info) |}
      | None =>
          {| Upstream.resp_status := 404;
             Upstream.text := inr "Not Found";
             Upstream.json := inl "SyntaxError: unexpected token" |}
      end
  | Upstream.PostPages owner repo branch path _ =>
      {| Upstream.resp_status := 201;
         Upstream.text := inr "{...}";
         Upstream.json :=
           inr (Upstream.PagesJson
                  {| Upstream.source :=
                       Some {| Upstream.branch := Some branch; Upstream.path := Some path |};
                     Upstream.html_url :=
                       Some ("https://" +:+ owner +:+ ".github.io/" +:+ repo +:+ "/");
                     Upstream.status := None;
                     Upstream.built_at := None;
                     Upstream.updated_at := None |}) |}
  end.

(** An invocation at time [now] by the session user [userId], whose
    profile names the account [a], against that account. *)
Definition env_for (a : Account) (userId : string) (now : Z) : Env :=
  {| now := now;
     getUser := λ _, inr (Some (User.mk userId));
     profiles_single := λ _, inr (Some {| github_username := Some (login a) |});
     fetch_result := λ _ r, inr (answer a r) |}.

(** A POST request with the given JSON body. *)
Definition post (body : jsval) : Http.Request :=
  {| Http.method := "POST";
     Http.authorization := Some "Bearer session";
     Http.json := inr body |}.

(** Repositories [repo1 .. repoN]. *)
Definition numbered_repos (n : nat) : list Upstream.Repo :=
  (λ i, Upstream.mkRepo ("repo" +:+ pretty i)) <$> seq 1 n.

(** The document of a site built from [gh-pages], path [/]. *)
Definition built_site (url : string) : Upstream.PagesInfo :=
  {| Upstream.source :=
       Some {| Upstream.branch := Some "gh-pages"; Upstream.path := Some "/" |};
     Upstream.html_url := Some url;
     Upstream.status := Some "built";
     Upstream.built_at := None;
     Upstream.updated_at := None |}.

(** An account that owns 101 repositories, the last of which publishes. *)
Definition large_account : Account :=
  {| login := "alice";
     owned := numbered_repos 101;
     pages := {[ "repo101" := built_site "https://alice.github.io/repo101/" ]} |}.

(** The account [alice] owns [blog], [tools] and [secret]; only [blog]
    publishes. *)
Definition alice : Account :=
  {| login := "alice";
     owned := [Upstream.mkRepo "blog"; Upstream.mkRepo "tools"; Upstream.mkRepo "secret"];
     pages := {[ "blog" := built_site "https://alice.github.io/blog/" ]} |}.

(** An invocation by [alice]'s session user [u-alice] in which every
    call that concerns [secret] times out. *)
Definition alice_env : Env :=
  {| now := 1000;
     getUser := λ _, inr (Some (User.mk "u-alice"));
     profiles_single := λ _, inr (Some {| github_username := Some "alice" |});
     fetch_result := λ _ r,
       match r with
       | Upstream.GetPages _ repo _ | Upstream.PostPages _ repo _ _ _ =>
           if String.eqb repo "secret" then inl "TimeoutError: signal timed out"
           else inr (answer alice r)
       | Upstream.ListUserRepos _ _ _ => inr (answer alice r)
       end |}.

(** The same invocation against an upstream that answers every call
    with a 500 and some internal detail. *)
Definition outage_env : Env :=
  {| now := 1000;
     getUser := λ _, inr (Some (User.mk "u-alice"));
     profiles_single := λ _, inr (Some {| github_username := Some "alice" |});
     fetch_result := λ _ _,
       inr {| Upstream.resp_status := 500;
              Upstream.text := inr "db-7 unreachable for installation 4411";
              Upstream.json := inl "SyntaxError: unexpected token" |} |}.

(** Request bodies. *)
Definition list_body : jsval := JObj [("provider_token", JStr "gho_token")].

Definition info_body (owner repo : string) : jsval :=
  JObj [("owner", JStr owner); ("repo", JStr repo); ("provider_token", JStr "gho_token")].

Definition enable_body (owner repo : string) : jsval :=
  JObj [("owner", JStr owner); ("repo", JStr repo); ("branch", JStr "main");
        ("path", JStr "/"); ("provider_token", JStr "gho_token")].

(** A world in which [u-alice] has used up the current window. *)
Definition spent : World :=
  {| requestCounts := {[ "u-alice" := {| RateLimiter.count := 100; RateLimiter.resetAt := 50000 |} ]};
     upstream_calls := [] |}.

(** A world in which nothing was counted or sent yet. *)
Definition idle : World :=
  {| requestCounts := ∅; upstream_calls := [] |}.

End GitHub.

(** ** Views on runs of the rate limiter *)

Module RateLimiterRuns.
Import RateLimiter.

(** The operations that concern [userId]: its own calls and the sweeps. *)
Definition concerns (userId : string) (o : op) : bool :=
  match o with
  | Check u _ => bool_decide (u = userId)
  | Cleanup _ => true
  end.

Definition own_ops (userId : string) (ops : list op) : list op :=
  filter (λ o, concerns userId o = true) ops.

(** What the calls for [userId] returned, in order. *)
Definition results_for (userId : string) (rs : list (string * RateLimitResult))
    : list RateLimitResult :=
  snd <$> filter (λ ur, ur.1 = userId) rs.

(** No window of [userId] is open at [now]. *)
Definition no_live_window (now : Z) (userId : string)
    (requestCounts : gmap string UserData) : Prop :=
  match requestCounts !! userId with
  | Some d => resetAt d <= now
  | None => True
  end.

End RateLimiterRuns.

(** ** The stages of a handler *)

Module Stages.
Import Js RateLimiter Shared Edge.

(** How far a request gets before the shared steps. *)
Inductive entry (T : Type) :=
| Preflight
| Unreadable (e : JsError)
| Invalid (errors : list ZodIssue)
| Valid (data : T).
Arguments Preflight {T}.
Arguments Unreadable {T} e.
Arguments Invalid {T} errors.
Arguments Valid {T} data.

Definition entry_of {T} (schema : jsval → list ZodIssue + T) (req : Http.Request)
    : entry T :=
  if String.eqb (Http.method req) "OPTIONS" then Preflight
  else match Http.json req with
       | inl e => Unreadable e
       | inr body =>
           match schema body with
           | inl errors => Invalid errors
           | inr data => Valid data
           end
       end.

(** Where the shared steps (session, rate limit, profile) end. *)
Inductive gate :=
| SessionError (e : JsError)
| NoSession
| OverLimit (user : User.t) (r : RateLimitResult)
| ProfileError (user : User.t) (e : JsError)
| NoProfile (user : User.t)
| Linked (user : User.t) (username : string).

Definition gate_of (env : Env) (req : Http.Request) (w : World) : gate :=
  match getUser env (Http.authorization req) with
  | inl e => SessionError e
  | inr None => NoSession
  | inr (Some user) =>
      let r := (checkRateLimit (now env) (User.id user) DEFAULT_RATE_LIMIT
                  (requestCounts w)).1 in
      if allowed r then
        match profiles_single env (User.id user) with
        | inl e => ProfileError user e
        | inr profile =>
            match truthy_username profile with
            | None => NoProfile user
            | Some username => Linked user username
            end
        end
      else OverLimit user r
  end.

(** The session user, once the request is valid and the session is
    known; [None] when the handler answers before the rate limiter. *)
Definition limited_user {T} (schema : jsval → list ZodIssue + T)
    (env : Env) (req : Http.Request) : option User.t :=
  match entry_of schema req with
  | Valid _ =>
      match getUser env (Http.authorization req) with
      | inr (Some user) => Some user
      | _ => None
      end
  | _ => None
  end.

(** The computation answers, if it answers, with a response that
    satisfies [P]. *)
Definition answers {W} (P : Http.Response → Prop) (m : M W Http.Response) : Prop :=
  ∀ w, match (m w).1 with
       | Normal resp => P resp
       | Throw _ => True
       end.

(** The header names a handler sets itself. *)
Definition own_headers : list string :=
  ["Content-Type"; "X-RateLimit-Limit"; "X-RateLimit-Remaining"; "X-RateLimit-Reset"].

(** The statuses the handlers choose themselves. *)
Definition own_statuses : list Z := [200; 400; 401; 403; 429; 500].

Section Paths.
Context `{Imports}.

(** What each handler does once the shared steps have produced the
    account name: the tail of its body. *)
Definition list_pages_sites_steps (env : Env) (data : ListPagesSitesInput.t)
    (username : string) : M World Http.Response :=
  let provider_token := ListPagesSitesInput.provider_token data in
  reposResponse ← fetch env (Upstream.ListUserRepos 100 "owner" provider_token);
  if negb (Upstream.ok reposResponse) then upstream_error reposResponse
  else
    repos ← await (Upstream.json reposResponse);
    repos ← await (Upstream.iterate repos);
    livePagesSites ← for_of repos (check_pages env username provider_token) [];
    respond (Http.SitesBody livePagesSites) None json_headers.

Definition get_pages_info_steps (env : Env) (data : GetPagesInfoInput.t)
    (github_username : string) : M World Http.Response :=
  let owner := GetPagesInfoInput.owner data in
  let repo := GetPagesInfoInput.repo data in
  let provider_token := GetPagesInfoInput.provider_token data in
  if negb (String.eqb owner github_username) then not_owner
  else
    githubResponse ← fetch env (Upstream.GetPages owner repo provider_token);
    if bool_decide (Upstream.resp_status githubResponse = 404) then
      respond Http.PagesDisabledBody None json_headers
    else if negb (Upstream.ok githubResponse) then upstream_error githubResponse
    else
      pagesInfo ← await (Upstream.json githubResponse);
      let pagesInfo := Upstream.members pagesInfo in
      respond
        (Http.PagesInfoBody (Upstream.html_url pagesInfo)
           (Upstream.status pagesInfo) (Upstream.source pagesInfo))
        None json_headers.

Definition enable_github_pages_steps (env : Env) (data : EnablePagesInput.t)
    (github_username : string) : M World Http.Response :=
  let owner := EnablePagesInput.owner data in
  let repo := EnablePagesInput.repo data in
  let branch := EnablePagesInput.branch data in
  let path := EnablePagesInput.path data in
  let provider_token := EnablePagesInput.provider_token data in
  if negb (String.eqb owner github_username) then not_owner
  else
    githubResponse ←
      fetch env (Upstream.PostPages owner repo branch path provider_token);
    if negb (Upstream.ok githubResponse) then upstream_error githubResponse
    else
      pagesInfo ← await (Upstream.json githubResponse);
      let pagesInfo := Upstream.members pagesInfo in
      respond
        (Http.EnableSuccessBody (Upstream.html_url pagesInfo)
           (Upstream.status pagesInfo)
           "GitHub Pages has been enabled successfully!")
        None json_headers.

(** The paths of a handler, spelled out: the preflight answer, the
    answers before the rate limiter, and the answers after it, where
    the limiter has counted the request. *)
Definition staged {T} (preflight_status : option Z)
    (schema : jsval → list ZodIssue + T)
    (steps : T → string → M World Http.Response)
    (env : Env) (req : Http.Request) : M World Http.Response :=
  λ w,
    match entry_of schema req with
    | Preflight => await (Http.new_Response None preflight_status corsHeaders) w
    | Unreadable e => internal_error e w
    | Invalid errors => invalid_input errors w
    | Valid data =>
        match gate_of env req w with
        | SessionError e => internal_error e w
        | NoSession => unauthorized w
        | OverLimit user r =>
            rate_limit_exceeded r (Fleet.counted env (User.id user) w)
        | ProfileError user e => internal_error e (Fleet.counted env (User.id user) w)
        | NoProfile user => profile_not_found (Fleet.counted env (User.id user) w)
        | Linked user username =>
            try_catch (steps data username) internal_error
              (Fleet.counted env (User.id user) w)
        end
    end.

(** The response a handler builds from a body, a status and headers. *)
Definition response (status : Z) (headers : gmap string string) (body : Http.Body)
    : Http.Response :=
  {| Http.status := status; Http.headers := headers; Http.body := Some body |}.

(** A response of the handlers carries one of their own statuses or the
    status the sanitizer chose for some upstream answer. *)
Definition status_in_taxonomy (resp : Http.Response) : Prop :=
  Http.status resp ∈ own_statuses
  ∨ ∃ upstream_status rawBody,
      Http.status resp = status (sanitizeGitHubError upstream_status rawBody).

(** Apart from the headers a handler sets itself, the headers of a
    response are the CORS headers. *)
Definition cors_headers_kept (resp : Http.Response) : Prop :=
  ∀ name, name ∉ own_headers → Http.headers resp !! name = corsHeaders !! name.

(** Both at once. *)
Definition envelope (resp : Http.Response) : Prop :=
  status_in_taxonomy resp ∧ cors_headers_kept resp.

(** The three endpoints. *)
Inductive endpoint := ListPagesSites | GetPagesInfo | EnableGitHubPages.

Definition handler_of (e : endpoint) : Env → Http.Request → M World Http.Response :=
  match e with
  | ListPagesSites => list_pages_sites
  | GetPagesInfo => get_pages_info
  | EnableGitHubPages => enable_github_pages
  end.

(** The session user of a request that reaches the rate limiter of the
    endpoint. *)
Definition limited (e : endpoint) (env : Env) (req : Http.Request) : option User.t :=
  match e with
  | ListPagesSites => limited_user listPagesSitesSchema env req
  | GetPagesInfo => limited_user getPagesInfoSchema env req
  | EnableGitHubPages => limited_user enablePagesSchema env req
  end.

(** The [provider_token] of a valid body. *)
Definition body_token (e : endpoint) (req : Http.Request) : option string :=
  match e with
  | ListPagesSites =>
      match entry_of listPagesSitesSchema req with
      | Valid data => Some (ListPagesSitesInput.provider_token data)
      | _ => None
      end
  | GetPagesInfo =>
      match entry_of getPagesInfoSchema req with
      | Valid data => Some (GetPagesInfoInput.provider_token data)
      | _ => None
      end
  | EnableGitHubPages =>
      match entry_of enablePagesSchema req with
      | Valid data => Some (EnablePagesInput.provider_token data)
      | _ => None
      end
  end.

End Paths.

(** The run changed nothing, and answered with one of the statuses of
    the steps before the rate limiter. *)
Definition untouched (w : World) (run : Completion Http.Response * World) : Prop :=
  run.2 = w
  ∧ ∃ resp, run.1 = Normal resp ∧ Http.status resp ∈ [200; 400; 401; 500].

(** A profile that names no account: no row, or a row whose
    [github_username] is null or empty. *)
Definition unlinked (profile : option Profile) : Prop :=
  match profile with
  | None => True
  | Some p => github_username p = None ∨ github_username p = Some EmptyString
  end.

(** The account and repository an upstream call is about (the listing
    is about the account of the token), and the token it carries. *)
Definition account_of (c : Upstream.Request) : option string :=
  match c with
  | Upstream.ListUserRepos _ _ _ => None
  | Upstream.GetPages owner _ _ | Upstream.PostPages owner _ _ _ _ => Some owner
  end.

Definition token_of (c : Upstream.Request) : string :=
  match c with
  | Upstream.ListUserRepos _ _ token
  | Upstream.GetPages _ _ token
  | Upstream.PostPages _ _ _ _ token => token
  end.

(** The upstream calls a run added to those of [w]. *)
Definition new_calls (w : World) (run : Completion Http.Response * World)
    (calls : list Upstream.Request) : Prop :=
  upstream_calls run.2 = upstream_calls w ++ calls.

(** The repositories the scan iterates when the listing is the next
    upstream call in [w]: those of a success response whose body is an
    array, none otherwise. *)
Definition listed_repos (env : Env) (w : World) (provider_token : string)
    : list Upstream.Repo :=
  match fetch_result env (length (upstream_calls w))
          (Fleet.listing_request provider_token) with
  | inr resp =>
      if Upstream.ok resp then
        match Upstream.json resp with
        | inr (Upstream.ReposJson repos) => repos
        | _ => []
        end
      else []
  | inl _ => []
  end.

End Stages.

(** ** Values of any shape, and replies with any body *)

Module Dynamic.
Import Js.

(** [v.k] on a parsed JSON value: reading a member of [null] throws, an
    object yields the value of its last [k] entry, every other value has
    none of the members read here.  [None] is [undefined]. *)
Definition member (k : string) (v : jsval) : JsError + option jsval :=
  match v with
  | JNull => inl "TypeError: Cannot read properties of null"
  | JObj fields => inr ((list_to_map (reverse fields) : gmap string jsval) !! k)
  | _ => inr None
  end.

(** [v.k] where [v] may be [undefined]. *)
Definition member_of (k : string) (v : option jsval) : JsError + option jsval :=
  match v with
  | None => inl "TypeError: Cannot read properties of undefined"
  | Some v => member k v
  end.

(** [!v] *)
Definition falsy (v : option jsval) : bool :=
  match v with
  | None => true
  | Some JNull => true
  | Some (JBool b) => negb b
  | Some (JNum z) => bool_decide (z = 0)
  | Some (JStr s) => String.eqb s EmptyString
  | Some (JArr _) => false
  | Some (JObj _) => false
  end.

(** An outgoing response with a body of type [B]. *)
Record Reply (B : Type) := mkReply {
  status : Z;
  headers : gmap string string;
  body : option B;
}.
Arguments mkReply {B} status headers body.
Arguments status {B} _.
Arguments headers {B} _.
Arguments body {B} _.

(** [new Response(body, { status, headers })], as for the other
    handlers. *)
Definition new_Reply {B} (body : option B) (init_status : option Z)
    (init_headers : gmap string string) : JsError + Reply B :=
  let status := default 200 init_status in
  if negb (bool_decide (200 <= status <= 599)) then
    inl "RangeError: status out of range"
  else if bool_decide (is_Some body) && bool_decide (status ∈ [204; 205; 304]) then
    inl "TypeError: response with null body status cannot have body"
  else inr {| status := status; headers := init_headers; body := body |}.

(** A [fetch] response whose JSON body has any shape. *)
Record Answer := mkAnswer {
  answer_status : Z;
  text : JsError + string;
  json : JsError + jsval;
}.

(** [response.ok] *)
Definition ok (r : Answer) : bool := bool_decide (200 <= answer_status r <= 299).

End Dynamic.

(** ** [create-branch] *)

Module CreateBranch.
Import Js Shared Dynamic.

(** The names bound by
    [const { owner, repo, branchName, sourceBranch = 'main', provider_token }]. *)
Record Params := mkParams {
  owner : option jsval;
  repo : option jsval;
  branchName : option jsval;
  sourceBranch : jsval;
  provider_token : option jsval;
}.

(** The destructuring: it throws on [null]; a member that is absent is
    [undefined], and [sourceBranch] then takes its default. *)
Definition destructure (v : jsval) : JsError + Params :=
  match v with
  | JNull => inl "TypeError: Cannot destructure"
  | _ =>
      let read k := match member k v with inr x => x | inl _ => None end in
      inr {| owner := read "owner";
             repo := read "repo";
             branchName := read "branchName";
             sourceBranch := default (JStr "main") (read "sourceBranch");
             provider_token := read "provider_token" |}
  end.

(** What [getGitHubToken] resolves to when it finds the caller. *)
Record GitHubProfile := mkGitHubProfile { github_access_token : string }.

(** The two upstream calls: the read of
    [/repos/owner/repo/git/refs/heads/sourceBranch], and the POST to
    [/repos/owner/repo/git/refs] of [{ ref: refs/heads/branchName, sha }]. *)
Inductive Request :=
| GetRef (owner repo : option jsval) (sourceBranch : jsval) (token : string)
| PostRef (owner repo branchName : option jsval) (sha : option jsval) (token : string).

(** [getGitHubToken] belongs to [_shared/github-helper.ts], which is not
    among the sources; it and [fetch] are oracles.  An exception is an
    [Error] with the given message. *)
Record Env := mkEnv {
  getGitHubToken : Http.Request → option jsval → JsError + option GitHubProfile;
  fetch_result : nat → Request → JsError + Answer;
}.

(** The object handed to [JSON.stringify]; [SourceBranchNotFound b] is
    [{ error: `Source branch '${b}' not found` }]. *)
Inductive Body :=
| ErrorBody (error : string)
| SourceBranchNotFound (sourceBranch : jsval)
| SuccessBody (branch : option jsval).

(** [await fetch(...)], recorded in the list of calls sent. *)
Definition fetch (env : Env) (r : Request) : M (list Request) Answer :=
  λ calls,
    match fetch_result env (length calls) r with
    | inl e => (Throw e, calls ++ [r])
    | inr resp => (Normal resp, calls ++ [r])
    end.

(** [refData.object.sha] *)
Definition object_sha (refData : jsval) : JsError + option jsval :=
  match member "object" refData with
  | inl e => inl e
  | inr object => member_of "sha" object
  end.

Section Handler.
Context `{Imports}.

(** [{ ...corsHeaders, 'Content-Type': 'application/json' }] *)
Definition json_headers : gmap string string :=
  <["Content-Type" := "application/json"]> corsHeaders.

Definition respond (body : Body) (status : option Z) : M (list Request) (Reply Body) :=
  await (new_Reply (Some body) status json_headers).

Definition create_branch_body (env : Env) (req : Http.Request)
    : M (list Request) (Reply Body) :=
  body ← await (Http.json req);
  params ← await (destructure body);
  githubProfile ← await (getGitHubToken env req (provider_token params));
  match githubProfile with
  | None => respond (ErrorBody "GitHub authentication required") (Some 401)
  | Some githubProfile =>
      if falsy (owner params) || falsy (repo params) || falsy (branchName params) then
        respond (ErrorBody "Missing required parameters") (Some 400)
      else
        let token := github_access_token githubProfile in
        refResponse ←
          fetch env (GetRef (owner params) (repo params) (sourceBranch params) token);
        if negb (ok refResponse) then
          error ← await (text refResponse);
          respond (SourceBranchNotFound (sourceBranch params)) (Some 404)
        else
          refData ← await (json refResponse);
          sha ← await (object_sha refData);
          createResponse ←
            fetch env (PostRef (owner params) (repo params) (branchName params) sha token);
          if negb (ok createResponse) then
            error ← await (text createResponse);
            respond (ErrorBody "Failed to create branch. It may already exist.")
              (Some 400)
          else respond (SuccessBody (branchName params)) None
  end.

(** The handler: the preflight answer, or the body under its
    [try]/[catch], which answers 500 with the message of the error. *)
Definition create_branch (env : Env) (req : Http.Request)
    : M (list Request) (Reply Body) :=
  if String.eqb (Http.method req) "OPTIONS" then
    await (new_Reply None None corsHeaders)
  else
    try_catch (create_branch_body env req)
      (λ error, respond (ErrorBody error) (Some 500)).

End Handler.

(** The handler gets as far as the upstream with [params] and
    [profile]: the request is no preflight, its body was read and
    destructured, the helper found the caller, and no required parameter
    is falsy. *)
Definition ready (env : Env) (req : Http.Request) (params : Params)
    (profile : GitHubProfile) : Prop :=
  String.eqb (Http.method req) "OPTIONS" = false
  ∧ (∃ body, Http.json req = inr body ∧ destructure body = inr params)
  ∧ getGitHubToken env req (provider_token params) = inr (Some profile)
  ∧ falsy (owner params) || falsy (repo params) || falsy (branchName params) = false.

(** The lookup of the source branch, and the creation of the new one at
    [sha]. *)
Definition lookup_call (params : Params) (profile : GitHubProfile) : Request :=
  GetRef (owner params) (repo params) (sourceBranch params) (github_access_token profile).

Definition create_call (params : Params) (profile : GitHubProfile) (sha : option jsval)
    : Request :=
  PostRef (owner params) (repo params) (branchName params) sha
    (github_access_token profile).

(** The request the dialog sends: a POST with the given JSON body. *)
Definition post (body : jsval) : Http.Request :=
  {| Http.method := "POST"; Http.authorization := Some "Bearer session"; Http.json := inr body |}.

(** An upstream in which the source branch exists at [sha] and the new
    branch can be created, for a caller the helper knows. *)
Definition friendly (sha : string) : Env :=
  {| getGitHubToken := λ _ _, inr (Some {| github_access_token := "gho_stored" |});
     fetch_result := λ _ r,
       match r with
       | GetRef _ _ _ _ =>
           inr {| answer_status := 200;
                  text := inr "{...}";
                  json := inr (JObj [("ref", JStr "refs/heads/main");
                                     ("object", JObj [("sha", JStr sha)])]) |}
       | PostRef _ _ _ _ _ =>
           inr {| answer_status := 201; text := inr "{...}"; json := inr (JObj []) |}
       end |}.

(** An upstream that answers every call with the given status. *)
Definition failing (status : Z) : Env :=
  {| getGitHubToken := λ _ _, inr (Some {| github_access_token := "gho_stored" |});
     fetch_result := λ _ _,
       inr {| answer_status := status; text := inr "rate limit exceeded for 10.0.0.7";
              json := inl "SyntaxError" |} |}.

End CreateBranch.

(** ** [rename-branch] *)

Module RenameBranch.
Import Js Shared Dynamic.

(** What [renameBranchSchema.parse] returns. *)
Module Input.
Record t := mk {
  owner : string;
  repo : string;
  old_name : string;
  new_name : string;
  provider_token : string;
}.
End Input.

(** The one upstream call: the POST of [{ new_name }] to
    [/repos/owner/repo/branches/old_name/rename]. *)
Inductive Request :=
| Rename (owner repo old_name new_name : string) (token : string).

(** Session, profile store and upstream, as oracles. *)
Record Env := mkEnv {
  getUser : option string → JsError + option Edge.User.t;
  profiles_single : string → JsError + option Edge.Profile;
  fetch_result : nat → Request → JsError + Answer;
}.

(** The object handed to [JSON.stringify]. *)
Inductive Body :=
| ErrorBody (error : string)
| RenamedBody (new_name : option jsval).

(** The [corsHeaders] the file defines. *)
Definition corsHeaders : gmap string string :=
  {[ "Access-Control-Allow-Origin" := "*";
     "Access-Control-Allow-Headers" :=
       "authorization, x-client-info, apikey, content-type" ]}.

(** [{ ...corsHeaders, 'Content-Type': 'application/json' }] *)
Definition json_headers : gmap string string :=
  <["Content-Type" := "application/json"]> corsHeaders.

(** [await fetch(...)], recorded in the list of calls sent. *)
Definition fetch (env : Env) (r : Request) : M (list Request) Answer :=
  λ calls,
    match fetch_result env (length calls) r with
    | inl e => (Throw e, calls ++ [r])
    | inr resp => (Normal resp, calls ++ [r])
    end.

Definition respond (body : Body) (status : option Z) : M (list Request) (Reply Body) :=
  await (new_Reply (Some body) status json_headers).

Section Handler.
Context `{Imports}.

(** [renameBranchSchema.parse]: the parsed body, or the [ZodError] it
    throws.  The field schemas of the missing [_shared/validation.ts]
    make it a parameter. *)
Variable parse : jsval → JsError + Input.t.

Definition rename_branch_body (env : Env) (req : Http.Request)
    : M (list Request) (Reply Body) :=
  body ← await (Http.json req);
  data ← await (parse body);
  user ← await (getUser env (Http.authorization req));
  match user with
  | None => respond (ErrorBody "Unauthorized") (Some 401)
  | Some user =>
      profile ← await (profiles_single env (Edge.User.id user));
      match Edge.truthy_username profile with
      | None => respond (ErrorBody "GitHub username not found") (Some 401)
      | Some github_username =>
          if negb (String.eqb github_username (Input.owner data)) then
            respond (ErrorBody "You can only rename branches in your own repositories")
              (Some 403)
          else
            githubResponse ←
              fetch env (Rename (Input.owner data) (Input.repo data) (Input.old_name data)
                           (Input.new_name data) (Input.provider_token data));
            if negb (ok githubResponse) then
              rawError ← await (text githubResponse);
              let sanitized := sanitizeGitHubError (answer_status githubResponse) rawError in
              respond (ErrorBody (message sanitized)) (Some (Shared.status sanitized))
            else
              result ← await (json githubResponse);
              name ← await (member "name" result);
              respond (RenamedBody name) None
      end
  end.

Definition rename_branch (env : Env) (req : Http.Request)
    : M (list Request) (Reply Body) :=
  if String.eqb (Http.method req) "OPTIONS" then
    await (new_Reply None None corsHeaders)
  else
    try_catch (rename_branch_body env req)
      (λ error, respond (ErrorBody (sanitizeGeneralError error)) (Some 500)).

(** The request is no preflight, its body parses to [data], and the
    session user's profile resolves to [username]. *)
Definition resolved (env : Env) (req : Http.Request) (data : Input.t)
    (username : string) : Prop :=
  String.eqb (Http.method req) "OPTIONS" = false
  ∧ (∃ body, Http.json req = inr body ∧ parse body = inr data)
  ∧ ∃ user profile,
      getUser env (Http.authorization req) = inr (Some user)
      ∧ profiles_single env (Edge.User.id user) = inr profile
      ∧ Edge.truthy_username profile = Some username.

End Handler.

(** The call for a parsed body. *)
Definition rename_call (data : Input.t) : Request :=
  Rename (Input.owner data) (Input.repo data) (Input.old_name data)
    (Input.new_name data) (Input.provider_token data).

(** A parser for bodies that hold the five members as strings, and
    nothing to say about any other body but that it is invalid. *)
Definition parse_strings (v : jsval) : JsError + Input.t :=
  match Reference.string_member "owner" v, Reference.string_member "repo" v,
        Reference.string_member "old_name" v, Reference.string_member "new_name" v,
        Reference.string_member "provider_token" v with
  | Some o, Some r, Some old, Some new, Some t => inr (Input.mk o r old new t)
  | _, _, _, _, _ => inl "ZodError"
  end.

(** A session of [alice] against an upstream that renames. *)
Definition alice_env : Env :=
  {| getUser := λ _, inr (Some (Edge.User.mk "u-alice"));
     profiles_single := λ _, inr (Some {| Edge.github_username := Some "alice" |});
     fetch_result := λ _ r,
       match r with
       | Rename _ _ _ new_name _ =>
           inr {| answer_status := 201; text := inr "{...}";
                  json := inr (JObj [("name", JStr new_name)]) |}
       end |}.

Definition rename_body (owner : string) : jsval :=
  JObj [("owner", JStr owner); ("repo", JStr "site"); ("old_name", JStr "master");
        ("new_name", JStr "main"); ("provider_token", JStr "gho_token")].

End RenameBranch.

(** ** Further invocations *)

Module Visitors.
Import Js.

(** A CORS preflight. *)
Definition preflight : Http.Request :=
  {| Http.method := "OPTIONS";
     Http.authorization := None;
     Http.json := inl "SyntaxError: Unexpected end of JSON input" |}.

(** The session user [u-new], whose profile row names no account yet. *)
Definition newcomer_env : Edge.Env :=
  {| Edge.now := 1000;
     Edge.getUser := λ _, inr (Some (Edge.User.mk "u-new"));
     Edge.profiles_single := λ _, inr (Some {| Edge.github_username := None |});
     Edge.fetch_result := λ _ r, inr (GitHub.answer GitHub.alice r) |}.

(** [alice]'s session while the upstream cannot be reached. *)
Definition offline_env : Edge.Env :=
  {| Edge.now := 1000;
     Edge.getUser := λ _, inr (Some (Edge.User.mk "u-alice"));
     Edge.profiles_single := λ _, inr (Some {| Edge.github_username := Some "alice" |});
     Edge.fetch_result := λ _ _, inl "TypeError: error sending request" |}.


(** The body the dialog sends for a new branch of [alice/site]. *)
Definition branch_body (branchName : string) : jsval :=
  JObj [("owner", JStr "alice"); ("repo", JStr "site"); ("branchName", JStr branchName)].

(** What the handler binds for the body that asks for [feature]. *)
Definition feature_params : CreateBranch.Params :=
  {| CreateBranch.owner := Some (JStr "alice");
     CreateBranch.repo := Some (JStr "site");
     CreateBranch.branchName := Some (JStr "feature");
     CreateBranch.sourceBranch := JStr "main";
     CreateBranch.provider_token := None |}.

End Visitors.

(** * The client *)

(** ** [Breadcrumbs] *)

Module Breadcrumbs.
Import Stdlib.Strings.Ascii.

(** [s.split(sep)] for a separator of one character.  Strings are
    sequences of bytes here; the byte of [/] occurs in no encoding of
    another character, so splitting at it is splitting at the
    character. *)
Fixpoint split (sep : Ascii.ascii) (s : string) : list string :=
  match s with
  | EmptyString => [EmptyString]
  | String c rest =>
      if Ascii.eqb c sep then EmptyString :: split sep rest
      else match split sep rest with
           | [] => [String c EmptyString]
           | x :: xs => String c x :: xs
           end
  end.

(** [xs.join(sep)] *)
Fixpoint join (sep : string) (xs : list string) : string :=
  match xs with
  | [] => EmptyString
  | x :: rest =>
      match rest with
      | [] => x
      | _ :: _ => x +:+ sep +:+ join sep rest
      end
  end.

(** [currentPath ? currentPath.split('/').filter(Boolean) : []] *)
Definition pathSegments (currentPath : string) : list string :=
  if String.eqb currentPath EmptyString then []
  else filter (λ segment, segment ≠ EmptyString) (split "/"%char currentPath).

(** One button after [Root]: the path it navigates to (also its React
    key), its label, and whether it is styled as the current folder. *)
Record Crumb := mkCrumb {
  path : string;
  segment : string;
  isLast : bool;
}.

(** [pathSegments.map((segment, index) => ...)] *)
Definition crumbs (currentPath : string) : list Crumb :=
  let pathSegments := pathSegments currentPath in
  imap (λ index segment,
          {| path := join "/" (take (index + 1) pathSegments);
             segment := segment;
             isLast := bool_decide (index = (length pathSegments - 1)%nat) |})
    pathSegments.

(** [s.includes(c)] for a character [c]. *)
Fixpoint includes (c : Ascii.ascii) (s : string) : bool :=
  match s with
  | EmptyString => false
  | String c' rest => Ascii.eqb c' c || includes c rest
  end.

End Breadcrumbs.

(** ** What the pages get from [invokeFunction] *)

Module SupabaseFunctions.

(** [invokeFunction] belongs to [@/lib/supabase-functions], which is not
    among the sources; the pages only await it and destructure
    [{ data, error }].  Of an error value (returned or thrown) the pages
    read [message], a string when it is there. *)
Record ErrorValue := mkErrorValue { message : option string }.

(** The awaited call rejects with some value (possibly [undefined]), or
    resolves; [data] and [error] may be [null]. *)
Inductive Outcome (D : Type) :=
| Rejects (reason : option ErrorValue)
| Resolves (data : option D) (error : option ErrorValue).
Arguments Rejects {D} reason.
Arguments Resolves {D} data error.

(** A toast. *)
Record Toast := mkToast {
  variant : option string;
  title : string;
  description : string;
}.

End SupabaseFunctions.

(** ** [useLivePages] *)

Module UseLivePages.
Import Js SupabaseFunctions.

(** [{ sites: LivePagesSite[] }]; the interface [LivePagesSite] has the
    fields of the handler's [PagesSite]. *)
Record Data := mkData { data_sites : option (list Http.PagesSite.t) }.

(** The calls the hook makes on its state and on the toaster. *)
Inductive Effect :=
| SetSites (sites : list Http.PagesSite.t)
| SetIsLoading (isLoading : bool)
| ShowToast (t : Toast).

(** The state of the hook and the toasts shown so far. *)
Record Screen := mkScreen {
  sites : list Http.PagesSite.t;
  isLoading : bool;
  toasts : list Toast;
}.

Definition initial : Screen := {| sites := []; isLoading := false; toasts := [] |}.

Definition apply (s : Screen) (e : Effect) : Screen :=
  match e with
  | SetSites sites => {| sites := sites; isLoading := isLoading s; toasts := toasts s |}
  | SetIsLoading b => {| sites := sites s; isLoading := b; toasts := toasts s |}
  | ShowToast t => {| sites := sites s; isLoading := isLoading s; toasts := toasts s ++ [t] |}
  end.

Definition run (effects : list Effect) (s : Screen) : Screen := foldl apply s effects.

(** The [try] block: what it throws, or the calls it makes. *)
Definition attempt (outcome : Outcome Data) : option ErrorValue + list Effect :=
  match outcome with
  | Rejects reason => inl reason
  | Resolves data (Some error) => inl (Some error)
  | Resolves data None => inr [SetSites (default [] (data ≫= data_sites))]
  end.

(** [fetchLivePages], given what the awaited call does. *)
Definition fetchLivePages (outcome : Outcome Data) : list Effect :=
  [SetIsLoading true]
  ++ match attempt outcome with
     | inr effects => effects
     | inl error =>
         [ShowToast
            {| variant := Some "destructive";
               title := "Failed to Load Live Pages";
               description :=
                 or_default (error ≫= message) "Could not fetch your GitHub Pages sites." |};
          SetSites []]
     end
  ++ [SetIsLoading false].

End UseLivePages.

(** ** [LivePagesDashboard] *)

Module LivePagesDashboard.
Import Js.

(** [toLowerCase] on the letters [A] to [Z].  The two characters
    outside ASCII whose lower case holds an ASCII letter (U+0130 and
    U+212A) give [i] followed by U+0307, and [k]; neither makes a string
    equal to one of the case labels below, so the two functions that
    switch on the result are as in the source. *)
Definition lower_char (c : Ascii.ascii) : Ascii.ascii :=
  let n := Ascii.nat_of_ascii c in
  if (65 <=? n)%nat && (n <=? 90)%nat then Ascii.ascii_of_nat (n + 32) else c.

Fixpoint toLowerCase (s : string) : string :=
  match s with
  | EmptyString => EmptyString
  | String c rest => String (lower_char c) (toLowerCase rest)
  end.

Definition getStatusColor (status : string) : string :=
  let lower := toLowerCase status in
  if String.eqb lower "built" || String.eqb lower "live" then "default"
  else if String.eqb lower "building" then "secondary"
  else if String.eqb lower "errored" then "destructive"
  else "outline".

Definition getStatusLabel (status : string) : string :=
  let lower := toLowerCase status in
  if String.eqb lower "built" then "Live"
  else if String.eqb lower "building" then "Building"
  else if String.eqb lower "errored" then "Error"
  else status.

(** What a [LivePageCard] takes from its summary: the React key, the
    branch line, the badge, the folder line (only for a path other than
    [/]) and the date line (only for a date that is there). *)
Record Card := mkCard {
  key : string;
  branch : string;
  badge_variant : string;
  badge_label : string;
  folder : option string;
  updated : option string;
}.

Definition LivePageCard (site : Http.PagesSite.t) : Card :=
  {| key := Http.PagesSite.repository site;
     branch := Http.PagesSite.branch (Http.PagesSite.source site);
     badge_variant := getStatusColor (Http.PagesSite.status site);
     badge_label := getStatusLabel (Http.PagesSite.status site);
     folder :=
       if String.eqb (Http.PagesSite.path (Http.PagesSite.source site)) "/" then None
       else Some (Http.PagesSite.path (Http.PagesSite.source site));
     updated :=
       if truthy (Http.PagesSite.updated_at site) then Http.PagesSite.updated_at site
       else None |}.

(** The three things the dashboard renders. *)
Inductive View :=
| Skeletons
| NoLivePagesFound
| Grid (cards : list Card).

Definition render (s : UseLivePages.Screen) : View :=
  if UseLivePages.isLoading s then Skeletons
  else if bool_decide (length (UseLivePages.sites s) = 0%nat) then NoLivePagesFound
  else Grid (LivePageCard <$> UseLivePages.sites s).

End LivePagesDashboard.

(** ** The page [GitHubPages] *)

Module GitHubPages.
Import Js SupabaseFunctions.

Inductive ActiveView := Deploy | Live.

(** The state of the page.  [pagesUrl] is declared a string, and
    [handleEnablePages] stores [data.url] in it as it comes. *)
Record State := mkState {
  username : option string;
  activeView : ActiveView;
  currentStep : Z;
  selectedRepo : string;
  selectedBranch : string;
  selectedPath : string;
  pagesUrl : option string;
  isEnabled : bool;
  isLoading : bool;
  isCheckingStatus : bool;
  toasts : list Toast;
}.

Definition initial : State :=
  {| username := None;
     activeView := Deploy;
     currentStep := 0;
     selectedRepo := EmptyString;
     selectedBranch := EmptyString;
     selectedPath := "/";
     pagesUrl := Some EmptyString;
     isEnabled := false;
     isLoading := false;
     isCheckingStatus := false;
     toasts := [] |}.

Definition steps : list string :=
  ["Select Repository"; "Configure Source"; "Enable & Review"].

(** The body of an invocation. *)
Record Payload := mkPayload {
  owner : string;
  repo : string;
  branch : option string;
  path : option string;
}.

(** The calls a handler makes: on the state setters ([SetCurrentStep]
    takes the updater function), on the toaster, and on
    [invokeFunction]. *)
Inductive Effect :=
| SetUsername (username : option string)
| SetActiveView (v : ActiveView)
| SetCurrentStep (update : Z → Z)
| SetSelectedRepo (repo : string)
| SetSelectedBranch (branch : string)
| SetSelectedPath (path : string)
| SetPagesUrl (url : option string)
| SetIsEnabled (b : bool)
| SetIsLoading (b : bool)
| SetIsCheckingStatus (b : bool)
| ShowToast (t : Toast)
| Invoke (function : string) (body : Payload).

Definition apply (s : State) (e : Effect) : State :=
  match e with
  | SetUsername u =>
      mkState u (activeView s) (currentStep s) (selectedRepo s) (selectedBranch s)
        (selectedPath s) (pagesUrl s) (isEnabled s) (isLoading s) (isCheckingStatus s)
        (toasts s)
  | SetActiveView v =>
      mkState (username s) v (currentStep s) (selectedRepo s) (selectedBranch s)
        (selectedPath s) (pagesUrl s) (isEnabled s) (isLoading s) (isCheckingStatus s)
        (toasts s)
  | SetCurrentStep update =>
      mkState (username s) (activeView s) (update (currentStep s)) (selectedRepo s)
        (selectedBranch s) (selectedPath s) (pagesUrl s) (isEnabled s) (isLoading s)
        (isCheckingStatus s) (toasts s)
  | SetSelectedRepo r =>
      mkState (username s) (activeView s) (currentStep s) r (selectedBranch s)
        (selectedPath s) (pagesUrl s) (isEnabled s) (isLoading s) (isCheckingStatus s)
        (toasts s)
  | SetSelectedBranch b =>
      mkState (username s) (activeView s) (currentStep s) (selectedRepo s) b
        (selectedPath s) (pagesUrl s) (isEnabled s) (isLoading s) (isCheckingStatus s)
        (toasts s)
  | SetSelectedPath p =>
      mkState (username s) (activeView s) (currentStep s) (selectedRepo s)
        (selectedBranch s) p (pagesUrl s) (isEnabled s) (isLoading s)
        (isCheckingStatus s) (toasts s)
  | SetPagesUrl u =>
      mkState (username s) (activeView s) (currentStep s) (selectedRepo s)
        (selectedBranch s) (selectedPath s) u (isEnabled s) (isLoading s)
        (isCheckingStatus s) (toasts s)
  | SetIsEnabled b =>
      mkState (username s) (activeView s) (currentStep s) (selectedRepo s)
        (selectedBranch s) (selectedPath s) (pagesUrl s) b (isLoading s)
        (isCheckingStatus s) (toasts s)
  | SetIsLoading b =>
      mkState (username s) (activeView s) (currentStep s) (selectedRepo s)
        (selectedBranch s) (selectedPath s) (pagesUrl s) (isEnabled s) b
        (isCheckingStatus s) (toasts s)
  | SetIsCheckingStatus b =>
      mkState (username s) (activeView s) (currentStep s) (selectedRepo s)
        (selectedBranch s) (selectedPath s) (pagesUrl s) (isEnabled s) (isLoading s) b
        (toasts s)
  | ShowToast t =>
      mkState (username s) (activeView s) (currentStep s) (selectedRepo s)
        (selectedBranch s) (selectedPath s) (pagesUrl s) (isEnabled s) (isLoading s)
        (isCheckingStatus s) (toasts s ++ [t])
  | Invoke _ _ => s
  end.

Definition run (effects : list Effect) (s : State) : State := foldl apply s effects.

(** [!s] for a string. *)
Definition empty (s : string) : bool := String.eqb s EmptyString.

(** [setCurrentStep(prev => Math.min(prev + 1, steps.length - 1))] *)
Definition forward : Effect :=
  SetCurrentStep (λ prev, Z.min (prev + 1) (Z.of_nat (length steps) - 1)).

(** [handleNext], in the render that shows the state [s]. *)
Definition handleNext (s : State) : list Effect :=
  if currentStep s =? 0 then
    if empty (selectedRepo s) then
      [ShowToast {| variant := Some "destructive";
                    title := "Repository Required";
                    description := "Please select a repository to continue." |}]
    else [forward]
  else if currentStep s =? 1 then
    if empty (selectedBranch s) then
      [ShowToast {| variant := Some "destructive";
                    title := "Branch Required";
                    description := "Please select a branch to deploy from." |}]
    else [forward]
  else [forward].

Definition handleBack : list Effect :=
  [SetCurrentStep (λ prev, Z.max (prev - 1) 0)].

Definition handleConfigureRepo (repoName : string) : list Effect :=
  [SetSelectedRepo repoName; SetActiveView Deploy; SetCurrentStep (λ _, 0)].

(** [{ enabled: boolean; url?: string; status?: string }] *)
Record PagesStatus := mkPagesStatus {
  enabled : bool;
  status_url : option string;
}.

(** A template literal prints a value that is not there as
    [undefined]. *)
Definition interpolate (v : option string) : string := default "undefined" v.

(** [checkPagesStatus], started in the render that shows [s], given
    what the awaited call does. *)
Definition checkPagesStatus (s : State) (outcome : Outcome PagesStatus) : list Effect :=
  match (if empty (selectedRepo s) then None else Some (selectedRepo s)),
        (if truthy (username s) then username s else None) with
  | Some repo, Some owner =>
      [SetIsCheckingStatus true;
       Invoke "get-pages-info" {| owner := owner; repo := repo; branch := None; path := None |}]
      ++ match outcome with
         | Rejects _ => [SetIsEnabled false]
         | Resolves _ (Some _) => [SetIsEnabled false]
         | Resolves data None =>
             match data with
             | Some {| enabled := true; status_url := url |} =>
                 [SetIsEnabled true;
                  SetPagesUrl (Some (or_default url EmptyString));
                  ShowToast
                    {| variant := None;
                       title := "GitHub Pages Already Enabled";
                       description :=
                         "This repository already has GitHub Pages enabled at: "
                         +:+ interpolate url |}]
             | _ => [SetIsEnabled false; SetPagesUrl (Some EmptyString)]
             end
         end
      ++ [SetIsCheckingStatus false]
  | _, _ => []
  end.

(** [{ success: boolean; url: string; message: string }], each of which
    the answer may lack. *)
Record Enabling := mkEnabling {
  success : bool;
  enabling_url : option string;
  enabling_message : option string;
}.

Definition failed_to_enable (error : option ErrorValue) : Effect :=
  ShowToast {| variant := Some "destructive";
               title := "Failed to Enable GitHub Pages";
               description :=
                 or_default (error ≫= message)
                   "An error occurred while enabling GitHub Pages." |}.

(** [handleEnablePages], started in the render that shows [s]. *)
Definition handleEnablePages (s : State) (outcome : Outcome Enabling) : list Effect :=
  match (if empty (selectedRepo s) then None else Some (selectedRepo s)),
        (if empty (selectedBranch s) then None else Some (selectedBranch s)),
        (if truthy (username s) then username s else None) with
  | Some repo, Some branch, Some owner =>
      [SetIsLoading true;
       Invoke "enable-github-pages"
         {| owner := owner; repo := repo; branch := Some branch;
            path := Some (selectedPath s) |}]
      ++ match outcome with
         | Rejects reason => [failed_to_enable reason]
         | Resolves _ (Some error) => [failed_to_enable (Some error)]
         | Resolves data None =>
             match data with
             | Some {| success := true; enabling_url := url; enabling_message := msg |} =>
                 [SetPagesUrl url;
                  SetIsEnabled true;
                  ShowToast
                    {| variant := None;
                       title := "GitHub Pages Enabled!";
                       description :=
                         or_default msg "Your site will be published shortly." |}]
             | _ => []
             end
         end
      ++ [SetIsLoading false]
  | _, _, _ =>
      [ShowToast {| variant := Some "destructive";
                    title := "Missing Information";
                    description := "Please ensure repository and branch are selected." |}]
  end.

(** What can happen on the page: a click on Next or Back, a click on
    Configure in the dashboard, a selection, the profile arriving, and
    the two calls with whatever they come back with. *)
Inductive Event :=
| Next
| Back
| ConfigureRepo (repoName : string)
| Select (e : Effect)
| CheckPagesStatus (outcome : Outcome PagesStatus)
| EnablePages (outcome : Outcome Enabling).

(** The setters that the selectors and the profile lookup call. *)
Definition selection (e : Effect) : bool :=
  match e with
  | SetUsername _ | SetActiveView _ | SetSelectedRepo _ | SetSelectedBranch _
  | SetSelectedPath _ => true
  | _ => false
  end.

Definition effects_of (s : State) (ev : Event) : list Effect :=
  match ev with
  | Next => handleNext s
  | Back => handleBack
  | ConfigureRepo repoName => handleConfigureRepo repoName
  | Select e => if selection e then [e] else []
  | CheckPagesStatus outcome => checkPagesStatus s outcome
  | EnablePages outcome => handleEnablePages s outcome
  end.

Definition react (s : State) (ev : Event) : State := run (effects_of s ev) s.

(** The invocations among the calls of a handler. *)
Definition invocations (effects : list Effect) : list (string * Payload) :=
  omap (λ e, match e with Invoke f body => Some (f, body) | _ => None end) effects.

(** The toasts among the calls of a handler. *)
Definition shown (effects : list Effect) : list Toast :=
  omap (λ e, match e with ShowToast t => Some t | _ => None end) effects.

End GitHubPages.

(** * Properties of the rate limiter *)

Module RateLimiterFacts.
Import RateLimiter.

Section Window.
Variable config : RateLimitConfig.
Variable userId : string.

Implicit Types (requestCounts : gmap string UserData) (now : Z).

Lemma checkRateLimit_live requestCounts now d :
  requestCounts !! userId = Some d →
  now < resetAt d →
  checkRateLimit now userId config requestCounts =
    (outcome config (count d + 1) (resetAt d),
     <[userId := {| count := count d + 1; resetAt := resetAt d |}]> requestCounts).
Proof.
  intros Hd Hlt. unfold checkRateLimit. rewrite Hd.
  rewrite (bool_decide_eq_false_2 (now >= resetAt d)) by lia. reflexivity.
Qed.

Lemma checkRateLimit_expired requestCounts now d :
  requestCounts !! userId = Some d →
  resetAt d <= now →
  checkRateLimit now userId config requestCounts =
    (outcome config 1 (now + windowMs config),
     <[userId := {| count := 1; resetAt := now + windowMs config |}]> requestCounts).
Proof.
  intros Hd Hle. unfold checkRateLimit. rewrite Hd.
  rewrite (bool_decide_eq_true_2 (now >= resetAt d)) by lia. reflexivity.
Qed.

Lemma checkRateLimit_first requestCounts now :
  requestCounts !! userId = None →
  checkRateLimit now userId config requestCounts =
    (outcome config 1 (now + windowMs config),
     <[userId := {| count := 1; resetAt := now + windowMs config |}]> requestCounts).
Proof. intros Hd. unfold checkRateLimit. rewrite Hd. reflexivity. Qed.

(** Every call leaves a window for the caller, one above the count it
    found, and reports that window's end. *)
Lemma checkRateLimit_count requestCounts now :
  (checkRateLimit now userId config requestCounts).2 !! userId =
    Some {| count := live_count now userId requestCounts + 1;
            resetAt := result_resetAt (checkRateLimit now userId config requestCounts).1 |}.
Proof.
  unfold live_count.
  destruct (requestCounts !! userId) as [d|] eqn:Hd.
  - destruct (decide (now < resetAt d)) as [Hlt|Hge].
    + rewrite (checkRateLimit_live _ _ _ Hd Hlt). simpl.
      rewrite lookup_insert_eq, bool_decide_eq_false_2 by lia. reflexivity.
    + rewrite (checkRateLimit_expired _ _ _ Hd) by lia. simpl.
      rewrite lookup_insert_eq, bool_decide_eq_true_2 by lia. reflexivity.
  - rewrite (checkRateLimit_first _ _ Hd). simpl.
    rewrite lookup_insert_eq. reflexivity.
Qed.

(** The result is a function of the count left behind. *)
Lemma checkRateLimit_result requestCounts now :
  (checkRateLimit now userId config requestCounts).1 =
    outcome config (live_count now userId requestCounts + 1)
      (result_resetAt (checkRateLimit now userId config requestCounts).1).
Proof.
  unfold live_count.
  destruct (requestCounts !! userId) as [d|] eqn:Hd.
  - destruct (decide (now < resetAt d)) as [Hlt|Hge].
    + rewrite (checkRateLimit_live _ _ _ Hd Hlt). simpl.
      rewrite bool_decide_eq_false_2 by lia. reflexivity.
    + rewrite (checkRateLimit_expired _ _ _ Hd) by lia. simpl.
      rewrite bool_decide_eq_true_2 by lia. reflexivity.
  - rewrite (checkRateLimit_first _ _ Hd). reflexivity.
Qed.

(** A call touches no window but the caller's. *)
Lemma checkRateLimit_frame requestCounts now other :
  other ≠ userId →
  (checkRateLimit now userId config requestCounts).2 !! other = requestCounts !! other.
Proof.
  intros Hne. unfold checkRateLimit. simpl.
  rewrite lookup_insert_ne by congruence. reflexivity.
Qed.

(** [n] further calls inside a live window raise its count by [n]; each
    reports the count it left. *)
Lemma checkRateLimit_calls_live times : ∀ requestCounts d,
  requestCounts !! userId = Some d →
  Forall (λ t, t < resetAt d) times →
  ∃ counts,
    checkRateLimit_calls userId config times requestCounts =
      (imap (λ i _, outcome config (count d + 1 + Z.of_nat i) (resetAt d)) times, counts)
    ∧ counts !! userId =
        Some {| count := count d + Z.of_nat (length times); resetAt := resetAt d |}.
Proof.
  induction times as [|t times IH]; intros requestCounts d Hd Hall.
  - exists requestCounts. split; [reflexivity|].
    rewrite Hd. destruct d; simpl. do 2 f_equal. lia.
  - apply Forall_cons in Hall as [Ht Hall]. cbn [checkRateLimit_calls].
    rewrite (checkRateLimit_live _ _ _ Hd Ht).
    edestruct (IH (<[userId := {| count := count d + 1; resetAt := resetAt d |}]> requestCounts))
      as (counts & Hrun & Hcounts); [apply lookup_insert_eq | exact Hall |].
    simpl in Hrun, Hcounts. rewrite Hrun. exists counts. split.
    + cbn [imap]. rewrite Z.add_0_r. do 2 f_equal.
      apply imap_ext. intros i x _. simpl. f_equal. lia.
    + rewrite Hcounts. do 2 f_equal. rewrite length_cons. lia.
Qed.

Lemma live_count_nonneg requestCounts now :
  valid requestCounts → 0 <= live_count now userId requestCounts.
Proof.
  intros Hv. unfold live_count.
  destruct (requestCounts !! userId) as [d|] eqn:Hd; [|lia].
  specialize (Hv _ _ Hd). simpl in Hv. case_bool_decide; lia.
Qed.

Lemma checkRateLimit_valid requestCounts now :
  valid requestCounts → valid (checkRateLimit now userId config requestCounts).2.
Proof.
  intros Hv k d Hk. destruct (decide (k = userId)) as [->|Hne].
  - rewrite checkRateLimit_count in Hk. injection Hk as <-. simpl.
    pose proof (live_count_nonneg requestCounts now Hv). lia.
  - rewrite checkRateLimit_frame in Hk by done. exact (Hv _ _ Hk).
Qed.

(** A sweep before the end of a window keeps it. *)
Lemma cleanup_keeps requestCounts now d :
  requestCounts !! userId = Some d →
  now < resetAt d →
  cleanupRateLimitStore now requestCounts !! userId = Some d.
Proof.
  intros Hd Hlt. unfold cleanupRateLimitStore.
  apply map_lookup_filter_Some. split; [exact Hd|]. simpl. lia.
Qed.

(** Once used up, a window stays used up under every operation that
    comes before its end: each call for [userId] is rejected with
    nothing remaining and adds one to the count. *)
Lemma run_ops_exhausted R ops : ∀ requestCounts c,
  exhausted config userId R requestCounts c →
  Forall (before_reset userId R) ops →
  Forall (λ ur, ur.1 = userId →
            allowed ur.2 = false ∧ remaining ur.2 = 0 ∧ result_resetAt ur.2 = R)
    (run_ops config ops requestCounts).1
  ∧ exhausted config userId R (run_ops config ops requestCounts).2
      (c + Z.of_nat (length (calls_for userId ops))).
Proof.
  induction ops as [|o ops IH]; intros requestCounts c [Hc Hgt] Hall.
  - simpl. split; [constructor|]. split; [|lia]. rewrite Hc. do 2 f_equal. lia.
  - apply Forall_cons in Hall as [Ho Hall]. destruct o as [u now|now].
    + cbn [run_ops].
      destruct (checkRateLimit now u config requestCounts) as [r counts] eqn:Hcall.
      destruct (run_ops config ops counts) as [rs counts'] eqn:Hrun.
      destruct (decide (u = userId)) as [->|Hne].
      * simpl in Ho. specialize (Ho eq_refl).
        rewrite (checkRateLimit_live _ _ _ Hc Ho) in Hcall. simpl in Hcall.
        injection Hcall as <- <-.
        destruct (IH (<[userId:={| count := c + 1; resetAt := R |}]> requestCounts) (c + 1))
          as [Hrs Hex]; [split; [apply lookup_insert_eq|lia] | exact Hall |].
        rewrite Hrun in Hrs, Hex. simpl in Hrs, Hex. split.
        -- constructor; [|exact Hrs]. intros _. simpl. split_and!.
           ++ apply bool_decide_eq_false_2. lia.
           ++ lia.
           ++ reflexivity.
        -- unfold calls_for. rewrite filter_cons_True by (simpl; by rewrite bool_decide_eq_true_2).
           rewrite length_cons. fold (calls_for userId ops).
           replace (c + Z.of_nat (S (length (calls_for userId ops))))
             with (c + 1 + Z.of_nat (length (calls_for userId ops))) by lia.
           exact Hex.
      * assert (counts !! userId = requestCounts !! userId) as Hframe.
        { change counts with (r, counts).2. rewrite <- Hcall.
          unfold checkRateLimit. simpl. apply lookup_insert_ne. congruence. }
        destruct (IH counts c) as [Hrs Hex]; [split; [congruence|lia] | exact Hall |].
        rewrite Hrun in Hrs, Hex. simpl in Hrs, Hex. split.
        -- constructor; [|exact Hrs]. simpl. intros ?. congruence.
        -- unfold calls_for. rewrite filter_cons_False by (simpl; by rewrite bool_decide_eq_false_2). exact Hex.
    + cbn [run_ops]. simpl in Ho.
      destruct (IH (cleanupRateLimitStore now requestCounts) c) as [Hrs Hex];
        [split; [apply cleanup_keeps; [exact Hc|exact Ho]|lia] | exact Hall |].
      split; [exact Hrs|].
      unfold calls_for. rewrite filter_cons_False by (simpl; congruence). exact Hex.
Qed.

End Window.

(** The empty store is valid, and so is every store the limiter and
    the sweep build from a valid one. *)
Lemma valid_empty : valid ∅.
Proof. apply map_Forall_empty. Qed.

Lemma cleanup_valid now requestCounts :
  valid requestCounts → valid (cleanupRateLimitStore now requestCounts).
Proof.
  intros Hv k d Hk. unfold cleanupRateLimitStore in Hk.
  apply map_lookup_filter_Some in Hk as [Hk _]. exact (Hv _ _ Hk).
Qed.

Lemma run_ops_valid config ops : ∀ requestCounts,
  valid requestCounts → valid (run_ops config ops requestCounts).2.
Proof.
  induction ops as [|[u now|now] ops IH]; intros requestCounts Hv; [exact Hv| |].
  - cbn [run_ops].
    pose proof (checkRateLimit_valid config u requestCounts now Hv) as Hv'.
    destruct (checkRateLimit now u config requestCounts) as [r counts].
    specialize (IH counts Hv').
    destruct (run_ops config ops counts) as [rs counts']. exact IH.
  - cbn [run_ops]. apply IH, cleanup_valid, Hv.
Qed.

(** C3. With the default configuration (100 requests per 60000 ms), for
    every identity and every store the limiter can have built: when 101
    calls fall inside one window (the 100 calls after the first come
    before the end of the window the first call reports), call 101
    returns allowed = false and remaining = 0; and the first call at or
    after that window's end opens a fresh window whose count is 1, so
    it returns allowed = true and remaining = 99. *)
Theorem rate_limit_window_exhausts_then_renews
    (userId : string) (requestCounts : gmap string UserData) (t0 : Z) (ts : list Z) :
  valid requestCounts →
  length ts = 100%nat →
  Forall (λ t, t < result_resetAt (checkRateLimit t0 userId DEFAULT_RATE_LIMIT requestCounts).1) ts →
  ∃ rs r counts,
    checkRateLimit_calls userId DEFAULT_RATE_LIMIT (t0 :: ts) requestCounts = (rs, counts)
    ∧ length rs = 101%nat
    ∧ last rs = Some r
    ∧ allowed r = false
    ∧ remaining r = 0
    ∧ ∀ now, result_resetAt r <= now →
        (checkRateLimit now userId DEFAULT_RATE_LIMIT counts).1 =
          {| allowed := true; remaining := 99; result_resetAt := now + 60000 |}
        ∧ (checkRateLimit now userId DEFAULT_RATE_LIMIT counts).2 !! userId =
            Some {| count := 1; resetAt := now + 60000 |}.
Proof.
  intros Hv Hlen Hall.
  pose proof (checkRateLimit_count DEFAULT_RATE_LIMIT userId requestCounts t0) as Hc.
  pose proof (live_count_nonneg userId requestCounts t0 Hv) as Hnn.
  cbn [checkRateLimit_calls].
  destruct (checkRateLimit t0 userId DEFAULT_RATE_LIMIT requestCounts) as [r0 s1] eqn:Hfirst.
  simpl in Hc, Hall.
  set (c0 := live_count t0 userId requestCounts) in *.
  destruct (checkRateLimit_calls_live DEFAULT_RATE_LIMIT userId ts s1 _ Hc Hall)
    as (counts & Hrun & Hcounts).
  simpl in Hrun, Hcounts. rewrite Hrun, Hlen in *.
  eexists _, (outcome DEFAULT_RATE_LIMIT (c0 + 1 + 1 + 99) (result_resetAt r0)), counts.
  split; [reflexivity|]. split; [simpl; rewrite length_imap; lia|].
  split.
  { rewrite last_lookup. cbn [length Nat.pred]. rewrite length_imap, Hlen.
    change (?x :: ?l) with ([x] ++ l). rewrite lookup_app_r by (simpl; lia).
    simpl. rewrite list_lookup_imap.
    destruct (lookup_lt_is_Some_2 ts 99) as [t Ht]; [lia|].
    rewrite Ht. reflexivity. }
  split; [apply bool_decide_eq_false_2; simpl; lia|].
  split; [simpl; lia|].
  intros now Hnow. simpl in Hnow.
  rewrite (checkRateLimit_expired DEFAULT_RATE_LIMIT userId counts now _ Hcounts) by (simpl; lia).
  split; [reflexivity|]. simpl. apply lookup_insert_eq.
Qed.

Lemma rate_limit_window_exhausts_then_renews_witness :
  valid (∅ : gmap string UserData)
  ∧ length (replicate 100 (5 : Z)) = 100%nat
  ∧ Forall (λ t, t < result_resetAt (checkRateLimit 0 "alice" DEFAULT_RATE_LIMIT ∅).1)
      (replicate 100 (5 : Z))
  ∧ ∃ rs r counts,
      checkRateLimit_calls "alice" DEFAULT_RATE_LIMIT (0 :: replicate 100 5) ∅ = (rs, counts)
      ∧ length rs = 101%nat
      ∧ last rs = Some r
      ∧ allowed r = false
      ∧ remaining r = 0
      ∧ ∀ now, result_resetAt r <= now →
          (checkRateLimit now "alice" DEFAULT_RATE_LIMIT counts).1 =
            {| allowed := true; remaining := 99; result_resetAt := now + 60000 |}
          ∧ (checkRateLimit now "alice" DEFAULT_RATE_LIMIT counts).2 !! "alice" =
              Some {| count := 1; resetAt := now + 60000 |}.
Proof.
  assert (valid (∅ : gmap string UserData)) as Hv by apply valid_empty.
  assert (length (replicate 100 (5 : Z)) = 100%nat) as Hlen by reflexivity.
  assert (Forall (λ t, t < result_resetAt (checkRateLimit 0 "alice" DEFAULT_RATE_LIMIT ∅).1)
            (replicate 100 (5 : Z))) as Hall.
  { apply Forall_replicate. vm_compute. reflexivity. }
  split; [exact Hv|]. split; [exact Hlen|]. split; [exact Hall|].
  exact (rate_limit_window_exhausts_then_renews "alice" ∅ 0 (replicate 100 5) Hv Hlen Hall).
Defined.

(** C8. Every call adds one to the caller's window count, whether it
    is admitted or rejected: the window it leaves holds one more than
    the count it found.  Hence, once a call has returned allowed =
    false, every later call for that identity before the window's end
    (with any calls of other identities and any sweeps in between)
    returns allowed = false, remaining = 0 and the same resetAt, and
    each of those rejected calls again adds one to the count. *)
Theorem rejected_calls_consume_budget
    (config : RateLimitConfig) (userId : string)
    (requestCounts : gmap string UserData) (now : Z) (ops : list op) :
  let r := (checkRateLimit now userId config requestCounts).1 in
  let counts := (checkRateLimit now userId config requestCounts).2 in
  counts !! userId =
    Some {| count := live_count now userId requestCounts + 1; resetAt := result_resetAt r |}
  ∧ (allowed r = false →
     Forall (before_reset userId (result_resetAt r)) ops →
     Forall (λ ur, ur.1 = userId →
               allowed ur.2 = false ∧ remaining ur.2 = 0
               ∧ result_resetAt ur.2 = result_resetAt r)
       (run_ops config ops counts).1
     ∧ (run_ops config ops counts).2 !! userId =
         Some {| count := live_count now userId requestCounts + 1
                          + Z.of_nat (length (calls_for userId ops));
                 resetAt := result_resetAt r |}).
Proof.
  intros r counts. subst r counts.
  pose proof (checkRateLimit_count config userId requestCounts now) as Hc.
  split; [exact Hc|]. intros Hrej Hall.
  rewrite checkRateLimit_result in Hrej. simpl in Hrej.
  apply bool_decide_eq_false_1 in Hrej.
  assert (exhausted config userId
            (result_resetAt (checkRateLimit now userId config requestCounts).1)
            (checkRateLimit now userId config requestCounts).2
            (live_count now userId requestCounts + 1)) as Hex0
    by (split; [exact Hc | lia]).
  destruct (run_ops_exhausted config userId _ ops _ _ Hex0 Hall) as [Hrs [Hex _]].
  split; [exact Hrs | exact Hex].
Qed.

Lemma rejected_calls_consume_budget_witness :
  let config := {| maxRequests := 2; windowMs := 1000 |} in
  let requestCounts : gmap string UserData :=
    {[ "alice" := {| count := 2; resetAt := 1500 |} ]} in
  let ops := [Check "alice" 1100; Check "bob" 2000; Cleanup 1200; Check "alice" 1499] in
  let r := (checkRateLimit 1000 "alice" config requestCounts).1 in
  let counts := (checkRateLimit 1000 "alice" config requestCounts).2 in
  allowed r = false
  ∧ Forall (before_reset "alice" (result_resetAt r)) ops
  ∧ counts !! "alice" = Some {| count := 3; resetAt := 1500 |}
  ∧ (run_ops config ops counts).1 =
      [("alice", {| allowed := false; remaining := 0; result_resetAt := 1500 |});
       ("bob", {| allowed := true; remaining := 1; result_resetAt := 3000 |});
       ("alice", {| allowed := false; remaining := 0; result_resetAt := 1500 |})]
  ∧ (run_ops config ops counts).2 !! "alice" = Some {| count := 5; resetAt := 1500 |}
  ∧ Forall (λ ur, ur.1 = "alice" →
              allowed ur.2 = false ∧ remaining ur.2 = 0
              ∧ result_resetAt ur.2 = result_resetAt r)
      (run_ops config ops counts).1.
Proof.
  intros config requestCounts ops r counts.
  assert (allowed r = false) as Hrej by (vm_compute; reflexivity).
  assert (Forall (before_reset "alice" (result_resetAt r)) ops) as Hall.
  { repeat constructor; simpl; intros; first [discriminate | vm_compute; reflexivity]. }
  split; [exact Hrej|]. split; [exact Hall|].
  split; [vm_compute; reflexivity|]. split; [vm_compute; reflexivity|].
  split; [vm_compute; reflexivity|].
  exact (proj1 (proj2 (rejected_calls_consume_budget config "alice" requestCounts 1000 ops)
                 Hrej Hall)).
Defined.

End RateLimiterFacts.

(** * How the handlers run *)

Module EdgeFacts.
Import Js RateLimiter Shared Edge Fleet.

Lemma bind_run {W A B} (m : M W A) (f : A → M W B) (w : W) :
  (m ≫= f) w =
    match m w with
    | (Normal a, w') => f a w'
    | (Throw e, w') => (Throw e, w')
    end.
Proof. reflexivity. Qed.

Section Frame.
Context {X : Type} (f : World → X).

Lemma keeps_mret {A} (a : A) : keeps f (mret a).
Proof. intros w. reflexivity. Qed.

Lemma keeps_throw {A} (e : JsError) : keeps f (throw e : M World A).
Proof. intros w. reflexivity. Qed.

Lemma keeps_await {A} (r : JsError + A) : keeps f (await r).
Proof. destruct r; [apply keeps_throw | apply keeps_mret]. Qed.

Lemma keeps_bind {A B} (m : M World A) (k : A → M World B) :
  keeps f m → (∀ a, keeps f (k a)) → keeps f (m ≫= k).
Proof.
  intros Hm Hk w. rewrite bind_run. specialize (Hm w).
  destruct (m w) as [[a|e] w']; simpl in Hm |- *; [rewrite Hk|]; exact Hm.
Qed.

Lemma keeps_try_catch {A} (m : M World A) (h : JsError → M World A) :
  keeps f m → (∀ e, keeps f (h e)) → keeps f (try_catch m h).
Proof.
  intros Hm Hh w. unfold try_catch. specialize (Hm w).
  destruct (m w) as [[a|e] w']; simpl in Hm |- *; [|rewrite Hh]; exact Hm.
Qed.

Lemma try_catch_handled {A} (m : M World A) (h : JsError → M World A) (w : World) :
  (∀ e, keeps f (h e)) → f (try_catch m h w).2 = f (m w).2.
Proof.
  intros Hh. unfold try_catch.
  destruct (m w) as [[a|e] w']; simpl; [reflexivity | apply Hh].
Qed.

Lemma keeps_for_of {A S} (xs : list A) (body : A → S → M World S) :
  (∀ x acc, keeps f (body x acc)) → ∀ acc, keeps f (for_of xs body acc).
Proof.
  intros Hbody. induction xs as [|x xs IH]; intros acc.
  - apply keeps_mret.
  - cbn [for_of]. apply keeps_bind; [apply Hbody | exact IH].
Qed.

End Frame.

Lemma keeps_if {X A} (f : World → X) (c : bool) (m1 m2 : M World A) :
  keeps f m1 → keeps f m2 → keeps f (if c then m1 else m2).
Proof. destruct c; auto. Qed.

Create HintDb keeps discriminated.
#[export] Hint Resolve keeps_mret keeps_throw keeps_await keeps_bind keeps_if
  keeps_try_catch keeps_for_of : keeps.

Lemma fetch_run (env : Env) (r : Upstream.Request) (w : World) :
  fetch env r w =
    (match fetch_result env (length (upstream_calls w)) r with
     | inl e => Throw e
     | inr resp => Normal resp
     end, sent r w).
Proof. unfold fetch. destruct (fetch_result _ _ _); reflexivity. Qed.

Lemma summary_shift env first username token i repo :
  summary env first username token (S i) repo = summary env (S first) username token i repo.
Proof. unfold summary, probe. rewrite Nat.add_succ_r. reflexivity. Qed.

Lemma summaries_cons env first username token repo repos :
  summaries env first username token (repo :: repos) =
    option_list (summary env first username token 0 repo)
      ++ summaries env (S first) username token repos.
Proof.
  unfold summaries. rewrite imap_cons.
  rewrite (imap_ext _ (summary env (S first) username token) repos)
    by (intros; apply summary_shift).
  simpl. destruct (summary env first username token 0 repo); reflexivity.
Qed.

(** One iteration never throws: it sends the probe and appends the
    summary the probe yields, if any. *)
Lemma check_pages_run env username token repo acc (w : World) :
  check_pages env username token repo acc w =
    (Normal (acc ++ option_list
                      (summary env (length (upstream_calls w)) username token 0 repo)),
     sent (probe_request username token repo) w).
Proof.
  unfold check_pages, try_catch, summary, probe, classify. rewrite bind_run, fetch_run.
  rewrite Nat.add_0_r. fold (probe_request username token repo).
  destruct (fetch_result env (length (upstream_calls w)) (probe_request username token repo))
    as [e|resp]; simpl.
  - rewrite app_nil_r. reflexivity.
  - destruct (bool_decide (Upstream.resp_status resp = 404)); simpl.
    { rewrite app_nil_r. reflexivity. }
    destruct (Upstream.ok resp); simpl.
    + rewrite bind_run. destruct (Upstream.json resp) as [e|j]; simpl.
      * rewrite app_nil_r. reflexivity.
      * reflexivity.
    + rewrite app_nil_r. reflexivity.
Qed.

(** The loop probes every listed repository once, in listing order, and
    collects the summaries in that order. *)
Lemma scan_run env username token repos : ∀ acc (w : World),
  for_of repos (check_pages env username token) acc w =
    (Normal (acc ++ summaries env (length (upstream_calls w)) username token repos),
     {| requestCounts := requestCounts w;
        upstream_calls := upstream_calls w ++ (probe_request username token <$> repos) |}).
Proof.
  induction repos as [|repo repos IH]; intros acc w.
  - simpl. unfold summaries. simpl. rewrite !app_nil_r. destruct w; reflexivity.
  - cbn [for_of]. rewrite bind_run, check_pages_run, IH. unfold sent.
    cbn [upstream_calls requestCounts].
    rewrite summaries_cons, length_app, Nat.add_1_r, <- !app_assoc. reflexivity.
Qed.

Section Handlers.
Context `{Imports}.

Lemma respond_sendable (b : Http.Body) (st : Z) (hdrs : gmap string string) (w : World) :
  sendable st →
  respond b (Some st) hdrs w =
    (Normal {| Http.status := st; Http.headers := hdrs; Http.body := Some b |}, w).
Proof.
  intros [Hrange Hnull]. unfold respond, Http.new_Response. simpl.
  rewrite (bool_decide_eq_true_2 _ Hrange). simpl.
  rewrite (bool_decide_eq_false_2 _ Hnull). reflexivity.
Qed.

Lemma respond_default (b : Http.Body) (hdrs : gmap string string) (w : World) :
  respond b None hdrs w =
    (Normal {| Http.status := 200; Http.headers := hdrs; Http.body := Some b |}, w).
Proof.
  unfold respond, Http.new_Response. reflexivity.
Qed.

Lemma keeps_respond {X} (f : World → X) (b : Http.Body) (st : option Z)
    (hdrs : gmap string string) :
  keeps f (respond b st hdrs).
Proof. apply keeps_await. Qed.

(** An admitted invocation reaches the handler's own steps with the
    account name, after the limiter counted it once. *)
Lemma authenticated_admitted env req (w : World) user username
    (k : string → M World Http.Response) :
  admitted env req w user username →
  authenticated env req k w = k username (counted env (User.id user) w).
Proof.
  intros (_ & Huser & Hallowed & profile & Hprofile & Hname).
  unfold authenticated. rewrite bind_run, Huser. simpl.
  rewrite bind_run. unfold checkRateLimit_default, counted.
  destruct (checkRateLimit (now env) (User.id user) DEFAULT_RATE_LIMIT (requestCounts w))
    as [r counts]. simpl in Hallowed |- *. rewrite Hallowed. simpl.
  rewrite bind_run, Hprofile. simpl. rewrite Hname. reflexivity.
Qed.

(** Runs a handler on a non-OPTIONS request up to the shared steps:
    [Hmethod], [Hjson] and [Hvalid] say that the method is not OPTIONS,
    that the body parses and that it passes the schema. *)
Tactic Notation "enter" reference(handler) reference(handler_body)
    hyp(Hmethod) hyp(Hjson) hyp(Hvalid) :=
  unfold handler; rewrite Hmethod; unfold serve, handler_body;
  unfold try_catch at 1; rewrite bind_run, Hjson; cbn [await mret M_ret];
  rewrite Hvalid; cbn zeta.

(** The outer [catch] turns every exception into a response: a handler
    never rejects. *)
Lemma serve_responds (body : M World Http.Response) (w : World) :
  ∃ resp w', serve body w = (Normal resp, w').
Proof.
  unfold serve, try_catch. destruct (body w) as [[resp|e] w']; [eauto|].
  unfold internal_error. rewrite respond_sendable by (by apply (bool_decide_unpack _)).
  eauto.
Qed.

Lemma handlers_respond env req (w : World) :
  (∃ resp w', list_pages_sites env req w = (Normal resp, w'))
  ∧ (∃ resp w', get_pages_info env req w = (Normal resp, w'))
  ∧ (∃ resp w', enable_github_pages env req w = (Normal resp, w')).
Proof.
  unfold list_pages_sites, get_pages_info, enable_github_pages.
  destruct (String.eqb (Http.method req) "OPTIONS");
    split_and!; eauto using serve_responds.
Qed.

(** A scan that gets as far as a successful listing answers 200 with
    the summaries of the listing, having sent the listing call and then
    one probe per listed repository. *)
Lemma list_pages_sites_scan env req (w : World) body data user username repos :
  Http.json req = inr body →
  listPagesSitesSchema body = inr data →
  admitted env req w user username →
  listed env w (ListPagesSitesInput.provider_token data) repos →
  list_pages_sites env req w =
    (Normal {| Http.status := 200;
               Http.headers := json_headers;
               Http.body :=
                 Some (Http.SitesBody
                         (summaries env (S (length (upstream_calls w))) username
                            (ListPagesSitesInput.provider_token data) repos)) |},
     {| requestCounts :=
          (checkRateLimit (now env) (User.id user) DEFAULT_RATE_LIMIT (requestCounts w)).2;
        upstream_calls :=
          upstream_calls w
            ++ listing_request (ListPagesSitesInput.provider_token data)
               :: (probe_request username (ListPagesSitesInput.provider_token data) <$> repos) |}).
Proof.
  intros Hjson Hvalid Hadm (resp & Hfetch & Hok & Hrepos).
  pose proof Hadm as (Hmethod & _).
  enter list_pages_sites list_pages_sites_body Hmethod Hjson Hvalid.
  rewrite (authenticated_admitted _ _ _ _ _ _ Hadm).
  rewrite bind_run, fetch_run. unfold counted at 1 2. cbn [upstream_calls].
  fold (listing_request (ListPagesSitesInput.provider_token data)).
  rewrite Hfetch, Hok. simpl.
  rewrite bind_run, Hrepos. simpl. rewrite bind_run. simpl.
  rewrite bind_run, scan_run. unfold sent, counted. cbn [upstream_calls requestCounts].
  rewrite respond_default, length_app, Nat.add_1_r, <- app_assoc. reflexivity.
Qed.

(** The failure path of the listing: what is left to run is the error
    response, under the outer [catch]. *)
Lemma list_pages_sites_listing_failed env req (w : World) body data user username resp :
  Http.json req = inr body →
  listPagesSitesSchema body = inr data →
  admitted env req w user username →
  fetch_result env (length (upstream_calls w))
    (listing_request (ListPagesSitesInput.provider_token data)) = inr resp →
  Upstream.ok resp = false →
  list_pages_sites env req w =
    try_catch (upstream_error resp) internal_error
      (sent (listing_request (ListPagesSitesInput.provider_token data))
         (counted env (User.id user) w)).
Proof.
  intros Hjson Hvalid Hadm Hfetch Hok.
  pose proof Hadm as (Hmethod & _).
  enter list_pages_sites list_pages_sites_body Hmethod Hjson Hvalid.
  rewrite (authenticated_admitted _ _ _ _ _ _ Hadm).
  rewrite bind_run, fetch_run. unfold counted at 1 2. cbn [upstream_calls].
  fold (listing_request (ListPagesSitesInput.provider_token data)).
  rewrite Hfetch, Hok. reflexivity.
Qed.

(** The error response, and the outer [catch] around it, change
    nothing. *)
Lemma upstream_error_world resp : keeps (λ w, w) (try_catch (upstream_error resp) internal_error).
Proof.
  apply keeps_try_catch; [|intros e; apply keeps_respond].
  apply keeps_bind; [apply keeps_await | intros raw; apply keeps_respond].
Qed.

(** C5. When the listing call of a scan is answered with a non-success
    response, the handler sends no probe at all: the listing call is the
    only upstream call of the invocation.  Its response carries the
    sanitized error: the status and the message [sanitizeGitHubError]
    returns for the upstream status and raw body (given that this status
    is one a response with a body can carry). *)
Theorem listing_failure_is_fatal env req (w : World) body data user username resp :
  Http.json req = inr body →
  listPagesSitesSchema body = inr data →
  admitted env req w user username →
  fetch_result env (length (upstream_calls w))
    (listing_request (ListPagesSitesInput.provider_token data)) = inr resp →
  Upstream.ok resp = false →
  upstream_calls (list_pages_sites env req w).2 =
    upstream_calls w ++ [listing_request (ListPagesSitesInput.provider_token data)]
  ∧ ∀ rawError,
      Upstream.text resp = inr rawError →
      let sanitized := sanitizeGitHubError (Upstream.resp_status resp) rawError in
      sendable (status sanitized) →
      (list_pages_sites env req w).1 =
        Normal {| Http.status := status sanitized;
                  Http.headers := json_headers;
                  Http.body := Some (Http.ErrorBody (message sanitized)) |}.
Proof.
  intros Hjson Hvalid Hadm Hfetch Hok.
  rewrite (list_pages_sites_listing_failed _ _ _ _ _ _ _ _ Hjson Hvalid Hadm Hfetch Hok).
  split.
  - rewrite (upstream_error_world resp _). reflexivity.
  - intros rawError Htext sanitized Hs.
    unfold try_catch, upstream_error. rewrite bind_run, Htext. simpl.
    fold sanitized. rewrite (respond_sendable _ _ _ _ Hs). reflexivity.
Qed.

(** C2. A [get-pages-info] request that passes validation, the session
    check, the rate limit and the ownership check, and whose upstream
    Pages call is answered 404, gets HTTP 200 with the body
    [{ enabled: false }]. *)
Theorem pages_not_found_is_disabled env req (w : World) body data user resp :
  Http.json req = inr body →
  getPagesInfoSchema body = inr data →
  admitted env req w user (GetPagesInfoInput.owner data) →
  fetch_result env (length (upstream_calls w))
    (Upstream.GetPages (GetPagesInfoInput.owner data) (GetPagesInfoInput.repo data)
       (GetPagesInfoInput.provider_token data)) = inr resp →
  Upstream.resp_status resp = 404 →
  (get_pages_info env req w).1 =
    Normal {| Http.status := 200;
              Http.headers := json_headers;
              Http.body := Some Http.PagesDisabledBody |}.
Proof.
  intros Hjson Hvalid Hadm Hfetch Hstatus.
  pose proof Hadm as (Hmethod & _).
  enter get_pages_info get_pages_info_body Hmethod Hjson Hvalid.
  rewrite (authenticated_admitted _ _ _ _ _ _ Hadm).
  rewrite String.eqb_refl. simpl.
  rewrite bind_run, fetch_run. unfold counted at 1 2. cbn [upstream_calls].
  rewrite Hfetch. simpl.
  rewrite (bool_decide_eq_true_2 _ Hstatus), respond_default. reflexivity.
Qed.

Lemma keeps_fetch_counts env r : keeps requestCounts (fetch env r).
Proof. intros w. rewrite fetch_run. reflexivity. Qed.

Lemma keeps_check_pages_counts env username token repo acc :
  keeps requestCounts (check_pages env username token repo acc).
Proof. intros w. rewrite check_pages_run. reflexivity. Qed.

Lemma keeps_upstream_error {X} (f : World → X) resp : keeps f (upstream_error resp).
Proof. apply keeps_bind; [apply keeps_await | intros raw; apply keeps_respond]. Qed.

#[local] Hint Resolve keeps_respond keeps_upstream_error keeps_fetch_counts
  keeps_check_pages_counts : keeps.

(** With a session user, the shared steps count the request exactly
    once, whatever follows. *)
Lemma authenticated_counts env req (w : World) user (k : string → M World Http.Response) :
  getUser env (Http.authorization req) = inr (Some user) →
  (∀ username, keeps requestCounts (k username)) →
  requestCounts (authenticated env req k w).2 =
    (checkRateLimit (now env) (User.id user) DEFAULT_RATE_LIMIT (requestCounts w)).2.
Proof.
  intros Huser Hk. unfold authenticated, checkRateLimit_default.
  rewrite bind_run, Huser. cbn [await mret M_ret]. rewrite bind_run.
  destruct (checkRateLimit (now env) (User.id user) DEFAULT_RATE_LIMIT (requestCounts w))
    as [r counts]. cbn [snd].
  destruct (allowed r); cbn [negb].
  - rewrite bind_run.
    destruct (profiles_single env (User.id user)) as [e|profile]; [reflexivity|].
    cbn [await mret M_ret]. destruct (truthy_username profile) as [username|].
    + rewrite Hk. reflexivity.
    + unfold profile_not_found. rewrite keeps_respond. reflexivity.
  - unfold rate_limit_exceeded. rewrite keeps_respond. reflexivity.
Qed.

(** With a session user whose profile resolves, the shared steps end in
    the 429 response when the limiter rejects and go on otherwise; the
    limiter has counted the request either way. *)
Lemma authenticated_resolved env req (w : World) user profile username
    (k : string → M World Http.Response) :
  getUser env (Http.authorization req) = inr (Some user) →
  profiles_single env (User.id user) = inr profile →
  truthy_username profile = Some username →
  authenticated env req k w =
    let r := (checkRateLimit (now env) (User.id user) DEFAULT_RATE_LIMIT (requestCounts w)).1 in
    if allowed r then k username (counted env (User.id user) w)
    else rate_limit_exceeded r (counted env (User.id user) w).
Proof.
  intros Huser Hprofile Hname. unfold authenticated, checkRateLimit_default, counted.
  rewrite bind_run, Huser. cbn [await mret M_ret]. rewrite bind_run.
  destruct (checkRateLimit (now env) (User.id user) DEFAULT_RATE_LIMIT (requestCounts w))
    as [r counts]. cbn [fst snd].
  destruct (allowed r); cbn [negb]; [|reflexivity].
  rewrite bind_run, Hprofile. cbn [await mret M_ret]. rewrite Hname. reflexivity.
Qed.

(** C10. A [list-pages-sites] request with a valid body and a session
    user passes through [checkRateLimit] exactly once, for that user and
    with the default configuration, whatever the listing holds and
    however the probes end: the limiter's map after the request is the
    map that one call leaves.  So the user's window count is one above
    the count the call found, and the window of every other identity is
    as before. *)
Theorem one_scan_one_unit env req (w : World) body data user :
  String.eqb (Http.method req) "OPTIONS" = false →
  Http.json req = inr body →
  listPagesSitesSchema body = inr data →
  getUser env (Http.authorization req) = inr (Some user) →
  let counts := requestCounts (list_pages_sites env req w).2 in
  let once := checkRateLimit (now env) (User.id user) DEFAULT_RATE_LIMIT (requestCounts w) in
  counts = once.2
  ∧ counts !! User.id user =
      Some {| count := live_count (now env) (User.id user) (requestCounts w) + 1;
              resetAt := result_resetAt once.1 |}
  ∧ ∀ other, other ≠ User.id user → counts !! other = requestCounts w !! other.
Proof.
  intros Hmethod Hjson Hvalid Huser counts once.
  assert (counts = once.2) as Hcounts.
  { subst counts once. unfold list_pages_sites. rewrite Hmethod. unfold serve.
    rewrite try_catch_handled by (intros e; apply keeps_respond).
    unfold list_pages_sites_body. rewrite bind_run, Hjson.
    cbn [await mret M_ret]. rewrite Hvalid.
    apply authenticated_counts; [exact Huser|]. intros username.
    auto 10 with keeps. }
  rewrite Hcounts. subst once. split; [reflexivity|]. split.
  - apply RateLimiterFacts.checkRateLimit_count.
  - intros other Hne. apply RateLimiterFacts.checkRateLimit_frame. exact Hne.
Qed.

(** What is left of a handler once the owner check fails. *)
Lemma not_owner_or_limited env req (w : World) user profile username
    (k : string → M World Http.Response) :
  getUser env (Http.authorization req) = inr (Some user) →
  profiles_single env (User.id user) = inr profile →
  truthy_username profile = Some username →
  k username = not_owner →
  turned_away w
    (checkRateLimit (now env) (User.id user) DEFAULT_RATE_LIMIT (requestCounts w)).1
    (try_catch (authenticated env req k) internal_error w).
Proof.
  intros Huser Hprofile Hname Hk. unfold try_catch, turned_away.
  rewrite (authenticated_resolved _ _ _ _ _ _ _ Huser Hprofile Hname), Hk. cbn zeta.
  destruct (allowed (checkRateLimit (now env) (User.id user) DEFAULT_RATE_LIMIT
                       (requestCounts w)).1).
  - unfold not_owner. rewrite respond_sendable by (by apply (bool_decide_unpack _)).
    eexists. split_and!; reflexivity.
  - unfold rate_limit_exceeded. rewrite respond_sendable by (by apply (bool_decide_unpack _)).
    eexists. split_and!; reflexivity.
Qed.

(** C4, as the handlers implement it.  Take a [get-pages-info] or
    [enable-github-pages] request with a valid body and a session user
    whose profile resolves to an account name other than the request's
    [owner].  The handler sends no upstream call, and it answers 403 when
    the rate limiter admits the request; the rate limit is checked before
    the owner, so a request over the limit is answered 429 instead. *)
Theorem owner_mismatch_is_turned_away env req (w : World) body user profile username :
  String.eqb (Http.method req) "OPTIONS" = false →
  Http.json req = inr body →
  getUser env (Http.authorization req) = inr (Some user) →
  profiles_single env (User.id user) = inr profile →
  truthy_username profile = Some username →
  let r := (checkRateLimit (now env) (User.id user) DEFAULT_RATE_LIMIT (requestCounts w)).1 in
  (∀ data,
     getPagesInfoSchema body = inr data →
     GetPagesInfoInput.owner data ≠ username →
     turned_away w r (get_pages_info env req w))
  ∧ (∀ data,
       enablePagesSchema body = inr data →
       EnablePagesInput.owner data ≠ username →
       turned_away w r (enable_github_pages env req w)).
Proof.
  intros Hmethod Hjson Huser Hprofile Hname r. split.
  - intros data Hvalid Hne%String.eqb_neq.
    enter get_pages_info get_pages_info_body Hmethod Hjson Hvalid.
    match goal with
    | |- context [authenticated env req ?k w] =>
        apply (not_owner_or_limited env req w user profile username k Huser Hprofile Hname)
    end.
    rewrite Hne. reflexivity.
  - intros data Hvalid Hne%String.eqb_neq.
    enter enable_github_pages enable_github_pages_body Hmethod Hjson Hvalid.
    match goal with
    | |- context [authenticated env req ?k w] =>
        apply (not_owner_or_limited env req w user profile username k Huser Hprofile Hname)
    end.
    rewrite Hne. reflexivity.
Qed.

End Handlers.

(** Membership in the projection of the listing. *)
Lemma elem_of_summaries env first username token repos (s : Http.PagesSite.t) :
  s ∈ summaries env first username token repos ↔
  ∃ i repo info,
    repos !! i = Some repo
    ∧ probe env first username token i repo = Enabled info
    ∧ s = site username repo info.
Proof.
  unfold summaries. rewrite list_elem_of_omap. split.
  - intros (o & Ho & Hs). simpl in Hs. subst o.
    apply elem_of_lookup_imap in Ho as (i & repo & Hs & Hi).
    unfold summary in Hs.
    destruct (probe env first username token i repo) as [info| |] eqn:Hp; try discriminate.
    injection Hs as ->. eauto 6.
  - intros (i & repo & info & Hi & Hp & ->).
    exists (Some (site username repo info)). split; [|reflexivity].
    apply elem_of_lookup_imap. exists i, repo. split; [|exact Hi].
    unfold summary. rewrite Hp. reflexivity.
Qed.

(** The projection keeps the listing order. *)
Lemma summaries_sublist env username token repos : ∀ first,
  sublist (Http.PagesSite.repository <$> summaries env first username token repos)
    (Upstream.name <$> repos).
Proof.
  induction repos as [|repo repos IH]; intros first.
  - constructor.
  - rewrite summaries_cons. unfold summary.
    destruct (probe env first username token 0 repo); simpl.
    + apply sublist_skip, IH.
    + apply sublist_cons, IH.
    + apply sublist_cons, IH.
Qed.

Section Scan.
Context `{Imports}.

(** C1. In a scan where the repository listed at position [i] probes as
    Enabled and the probe of the repository listed at position [j] fails
    (a rejected or timed-out call, a non-success status other than 404,
    or an unreadable body), the handler answers HTTP 200 with a [sites]
    array that holds the summary of the former and in which every entry
    stems from a listed position other than [j] whose probe succeeded. *)
Theorem probe_failure_is_isolated env req (w : World) body data user username repos
    (i j : nat) (A B : Upstream.Repo) (info : Upstream.PagesInfo) :
  Http.json req = inr body →
  listPagesSitesSchema body = inr data →
  admitted env req w user username →
  listed env w (ListPagesSitesInput.provider_token data) repos →
  let token := ListPagesSitesInput.provider_token data in
  let first := S (length (upstream_calls w)) in
  repos !! i = Some A →
  probe env first username token i A = Enabled info →
  repos !! j = Some B →
  probe env first username token j B = ProbeError →
  ∃ sites,
    (list_pages_sites env req w).1 =
      Normal {| Http.status := 200;
                Http.headers := json_headers;
                Http.body := Some (Http.SitesBody sites) |}
    ∧ site username A info ∈ sites
    ∧ ∀ s, s ∈ sites →
        ∃ i' repo info',
          i' ≠ j
          ∧ repos !! i' = Some repo
          ∧ probe env first username token i' repo = Enabled info'
          ∧ s = site username repo info'.
Proof.
  intros Hjson Hvalid Hadm Hlisted token first HA HpA HB HpB.
  rewrite (list_pages_sites_scan _ _ _ _ _ _ _ _ Hjson Hvalid Hadm Hlisted).
  eexists. split; [reflexivity|]. fold token first. split.
  - apply elem_of_summaries. exists i, A, info. done.
  - intros s (i' & repo & info' & Hi' & Hp & ->)%elem_of_summaries.
    exists i', repo, info'. split_and!; try done.
    intros ->. congruence.
Qed.

(** C9. The [sites] array of a scan is the projection of the listing:
    going through the listed repositories in listing order, a repository
    whose probe is Enabled contributes its summary and one whose probe is
    Disabled (upstream 404) or failed contributes nothing.  The
    repositories of the summaries thus form a subsequence of the listed
    names: nothing is re-sorted. *)
Theorem scan_result_is_listing_projection env req (w : World) body data user username repos :
  Http.json req = inr body →
  listPagesSitesSchema body = inr data →
  admitted env req w user username →
  listed env w (ListPagesSitesInput.provider_token data) repos →
  let token := ListPagesSitesInput.provider_token data in
  let first := S (length (upstream_calls w)) in
  let sites :=
    omap (λ o, o)
      (imap (λ i repo,
               match probe env first username token i repo with
               | Enabled info => Some (site username repo info)
               | Disabled => None
               | ProbeError => None
               end) repos) in
  (list_pages_sites env req w).1 =
    Normal {| Http.status := 200;
              Http.headers := json_headers;
              Http.body := Some (Http.SitesBody sites) |}
  ∧ sublist (Http.PagesSite.repository <$> sites) (Upstream.name <$> repos).
Proof.
  intros Hjson Hvalid Hadm Hlisted token first sites.
  rewrite (list_pages_sites_scan _ _ _ _ _ _ _ _ Hjson Hvalid Hadm Hlisted).
  split; [reflexivity|]. apply summaries_sublist.
Qed.

End Scan.
End EdgeFacts.

(** * The sanitizer *)

Module SanitizerFacts.
Import Shared Sanitizer.

(** C7. For every raw body, [sanitizeGitHubError 404 rawBody] is the
    outward status 404 with the one message "not found".  For every
    upstream status the result does not depend on the raw body at all;
    its status is 403 for upstream 401 and 403, 404 for 404, 400 for 422
    and 502 for everything else (5xx included), and its message is one
    of the four fixed generic messages. *)
Theorem sanitizer_is_generic :
  (∀ rawBody,
     sanitizeGitHubError 404 rawBody = {| status := 404; message := "not found" |})
  ∧ (∀ httpStatus rawBody rawBody',
       sanitizeGitHubError httpStatus rawBody = sanitizeGitHubError httpStatus rawBody')
  ∧ (∀ httpStatus rawBody,
       status (sanitizeGitHubError httpStatus rawBody) =
         if bool_decide (httpStatus ∈ [401; 403]) then 403
         else if bool_decide (httpStatus = 404) then 404
         else if bool_decide (httpStatus = 422) then 400
         else 502)
  ∧ (∀ httpStatus rawBody,
       message (sanitizeGitHubError httpStatus rawBody) ∈ generic_messages).
Proof.
  split_and!.
  - reflexivity.
  - reflexivity.
  - intros httpStatus rawBody. unfold sanitizeGitHubError.
    assert (bool_decide (httpStatus ∈ [401; 403])
            = bool_decide (httpStatus = 401 ∨ httpStatus = 403)) as ->.
    { apply bool_decide_ext. rewrite !elem_of_cons, elem_of_nil. tauto. }
    repeat case_bool_decide; reflexivity.
  - intros httpStatus rawBody. unfold sanitizeGitHubError, generic_messages.
    repeat case_bool_decide; simpl; rewrite !elem_of_cons; auto 10.
Qed.

End SanitizerFacts.

(** * The handlers on concrete invocations *)

Module Scenarios.
Import Js RateLimiter Shared Edge Fleet GitHub EdgeFacts.

Lemma alice_admitted (req_body : jsval) :
  admitted alice_env (post req_body) idle (User.mk "u-alice") "alice".
Proof.
  split_and!; try reflexivity.
  exists (Some {| github_username := Some "alice" |}). split; reflexivity.
Defined.

Lemma alice_listed : listed alice_env idle "gho_token" (owned alice).
Proof. eexists. split_and!; reflexivity. Defined.

Lemma probe_failure_is_isolated_witness :
  probe alice_env 1 "alice" "gho_token" 0 (Upstream.mkRepo "blog")
    = Enabled (built_site "https://alice.github.io/blog/")
  ∧ probe alice_env 1 "alice" "gho_token" 2 (Upstream.mkRepo "secret") = ProbeError
  ∧ ∃ sites,
      (list_pages_sites (H := Reference.imports) alice_env (post list_body) idle).1 =
        Normal {| Http.status := 200;
                  Http.headers := json_headers (H := Reference.imports);
                  Http.body := Some (Http.SitesBody sites) |}
      ∧ site "alice" (Upstream.mkRepo "blog") (built_site "https://alice.github.io/blog/")
          ∈ sites
      ∧ ∀ s, s ∈ sites →
          ∃ i' repo info',
            i' ≠ 2%nat
            ∧ owned alice !! i' = Some repo
            ∧ probe alice_env 1 "alice" "gho_token" i' repo = Enabled info'
            ∧ s = site "alice" repo info'.
Proof.
  split; [reflexivity|]. split; [reflexivity|].
  exact (probe_failure_is_isolated (H := Reference.imports)
           alice_env (post list_body) idle list_body
           (ListPagesSitesInput.mk "gho_token") (User.mk "u-alice") "alice" (owned alice)
           0 2 (Upstream.mkRepo "blog") (Upstream.mkRepo "secret")
           (built_site "https://alice.github.io/blog/")
           eq_refl eq_refl (alice_admitted list_body) alice_listed
           eq_refl eq_refl eq_refl eq_refl).
Defined.

Lemma scan_result_is_listing_projection_witness :
  (list_pages_sites (H := Reference.imports) alice_env (post list_body) idle).1 =
    Normal {| Http.status := 200;
              Http.headers := json_headers (H := Reference.imports);
              Http.body :=
                Some (Http.SitesBody
                        (omap (λ o, o)
                           (imap (λ i repo,
                                    match probe alice_env 1 "alice" "gho_token" i repo with
                                    | Enabled info => Some (site "alice" repo info)
                                    | Disabled => None
                                    | ProbeError => None
                                    end) (owned alice)))) |}
  ∧ sublist ["blog"] ["blog"; "tools"; "secret"].
Proof.
  exact (scan_result_is_listing_projection (H := Reference.imports)
           alice_env (post list_body) idle list_body
           (ListPagesSitesInput.mk "gho_token") (User.mk "u-alice") "alice" (owned alice)
           eq_refl eq_refl (alice_admitted list_body) alice_listed).
Defined.

Lemma listing_failure_is_fatal_witness :
  Upstream.ok {| Upstream.resp_status := 500;
                 Upstream.text := inr "db-7 unreachable for installation 4411";
                 Upstream.json := inl "SyntaxError: unexpected token" |} = false
  ∧ upstream_calls (list_pages_sites (H := Reference.imports) outage_env (post list_body) idle).2
      = [listing_request "gho_token"]
  ∧ (list_pages_sites (H := Reference.imports) outage_env (post list_body) idle).1 =
      Normal {| Http.status := 502;
                Http.headers := json_headers (H := Reference.imports);
                Http.body := Some (Http.ErrorBody "upstream error") |}.
Proof.
  split; [reflexivity|].
  pose proof (listing_failure_is_fatal (H := Reference.imports)
                outage_env (post list_body) idle list_body
                (ListPagesSitesInput.mk "gho_token") (User.mk "u-alice") "alice" _
                eq_refl eq_refl
                (conj eq_refl (conj eq_refl (conj eq_refl
                   (ex_intro _ (Some {| github_username := Some "alice" |})
                      (conj eq_refl eq_refl)))))
                eq_refl eq_refl) as [Hcalls Hresp].
  split; [exact Hcalls|].
  apply (Hresp "db-7 unreachable for installation 4411" eq_refl).
  apply (bool_decide_unpack _). reflexivity.
Defined.

Lemma pages_not_found_is_disabled_witness :
  (get_pages_info (H := Reference.imports) alice_env (post (info_body "alice" "tools")) idle).1 =
    Normal {| Http.status := 200;
              Http.headers := json_headers (H := Reference.imports);
              Http.body := Some Http.PagesDisabledBody |}.
Proof.
  exact (pages_not_found_is_disabled (H := Reference.imports)
           alice_env (post (info_body "alice" "tools")) idle (info_body "alice" "tools")
           (GetPagesInfoInput.mk "alice" "tools" "gho_token") (User.mk "u-alice") _
           eq_refl eq_refl (alice_admitted _) eq_refl eq_refl).
Defined.

Lemma one_scan_one_unit_witness :
  let counts :=
    requestCounts (list_pages_sites (H := Reference.imports) alice_env (post list_body) spent).2 in
  spent.(requestCounts) !! "u-alice" = Some {| count := 100; resetAt := 50000 |}
  ∧ counts !! "u-alice" = Some {| count := 101; resetAt := 50000 |}
  ∧ ∀ other, other ≠ "u-alice" → counts !! other = requestCounts spent !! other.
Proof.
  intros counts. split; [reflexivity|].
  pose proof (one_scan_one_unit (H := Reference.imports)
                alice_env (post list_body) spent list_body
                (ListPagesSitesInput.mk "gho_token") (User.mk "u-alice")
                eq_refl eq_refl eq_refl eq_refl) as (_ & Hcount & Hframe).
  split; [exact Hcount | exact Hframe].
Defined.

Lemma owner_mismatch_is_turned_away_witness :
  turned_away idle
    {| allowed := true; remaining := 99; result_resetAt := 61000 |}
    (get_pages_info (H := Reference.imports) alice_env (post (enable_body "bob" "tools")) idle)
  ∧ turned_away idle
      {| allowed := true; remaining := 99; result_resetAt := 61000 |}
      (enable_github_pages (H := Reference.imports) alice_env
         (post (enable_body "bob" "tools")) idle).
Proof.
  pose proof (owner_mismatch_is_turned_away (H := Reference.imports)
                alice_env (post (enable_body "bob" "tools")) idle
                (enable_body "bob" "tools") (User.mk "u-alice")
                (Some {| github_username := Some "alice" |}) "alice"
                eq_refl eq_refl eq_refl eq_refl eq_refl) as [Hinfo Henable].
  split.
  - apply (Hinfo (GetPagesInfoInput.mk "bob" "tools" "gho_token") eq_refl). discriminate.
  - apply (Henable (EnablePagesInput.mk "bob" "tools" "main" "/" "gho_token") eq_refl).
    discriminate.
Defined.

(** C4 as it is worded fails on a request over the rate limit: the body
    is valid, the session user's profile resolves to [alice], the
    request names the owner [bob], and the answer is 429, not 403. *)
Lemma owner_mismatch_over_limit_is_429 :
  Reference.getPagesInfoSchema (info_body "bob" "tools")
    = inr (GetPagesInfoInput.mk "bob" "tools" "gho_token")
  ∧ getUser alice_env (Http.authorization (post (info_body "bob" "tools")))
      = inr (Some (User.mk "u-alice"))
  ∧ profiles_single alice_env "u-alice" = inr (Some {| github_username := Some "alice" |})
  ∧ truthy_username (Some {| github_username := Some "alice" |}) = Some "alice"
  ∧ "bob" ≠ "alice"
  ∧ ∃ resp,
      (get_pages_info (H := Reference.imports) alice_env (post (info_body "bob" "tools")) spent).1
        = Normal resp
      ∧ Http.status resp = 429
      ∧ Http.status resp ≠ 403.
Proof.
  split_and!; try reflexivity; try discriminate.
  eexists. split_and!; [vm_compute; reflexivity | reflexivity | discriminate].
Qed.

(** C6 fails on an account with more than one page of repositories.  The
    account owns [repo1 .. repo101] and [repo101] publishes; the scan
    sends the listing call and 100 probes, never probes [repo101] and
    answers with no site. *)
Theorem scan_stops_at_first_page :
  let env := env_for large_account "u-alice" 1000 in
  let run := list_pages_sites (H := Reference.imports) env (post list_body) idle in
  Upstream.mkRepo "repo101" ∈ owned large_account
  ∧ is_Some (pages large_account !! "repo101")
  ∧ length (upstream_calls (snd run)) = 101%nat
  ∧ (probe_request "alice" "gho_token" (Upstream.mkRepo "repo101") ∉ upstream_calls (snd run))
  ∧ fst run =
      Normal {| Http.status := 200;
                Http.headers := json_headers (H := Reference.imports);
                Http.body := Some (Http.SitesBody []) |}.
Proof.
  intros env run. split_and!.
  - apply (bool_decide_unpack _). vm_compute. exact I.
  - apply (bool_decide_unpack _). vm_compute. exact I.
  - vm_compute. reflexivity.
  - apply (bool_decide_unpack _). vm_compute. exact I.
  - vm_compute. reflexivity.
Qed.

End Scenarios.

(** * More on the rate limiter *)

Module RateLimiterMore.
Import RateLimiter RateLimiterRuns RateLimiterFacts.

(** A call looks at the caller's window only. *)
Lemma checkRateLimit_local config userId now (s1 s2 : gmap string UserData) :
  s1 !! userId = s2 !! userId →
  (checkRateLimit now userId config s1).1 = (checkRateLimit now userId config s2).1
  ∧ (checkRateLimit now userId config s1).2 !! userId
    = (checkRateLimit now userId config s2).2 !! userId.
Proof.
  intros Heq. unfold checkRateLimit. cbn [fst snd]. rewrite Heq, !lookup_insert_eq. done.
Qed.

Lemma cleanup_lookup now (s : gmap string UserData) userId :
  cleanupRateLimitStore now s !! userId =
    match s !! userId with
    | Some d => if bool_decide (now < resetAt d) then Some d else None
    | None => None
    end.
Proof.
  unfold cleanupRateLimitStore. rewrite map_lookup_filter.
  destruct (s !! userId) as [d|]; simpl; [|reflexivity].
  case_bool_decide; case_guard; simpl in *; try reflexivity; lia.
Qed.

(** X1. In a window that a call opens (no live window before it), the
    call number [i] (counting from 0) is admitted exactly when [i] is
    below [maxRequests]; it reports [max 0 (maxRequests - 1 - i)]
    remaining and the end [t0 + windowMs] of the window. *)
Theorem fresh_window_admits_maxRequests config userId
    (requestCounts : gmap string UserData) (t0 : Z) (ts : list Z) :
  no_live_window t0 userId requestCounts →
  Forall (λ t, t < t0 + windowMs config) ts →
  ∀ (i : nat) r,
    (checkRateLimit_calls userId config (t0 :: ts) requestCounts).1 !! i = Some r →
    (allowed r = true ↔ Z.of_nat i < maxRequests config)
    ∧ remaining r = Z.max 0 (maxRequests config - 1 - Z.of_nat i)
    ∧ result_resetAt r = t0 + windowMs config.
Proof.
  intros Hfresh Hall i r Hi.
  assert (checkRateLimit t0 userId config requestCounts =
            (outcome config 1 (t0 + windowMs config),
             <[userId := {| count := 1; resetAt := t0 + windowMs config |}]> requestCounts))
    as Hfirst.
  { unfold no_live_window in Hfresh.
    destruct (requestCounts !! userId) as [d|] eqn:Hd.
    - apply (checkRateLimit_expired config userId requestCounts t0 d Hd Hfresh).
    - apply (checkRateLimit_first config userId requestCounts t0 Hd). }
  cbn [checkRateLimit_calls] in Hi. rewrite Hfirst in Hi.
  destruct (checkRateLimit_calls_live config userId ts
              (<[userId := {| count := 1; resetAt := t0 + windowMs config |}]> requestCounts)
              {| count := 1; resetAt := t0 + windowMs config |})
    as (counts & Hrun & _); [apply lookup_insert_eq | exact Hall |].
  rewrite Hrun in Hi. cbn [fst count resetAt] in Hi.
  assert (r = outcome config (Z.of_nat i + 1) (t0 + windowMs config)) as ->.
  { destruct i as [|i]; simpl in Hi.
    - injection Hi as <-. reflexivity.
    - rewrite list_lookup_imap in Hi.
      destruct (ts !! i); simpl in Hi; [|discriminate].
      injection Hi as <-. f_equal. lia. }
  unfold outcome. cbn [allowed remaining result_resetAt]. split_and!.
  - rewrite bool_decide_eq_true. lia.
  - lia.
  - reflexivity.
Qed.

Lemma fresh_window_admits_maxRequests_witness :
  let config := {| maxRequests := 2; windowMs := 1000 |} in
  let requestCounts : gmap string UserData :=
    {[ "alice" := {| count := 7; resetAt := 400 |} ]} in
  no_live_window 500 "alice" requestCounts
  ∧ Forall (λ t, t < 500 + windowMs config) [600; 1499]
  ∧ (checkRateLimit_calls "alice" config [500; 600; 1499] requestCounts).1 =
      [ {| allowed := true; remaining := 1; result_resetAt := 1500 |};
        {| allowed := true; remaining := 0; result_resetAt := 1500 |};
        {| allowed := false; remaining := 0; result_resetAt := 1500 |} ]
  ∧ ((false = true ↔ Z.of_nat 2 < 2)
     ∧ 0 = Z.max 0 (2 - 1 - Z.of_nat 2)
     ∧ 1500 = 500 + 1000).
Proof.
  intros config requestCounts.
  assert (no_live_window 500 "alice" requestCounts) as Hfresh by (vm_compute; discriminate).
  assert (Forall (λ t, t < 500 + windowMs config) [600; 1499]) as Hall
    by (repeat constructor).
  split; [exact Hfresh|]. split; [exact Hall|]. split; [vm_compute; reflexivity|].
  exact (fresh_window_admits_maxRequests config "alice" requestCounts 500 [600; 1499]
           Hfresh Hall 2 {| allowed := false; remaining := 0; result_resetAt := 1500 |}
           eq_refl).
Defined.

(** X2. On every store the limiter can have built, a call reports a
    remaining budget between 0 and [maxRequests - 1] (0 when that is
    negative), reports 0 whenever it rejects, and, for a positive window
    length, an end of window that lies after the call. *)
Theorem result_is_within_budget config userId (requestCounts : gmap string UserData) now :
  valid requestCounts →
  let r := (checkRateLimit now userId config requestCounts).1 in
  0 <= remaining r <= Z.max 0 (maxRequests config - 1)
  ∧ (allowed r = false → remaining r = 0)
  ∧ (0 < windowMs config → now < result_resetAt r).
Proof.
  intros Hv r. subst r.
  pose proof (live_count_nonneg userId requestCounts now Hv) as Hnn.
  rewrite checkRateLimit_result. unfold outcome. cbn [allowed remaining result_resetAt].
  split_and!.
  - lia.
  - lia.
  - intros Hrej%bool_decide_eq_false_1. lia.
  - intros HW. unfold checkRateLimit. cbn [fst result_resetAt resetAt].
    destruct (requestCounts !! userId) as [d|]; [|simpl; lia].
    case_bool_decide; simpl; lia.
Qed.

Lemma result_is_within_budget_witness :
  let requestCounts : gmap string UserData :=
    {[ "alice" := {| count := 100; resetAt := 50000 |} ]} in
  valid requestCounts
  ∧ (checkRateLimit 1000 "alice" DEFAULT_RATE_LIMIT requestCounts).1 =
      {| allowed := false; remaining := 0; result_resetAt := 50000 |}
  ∧ 0 <= 0 <= Z.max 0 (100 - 1).
Proof.
  intros requestCounts.
  assert (valid requestCounts) as Hv.
  { intros k d Hk. apply lookup_singleton_Some in Hk as [_ <-]. simpl. lia. }
  split; [exact Hv|]. split; [vm_compute; reflexivity|].
  exact (proj1 (result_is_within_budget DEFAULT_RATE_LIMIT "alice" requestCounts 1000 Hv)).
Defined.

(** X3. A sweep is invisible to every later call: a call at or after
    the time of the sweep returns the same result, and leaves the same
    window for the caller, whether or not the sweep ran. *)
Theorem cleanup_is_invisible config userId (requestCounts : gmap string UserData)
    (swept now : Z) :
  swept <= now →
  (checkRateLimit now userId config (cleanupRateLimitStore swept requestCounts)).1
    = (checkRateLimit now userId config requestCounts).1
  ∧ (checkRateLimit now userId config (cleanupRateLimitStore swept requestCounts)).2 !! userId
    = (checkRateLimit now userId config requestCounts).2 !! userId.
Proof.
  intros Hle.
  destruct (requestCounts !! userId) as [d|] eqn:Hd.
  - destruct (decide (swept < resetAt d)) as [Hlive|Hover].
    + apply checkRateLimit_local. rewrite cleanup_lookup, Hd.
      by rewrite bool_decide_eq_true_2.
    + rewrite (checkRateLimit_first config userId (cleanupRateLimitStore swept requestCounts))
        by (rewrite cleanup_lookup, Hd; by rewrite bool_decide_eq_false_2).
      rewrite (checkRateLimit_expired config userId requestCounts now d Hd) by lia.
      cbn [fst snd]. by rewrite !lookup_insert_eq.
  - apply checkRateLimit_local. by rewrite cleanup_lookup, Hd.
Qed.

Lemma cleanup_is_invisible_witness :
  let requestCounts : gmap string UserData :=
    {[ "alice" := {| count := 100; resetAt := 2000 |};
       "bob" := {| count := 3; resetAt := 9000 |} ]} in
  3000 <= 3500
  ∧ cleanupRateLimitStore 3000 requestCounts !! "alice" = None
  ∧ (checkRateLimit 3500 "alice" DEFAULT_RATE_LIMIT
       (cleanupRateLimitStore 3000 requestCounts)).1
    = (checkRateLimit 3500 "alice" DEFAULT_RATE_LIMIT requestCounts).1.
Proof.
  intros requestCounts.
  split; [lia|]. split; [vm_compute; reflexivity|].
  exact (proj1 (cleanup_is_invisible DEFAULT_RATE_LIMIT "alice" requestCounts 3000 3500
                  ltac:(lia))).
Defined.

(** X4. After a sweep at [now] every window left is still open, no
    open window is lost, and two sweeps in a row amount to one sweep at
    the later of the two times. *)
Theorem cleanup_keeps_exactly_the_live (requestCounts : gmap string UserData)
    (now now' : Z) :
  (∀ userId d,
     cleanupRateLimitStore now requestCounts !! userId = Some d ↔
     requestCounts !! userId = Some d ∧ now < resetAt d)
  ∧ cleanupRateLimitStore now' (cleanupRateLimitStore now requestCounts)
    = cleanupRateLimitStore (Z.max now now') requestCounts.
Proof.
  split.
  - intros userId d. rewrite cleanup_lookup.
    destruct (requestCounts !! userId) as [d'|].
    + case_bool_decide as Hlive; split.
      * intros [= ->]. done.
      * intros [[= ->] _]. done.
      * discriminate.
      * intros [[= ->] ?]. lia.
    + split; [discriminate | intros [[=] _]].
  - apply map_eq. intros userId. rewrite !cleanup_lookup.
    destruct (requestCounts !! userId) as [d|]; [|reflexivity].
    repeat case_bool_decide; try reflexivity; lia.
Qed.

(** The part of a run that [userId] sees depends on its own window
    only. *)
Lemma run_ops_local config userId ops : ∀ (s1 s2 : gmap string UserData),
  s1 !! userId = s2 !! userId →
  results_for userId (run_ops config ops s1).1
    = results_for userId (run_ops config (own_ops userId ops) s2).1.
Proof.
  unfold own_ops, results_for.
  induction ops as [|[u now|now] ops IH]; intros s1 s2 Heq; [reflexivity| |].
  - cbn [run_ops].
    destruct (checkRateLimit now u config s1) as [r1 s1'] eqn:H1.
    destruct (run_ops config ops s1') as [rs1 s1''] eqn:Hrun1.
    destruct (decide (u = userId)) as [->|Hne].
    + rewrite filter_cons_True by (simpl; by rewrite bool_decide_eq_true_2).
      cbn [run_ops].
      destruct (checkRateLimit now userId config s2) as [r2 s2'] eqn:H2.
      destruct (run_ops config (filter _ ops) s2') as [rs2 s2''] eqn:Hrun2.
      destruct (checkRateLimit_local config userId now s1 s2 Heq) as [Hr Hs].
      rewrite H1, H2 in Hr, Hs. cbn [fst snd] in Hr, Hs. subst r2.
      specialize (IH s1' s2' Hs). rewrite Hrun1, Hrun2 in IH. cbn [fst] in IH |- *.
      rewrite !filter_cons_True by reflexivity. cbn [fmap list_fmap]. by f_equal.
    + rewrite filter_cons_False by (simpl; by rewrite bool_decide_eq_false_2).
      assert (s1' !! userId = s2 !! userId) as Hs.
      { rewrite <- Heq. change s1' with (r1, s1').2. rewrite <- H1.
        by apply checkRateLimit_frame. }
      specialize (IH s1' s2 Hs). rewrite Hrun1 in IH. cbn [fst] in IH |- *.
      rewrite filter_cons_False by (simpl; congruence). exact IH.
  - rewrite filter_cons_True by reflexivity. cbn [run_ops].
    apply IH. rewrite !cleanup_lookup, Heq. reflexivity.
Qed.

(** X5. Identities do not interfere: what the calls of one identity
    return in a run is what they return when the calls of all other
    identities are taken out of the run. *)
Theorem identities_are_isolated config userId ops (requestCounts : gmap string UserData) :
  results_for userId (run_ops config ops requestCounts).1
    = results_for userId (run_ops config (own_ops userId ops) requestCounts).1.
Proof. by apply run_ops_local. Qed.

(** X6. The rate-limit headers are exactly the three [X-RateLimit-*]
    headers; the reset header holds the whole second at or after the end
    of the window, less than a second late. *)
Theorem rate_limit_headers_name_the_reset (r : RateLimitResult) (config : RateLimitConfig) :
  dom (getRateLimitHeaders r config)
    = {[ "X-RateLimit-Limit"; "X-RateLimit-Remaining"; "X-RateLimit-Reset" ]}
  ∧ getRateLimitHeaders r config !! "X-RateLimit-Limit" = Some (pretty (maxRequests config))
  ∧ getRateLimitHeaders r config !! "X-RateLimit-Remaining" = Some (pretty (remaining r))
  ∧ ∃ seconds,
      getRateLimitHeaders r config !! "X-RateLimit-Reset" = Some (pretty seconds)
      ∧ result_resetAt r <= 1000 * seconds < result_resetAt r + 1000.
Proof.
  unfold getRateLimitHeaders. split_and!.
  - rewrite !dom_insert_L, dom_singleton_L. set_solver.
  - by simplify_map_eq.
  - by simplify_map_eq.
  - exists (ceil_div_1000 (result_resetAt r)). split; [by simplify_map_eq|].
    unfold ceil_div_1000.
    pose proof (Z.div_mod (- result_resetAt r) 1000 ltac:(lia)).
    pose proof (Z.mod_pos_bound (- result_resetAt r) 1000 ltac:(lia)). lia.
Qed.

End RateLimiterMore.

(** * The paths of the handlers *)

Module HandlerPaths.
Import Js RateLimiter Shared Edge Fleet Stages EdgeFacts.

Section Paths.
Context `{Imports}.

Lemma respond_own (b : Http.Body) (st : Z) (hdrs : gmap string string) (w : World) :
  st ∈ own_statuses →
  respond b (Some st) hdrs w = (Normal (response st hdrs b), w).
Proof.
  intros Hst. apply respond_sendable. unfold own_statuses in Hst.
  repeat (apply elem_of_cons in Hst as [->|Hst]; [by apply (bool_decide_unpack _)|]).
  by apply elem_of_nil in Hst.
Qed.

Ltac own_status := unfold own_statuses; rewrite !elem_of_cons; auto 10.

(** The shared steps end in one of six ways. *)
Lemma authenticated_gate env req (w : World) (k : string → M World Http.Response) :
  authenticated env req k w =
    match gate_of env req w with
    | SessionError e => (Throw e, w)
    | NoSession => unauthorized w
    | OverLimit user r => rate_limit_exceeded r (counted env (User.id user) w)
    | ProfileError user e => (Throw e, counted env (User.id user) w)
    | NoProfile user => profile_not_found (counted env (User.id user) w)
    | Linked user username => k username (counted env (User.id user) w)
    end.
Proof.
  unfold authenticated, gate_of, checkRateLimit_default, counted. rewrite bind_run.
  destruct (getUser env (Http.authorization req)) as [e|[user|]]; try reflexivity.
  cbn [await mret M_ret]. rewrite bind_run.
  destruct (checkRateLimit (now env) (User.id user) DEFAULT_RATE_LIMIT (requestCounts w))
    as [r counts] eqn:Hcall. cbn [fst snd].
  destruct (allowed r); cbn [negb]; [|by rewrite Hcall].
  rewrite bind_run.
  destruct (profiles_single env (User.id user)) as [e|profile]; [by rewrite Hcall|].
  cbn [await mret M_ret]. destruct (truthy_username profile); by rewrite Hcall.
Qed.

(** Every handler has the shape [staged] spells out. *)
Lemma serve_staged {T} (preflight_status : option Z)
    (schema : jsval → list ZodIssue + T)
    (steps : T → string → M World Http.Response) env req (w : World) :
  (if String.eqb (Http.method req) "OPTIONS" then
     await (Http.new_Response None preflight_status corsHeaders)
   else
     serve (body ← await (Http.json req);
            match schema body with
            | inl errors => invalid_input errors
            | inr data => authenticated env req (steps data)
            end)) w
  = staged preflight_status schema steps env req w.
Proof.
  unfold staged, entry_of.
  destruct (String.eqb (Http.method req) "OPTIONS"); [reflexivity|].
  unfold serve. unfold try_catch at 1. rewrite bind_run.
  destruct (Http.json req) as [e|body]; [reflexivity|].
  cbn [await mret M_ret]. destruct (schema body) as [errors|data].
  - unfold invalid_input. rewrite respond_own by own_status. reflexivity.
  - rewrite authenticated_gate. destruct (gate_of env req w); reflexivity.
Qed.

Lemma list_pages_sites_staged env req (w : World) :
  list_pages_sites env req w
  = staged (Some 200) listPagesSitesSchema (list_pages_sites_steps env) env req w.
Proof. apply (serve_staged (Some 200) listPagesSitesSchema (list_pages_sites_steps env)). Qed.

Lemma get_pages_info_staged env req (w : World) :
  get_pages_info env req w
  = staged None getPagesInfoSchema (get_pages_info_steps env) env req w.
Proof. apply (serve_staged None getPagesInfoSchema (get_pages_info_steps env)). Qed.

Lemma enable_github_pages_staged env req (w : World) :
  enable_github_pages env req w
  = staged None enablePagesSchema (enable_github_pages_steps env) env req w.
Proof. apply (serve_staged None enablePagesSchema (enable_github_pages_steps env)). Qed.

Lemma handler_of_staged (e : endpoint) env req (w : World) :
  handler_of e env req w =
    match e with
    | ListPagesSites =>
        staged (Some 200) listPagesSitesSchema (list_pages_sites_steps env) env req w
    | GetPagesInfo => staged None getPagesInfoSchema (get_pages_info_steps env) env req w
    | EnableGitHubPages =>
        staged None enablePagesSchema (enable_github_pages_steps env) env req w
    end.
Proof.
  destruct e; [apply list_pages_sites_staged | apply get_pages_info_staged
              | apply enable_github_pages_staged].
Qed.

Lemma staged_untouched {T} (st0 : option Z) (schema : jsval → list ZodIssue + T)
    steps env req (w : World) :
  default 200 st0 = 200 →
  limited_user schema env req = None →
  untouched w (staged st0 schema steps env req w).
Proof.
  intros Hst Hearly. unfold staged, limited_user, untouched in *.
  destruct (entry_of schema req) as [|e|errors|data].
  - unfold Http.new_Response. rewrite Hst. cbn. split; [reflexivity|].
    eexists. split; [reflexivity|]. cbn. set_solver.
  - unfold internal_error. rewrite respond_own by own_status.
    split; [reflexivity|]. eexists. split; [reflexivity|]. cbn. set_solver.
  - unfold invalid_input. rewrite respond_own by own_status.
    split; [reflexivity|]. eexists. split; [reflexivity|]. cbn. set_solver.
  - unfold gate_of.
    destruct (getUser env (Http.authorization req)) as [e|[user|]]; [|discriminate|].
    + unfold internal_error. rewrite respond_own by own_status.
      split; [reflexivity|]. eexists. split; [reflexivity|]. cbn. set_solver.
    + unfold unauthorized. rewrite respond_own by own_status.
      split; [reflexivity|]. eexists. split; [reflexivity|]. cbn. set_solver.
Qed.

(** X7. A request that is answered before the rate limiter (a
    preflight, an unreadable or invalid body, a failing session lookup or
    no session) costs nothing on any of the three endpoints: the
    limiter's map is as before, no upstream call is sent, and the status
    is 200, 400, 401 or 500. *)
Theorem early_answers_cost_nothing (e : endpoint) env req (w : World) :
  limited e env req = None →
  untouched w (handler_of e env req w).
Proof.
  intros Hearly. rewrite handler_of_staged.
  destruct e; by apply staged_untouched.
Qed.

#[local] Hint Resolve keeps_respond keeps_upstream_error keeps_fetch_counts
  keeps_check_pages_counts : keeps.

Lemma staged_counts {T} (st0 : option Z) (schema : jsval → list ZodIssue + T)
    steps env req (w : World) user :
  (∀ data username, keeps requestCounts (steps data username)) →
  limited_user schema env req = Some user →
  requestCounts (staged st0 schema steps env req w).2 =
    (checkRateLimit (now env) (User.id user) DEFAULT_RATE_LIMIT (requestCounts w)).2.
Proof.
  intros Hsteps Hlim. unfold staged, limited_user, gate_of in *.
  destruct (entry_of schema req) as [|e|errors|data]; try discriminate.
  destruct (getUser env (Http.authorization req)) as [e|[user'|]]; try discriminate.
  injection Hlim as ->. cbn zeta.
  destruct (allowed _).
  - destruct (profiles_single env (User.id user)) as [e|profile].
    + unfold internal_error. by rewrite keeps_respond.
    + destruct (truthy_username profile) as [username|].
      * rewrite try_catch_handled by (intros e; apply keeps_respond).
        by rewrite Hsteps.
      * unfold profile_not_found. by rewrite keeps_respond.
  - unfold rate_limit_exceeded. by rewrite keeps_respond.
Qed.

(** X8. On each of the three endpoints a request with a valid body
    and a session user passes through [checkRateLimit] exactly once: the
    limiter's map after the request is the one that single call leaves,
    so the user's count is one above the count found and no other
    identity's window changes. *)
Theorem every_endpoint_counts_once (e : endpoint) env req (w : World) user :
  limited e env req = Some user →
  let counts := requestCounts (handler_of e env req w).2 in
  let once := checkRateLimit (now env) (User.id user) DEFAULT_RATE_LIMIT (requestCounts w) in
  counts = once.2
  ∧ counts !! User.id user =
      Some {| count := live_count (now env) (User.id user) (requestCounts w) + 1;
              resetAt := result_resetAt once.1 |}
  ∧ ∀ other, other ≠ User.id user → counts !! other = requestCounts w !! other.
Proof.
  intros Hlim counts once.
  assert (counts = once.2) as ->.
  { subst counts once. rewrite handler_of_staged.
    destruct e; apply staged_counts; try exact Hlim; intros data username;
      unfold list_pages_sites_steps, get_pages_info_steps, enable_github_pages_steps,
        not_owner;
      auto 10 with keeps. }
  subst once. split; [reflexivity|]. split.
  - apply RateLimiterFacts.checkRateLimit_count.
  - intros other Hne. by apply RateLimiterFacts.checkRateLimit_frame.
Qed.

Lemma rate_limited_headers_lookup (r : RateLimitResult) :
  rate_limited_headers r !! "X-RateLimit-Limit" = Some "100"
  ∧ rate_limited_headers r !! "X-RateLimit-Remaining" = Some (pretty (remaining r))
  ∧ rate_limited_headers r !! "X-RateLimit-Reset"
    = Some (pretty (ceil_div_1000 (result_resetAt r)))
  ∧ rate_limited_headers r !! "Content-Type" = Some "application/json".
Proof.
  unfold rate_limited_headers, getRateLimitHeaders. split_and!.
  - rewrite lookup_insert_ne by done. erewrite lookup_union_Some_l; [reflexivity|].
    by simplify_map_eq.
  - rewrite lookup_insert_ne by done. erewrite lookup_union_Some_l; [reflexivity|].
    by simplify_map_eq.
  - rewrite lookup_insert_ne by done. erewrite lookup_union_Some_l; [reflexivity|].
    by simplify_map_eq.
  - by rewrite lookup_insert_eq.
Qed.

Lemma staged_over_limit {T} (st0 : option Z) (schema : jsval → list ZodIssue + T)
    steps env req (w : World) user :
  limited_user schema env req = Some user →
  allowed (checkRateLimit (now env) (User.id user) DEFAULT_RATE_LIMIT (requestCounts w)).1
    = false →
  staged st0 schema steps env req w =
    (Normal (response 429
               (rate_limited_headers
                  (checkRateLimit (now env) (User.id user) DEFAULT_RATE_LIMIT
                     (requestCounts w)).1)
               (Http.ErrorBody "Rate limit exceeded. Please try again later.")),
     counted env (User.id user) w).
Proof.
  intros Hlim Hrej. unfold staged, limited_user, gate_of in *.
  destruct (entry_of schema req) as [|e|errors|data]; try discriminate.
  destruct (getUser env (Http.authorization req)) as [e|[user'|]]; try discriminate.
  injection Hlim as ->. cbn zeta. rewrite Hrej.
  unfold rate_limit_exceeded. by rewrite respond_own by own_status.
Qed.

(** X9. On each of the three endpoints a request with a valid body
    and a session user that the limiter rejects is answered 429 with the
    rate-limit headers (limit 100, remaining 0, the reset second of the
    user's window) and the JSON content type; the limiter has counted the
    request and no upstream call is sent. *)
Theorem over_limit_is_429 (e : endpoint) env req (w : World) user :
  limited e env req = Some user →
  let r := (checkRateLimit (now env) (User.id user) DEFAULT_RATE_LIMIT (requestCounts w)).1 in
  allowed r = false →
  ∃ resp,
    handler_of e env req w = (Normal resp, counted env (User.id user) w)
    ∧ Http.status resp = 429
    ∧ Http.body resp = Some (Http.ErrorBody "Rate limit exceeded. Please try again later.")
    ∧ Http.headers resp !! "X-RateLimit-Limit" = Some "100"
    ∧ Http.headers resp !! "X-RateLimit-Remaining" = Some "0"
    ∧ Http.headers resp !! "X-RateLimit-Reset"
      = Some (pretty (ceil_div_1000 (result_resetAt r)))
    ∧ Http.headers resp !! "Content-Type" = Some "application/json".
Proof.
  intros Hlim r Hrej.
  assert (remaining r = 0) as Hrem.
  { subst r. rewrite RateLimiterFacts.checkRateLimit_result in Hrej |- *.
    cbn [outcome allowed remaining] in *. apply bool_decide_eq_false_1 in Hrej. lia. }
  destruct (rate_limited_headers_lookup r) as (Hlimit & Hremaining & Hreset & Htype).
  rewrite Hrem in Hremaining.
  exists (response 429 (rate_limited_headers r)
            (Http.ErrorBody "Rate limit exceeded. Please try again later.")).
  split; [|by split_and!].
  rewrite handler_of_staged. destruct e; by apply staged_over_limit.
Qed.

Lemma truthy_username_None (profile : option Profile) :
  truthy_username profile = None ↔ unlinked profile.
Proof.
  unfold truthy_username, unlinked, truthy.
  destruct profile as [[[name|]]|]; simpl; [|tauto..].
  destruct (String.eqb_spec name EmptyString) as [->|Hne]; simpl.
  - split; auto.
  - split; [discriminate|]. intros [?|?]; congruence.
Qed.

Lemma staged_unlinked {T} (st0 : option Z) (schema : jsval → list ZodIssue + T)
    steps env req (w : World) user profile :
  limited_user schema env req = Some user →
  allowed (checkRateLimit (now env) (User.id user) DEFAULT_RATE_LIMIT (requestCounts w)).1
    = true →
  profiles_single env (User.id user) = inr profile →
  unlinked profile →
  staged st0 schema steps env req w =
    (Normal (response 403 json_headers (Http.ErrorBody "GitHub profile not found")),
     counted env (User.id user) w).
Proof.
  intros Hlim Hadm Hprofile Hun%truthy_username_None.
  unfold staged, limited_user, gate_of in *.
  destruct (entry_of schema req) as [|e|errors|data]; try discriminate.
  destruct (getUser env (Http.authorization req)) as [e|[user'|]]; try discriminate.
  injection Hlim as ->. cbn zeta. rewrite Hadm, Hprofile, Hun.
  unfold profile_not_found. by rewrite respond_own by own_status.
Qed.

(** X10. On each of the three endpoints, when the session user's
    profile names no account (there is no row, or its [github_username]
    is null or the empty string), an admitted request is answered 403
    "GitHub profile not found"; the limiter has counted it and no
    upstream call is sent. *)
Theorem unlinked_profile_is_403 (e : endpoint) env req (w : World) user profile :
  limited e env req = Some user →
  allowed (checkRateLimit (now env) (User.id user) DEFAULT_RATE_LIMIT (requestCounts w)).1
    = true →
  profiles_single env (User.id user) = inr profile →
  unlinked profile →
  handler_of e env req w =
    (Normal {| Http.status := 403;
               Http.headers := json_headers;
               Http.body := Some (Http.ErrorBody "GitHub profile not found") |},
     counted env (User.id user) w).
Proof.
  intros Hlim Hadm Hprofile Hun. rewrite handler_of_staged.
  destruct e; by apply (staged_unlinked _ _ _ _ _ _ _ profile).
Qed.

Lemma keeps_fetch_requestCounts_calls env r (w : World) :
  upstream_calls (fetch env r w).2 = upstream_calls w ++ [r].
Proof. rewrite fetch_run. reflexivity. Qed.

Lemma internal_error_calls e (w : World) :
  upstream_calls (internal_error e w).2 = upstream_calls w.
Proof. unfold internal_error. by rewrite (keeps_respond upstream_calls). Qed.

(** The calls of the tail of [get-pages-info]. *)
Lemma get_pages_info_steps_calls env data username (w : World) :
  upstream_calls (try_catch (get_pages_info_steps env data username) internal_error w).2 =
    upstream_calls w ++
      (if String.eqb (GetPagesInfoInput.owner data) username then
         [Upstream.GetPages (GetPagesInfoInput.owner data) (GetPagesInfoInput.repo data)
            (GetPagesInfoInput.provider_token data)]
       else []).
Proof.
  rewrite try_catch_handled by (intros e; apply keeps_respond).
  unfold get_pages_info_steps. cbn zeta.
  destruct (String.eqb (GetPagesInfoInput.owner data) username); cbn [negb].
  - rewrite bind_run, fetch_run.
    destruct (fetch_result env _ _) as [e|resp]; [reflexivity|].
    cbn [fst snd]. unfold sent.
    match goal with
    | |- upstream_calls (?m ?w').2 = _ =>
        assert (keeps upstream_calls m) as Hm by auto 10 with keeps; by rewrite Hm
    end.
  - unfold not_owner. rewrite (keeps_respond upstream_calls). by rewrite app_nil_r.
Qed.

(** The calls of the tail of [enable-github-pages]. *)
Lemma enable_github_pages_steps_calls env data username (w : World) :
  upstream_calls (try_catch (enable_github_pages_steps env data username) internal_error w).2 =
    upstream_calls w ++
      (if String.eqb (EnablePagesInput.owner data) username then
         [Upstream.PostPages (EnablePagesInput.owner data) (EnablePagesInput.repo data)
            (EnablePagesInput.branch data) (EnablePagesInput.path data)
            (EnablePagesInput.provider_token data)]
       else []).
Proof.
  rewrite try_catch_handled by (intros e; apply keeps_respond).
  unfold enable_github_pages_steps. cbn zeta.
  destruct (String.eqb (EnablePagesInput.owner data) username); cbn [negb].
  - rewrite bind_run, fetch_run.
    destruct (fetch_result env _ _) as [e|resp]; [reflexivity|].
    cbn [fst snd]. unfold sent.
    match goal with
    | |- upstream_calls (?m ?w').2 = _ =>
        assert (keeps upstream_calls m) as Hm by auto 10 with keeps; by rewrite Hm
    end.
  - unfold not_owner. rewrite (keeps_respond upstream_calls). by rewrite app_nil_r.
Qed.

(** The calls of the tail of [list-pages-sites]: the listing, then one
    probe for each repository the scan iterates. *)
Lemma list_pages_sites_steps_calls env data username (w : World) :
  upstream_calls (try_catch (list_pages_sites_steps env data username) internal_error w).2 =
    upstream_calls w
      ++ listing_request (ListPagesSitesInput.provider_token data)
         :: (probe_request username (ListPagesSitesInput.provider_token data)
               <$> listed_repos env w (ListPagesSitesInput.provider_token data)).
Proof.
  rewrite try_catch_handled by (intros e; apply keeps_respond).
  unfold list_pages_sites_steps, listed_repos. cbn zeta.
  fold (listing_request (ListPagesSitesInput.provider_token data)).
  rewrite bind_run, fetch_run.
  destruct (fetch_result env _ _) as [e|resp]; [reflexivity|].
  cbn [fst snd]. destruct (Upstream.ok resp); cbn [negb].
  - rewrite bind_run. destruct (Upstream.json resp) as [e|[repos|info]]; try reflexivity.
    cbn [await mret M_ret Upstream.iterate]. rewrite bind_run. cbn [await mret M_ret].
    rewrite bind_run, scan_run. cbn [fst snd].
    rewrite (keeps_respond upstream_calls). unfold sent. cbn [upstream_calls].
    by rewrite <- app_assoc.
  - by rewrite (keeps_upstream_error upstream_calls).
Qed.

Ltac canned :=
  unfold internal_error, invalid_input, unauthorized, rate_limit_exceeded,
    profile_not_found, not_owner.

(** X11. Every upstream call that any of the three endpoints sends is
    sent for an admitted request, carries the [provider_token] of the
    request body, and is about the account name the session user's
    profile resolves to (the listing is about the account of the token).
    [get-pages-info] and [enable-github-pages] send at most one call. *)
Theorem upstream_calls_stay_within_the_account (e : endpoint) env req (w : World) :
  ∃ calls,
    new_calls w (handler_of e env req w) calls
    ∧ (e ≠ ListPagesSites → (length calls <= 1)%nat)
    ∧ ∀ c, c ∈ calls →
        ∃ user username,
          gate_of env req w = Linked user username
          ∧ (account_of c = None ∨ account_of c = Some username)
          ∧ body_token e req = Some (token_of c).
Proof.
  unfold new_calls. rewrite handler_of_staged.
  assert (∀ (run : Completion Http.Response * World) (B : Prop)
            (P : Upstream.Request → Prop),
            upstream_calls run.2 = upstream_calls w →
            ∃ calls : list Upstream.Request,
              upstream_calls run.2 = upstream_calls w ++ calls
              ∧ (B → (length calls <= 1)%nat)
              ∧ ∀ c, c ∈ calls → P c) as Hnone.
  { intros run B P Hrun. exists []. rewrite app_nil_r. split; [exact Hrun|].
    split; [simpl; lia|]. intros c Hc. by apply elem_of_nil in Hc. }
  assert (∀ (m : M World Http.Response) (w' : World),
            keeps upstream_calls m → upstream_calls w' = upstream_calls w →
            upstream_calls (m w').2 = upstream_calls w) as Hkeeps.
  { intros m w' Hm Hw'. by rewrite Hm. }
  destruct e; unfold staged, body_token.
  - destruct (entry_of listPagesSitesSchema req) as [|err|errors|data];
      [apply Hnone, Hkeeps; canned; auto with keeps..|].
    destruct (gate_of env req w) as [err| |user r|user err|user|user username] eqn:Hgate;
      [apply Hnone, Hkeeps; canned; auto with keeps..|].
    rewrite list_pages_sites_steps_calls. eexists. split; [reflexivity|].
    split; [done|]. intros c Hc. exists user, username. split; [reflexivity|].
    apply elem_of_cons in Hc as [->|Hc]; [by auto|].
    apply list_elem_of_fmap in Hc as (repo & -> & _). by auto.
  - destruct (entry_of getPagesInfoSchema req) as [|err|errors|data];
      [apply Hnone, Hkeeps; canned; auto with keeps..|].
    destruct (gate_of env req w) as [err| |user r|user err|user|user username] eqn:Hgate;
      [apply Hnone, Hkeeps; canned; auto with keeps..|].
    rewrite get_pages_info_steps_calls. eexists. split; [reflexivity|].
    destruct (String.eqb_spec (GetPagesInfoInput.owner data) username) as [Heq|Hne].
    + split; [simpl; lia|]. intros c ->%list_elem_of_singleton.
      exists user, username. split; [reflexivity|].
      split; [right; simpl; by rewrite Heq | reflexivity].
    + split; [simpl; lia|]. intros c Hc. by apply elem_of_nil in Hc.
  - destruct (entry_of enablePagesSchema req) as [|err|errors|data];
      [apply Hnone, Hkeeps; canned; auto with keeps..|].
    destruct (gate_of env req w) as [err| |user r|user err|user|user username] eqn:Hgate;
      [apply Hnone, Hkeeps; canned; auto with keeps..|].
    rewrite enable_github_pages_steps_calls. eexists. split; [reflexivity|].
    destruct (String.eqb_spec (EnablePagesInput.owner data) username) as [Heq|Hne].
    + split; [simpl; lia|]. intros c ->%list_elem_of_singleton.
      exists user, username. split; [reflexivity|].
      split; [right; simpl; by rewrite Heq | reflexivity].
    + split; [simpl; lia|]. intros c Hc. by apply elem_of_nil in Hc.
Qed.

(** *** What every response looks like *)

Lemma answers_bind {A} (P : Http.Response → Prop) (m : M World A)
    (k : A → M World Http.Response) :
  (∀ a, answers P (k a)) → answers P (m ≫= k).
Proof.
  intros Hk w. rewrite bind_run. destruct (m w) as [[a|e] w']; [apply Hk | exact I].
Qed.

Lemma answers_try_catch (P : Http.Response → Prop) (m : M World Http.Response)
    (h : JsError → M World Http.Response) :
  answers P m → (∀ e, answers P (h e)) → answers P (try_catch m h).
Proof.
  intros Hm Hh w. unfold try_catch. specialize (Hm w).
  destruct (m w) as [[resp|e] w']; [exact Hm | apply Hh].
Qed.

Lemma answers_if (P : Http.Response → Prop) (c : bool) (m1 m2 : M World Http.Response) :
  answers P m1 → answers P m2 → answers P (if c then m1 else m2).
Proof. destruct c; auto. Qed.

Lemma answers_respond (P : Http.Response → Prop) (b : Http.Body) (st : option Z)
    (hdrs : gmap string string) :
  P (response (default 200 st) hdrs b) → answers P (respond b st hdrs).
Proof.
  intros HP w. unfold respond, Http.new_Response.
  destruct (negb _); [exact I|]. destruct (_ && _); [exact I | exact HP].
Qed.

Lemma answers_upstream_error (P : Http.Response → Prop) (resp : Upstream.Response) :
  (∀ rawError,
     let sanitized := sanitizeGitHubError (Upstream.resp_status resp) rawError in
     P (response (status sanitized) json_headers (Http.ErrorBody (message sanitized)))) →
  answers P (upstream_error resp).
Proof.
  intros HP. apply answers_bind. intros rawError. apply answers_respond, HP.
Qed.

Lemma json_headers_kept name :
  name ∉ own_headers → json_headers !! name = corsHeaders !! name.
Proof.
  intros Hname. unfold json_headers. apply lookup_insert_ne.
  intros <-. apply Hname. unfold own_headers. set_solver.
Qed.

Lemma rate_limited_headers_kept (r : RateLimitResult) name :
  name ∉ own_headers → rate_limited_headers r !! name = corsHeaders !! name.
Proof.
  intros Hname. unfold rate_limited_headers, own_headers in *.
  rewrite lookup_insert_ne by (intros <-; apply Hname; set_solver).
  apply lookup_union_r. unfold getRateLimitHeaders.
  rewrite !lookup_insert_ne by (intros <-; apply Hname; set_solver).
  apply lookup_singleton_ne. intros <-. apply Hname. set_solver.
Qed.

Lemma envelope_own (st : Z) (b : Http.Body) :
  st ∈ own_statuses → envelope (response st json_headers b).
Proof.
  intros Hst. split; [by left|]. intros name. apply json_headers_kept.
Qed.

Lemma envelope_sanitized upstream_status rawError (b : Http.Body) :
  envelope (response (status (sanitizeGitHubError upstream_status rawError)) json_headers b).
Proof.
  split; [right; by eauto|]. intros name. apply json_headers_kept.
Qed.

Lemma answers_canned (b : Http.Body) (st : Z) :
  st ∈ own_statuses → answers envelope (respond b (Some st) json_headers).
Proof. intros Hst. apply answers_respond. by apply envelope_own. Qed.

Lemma answers_ok (b : Http.Body) : answers envelope (respond b None json_headers).
Proof. apply answers_respond, envelope_own. own_status. Qed.

Lemma answers_internal_error e : answers envelope (internal_error e).
Proof. apply answers_canned. own_status. Qed.

Lemma answers_sanitized resp : answers envelope (upstream_error resp).
Proof. apply answers_upstream_error. intros rawError. apply envelope_sanitized. Qed.

Lemma answers_steps env :
  (∀ data username, answers envelope (list_pages_sites_steps env data username))
  ∧ (∀ data username, answers envelope (get_pages_info_steps env data username))
  ∧ (∀ data username, answers envelope (enable_github_pages_steps env data username)).
Proof.
  split_and!; intros data username;
    unfold list_pages_sites_steps, get_pages_info_steps, enable_github_pages_steps, not_owner;
    cbn zeta;
    repeat first
      [ apply answers_ok
      | apply answers_sanitized
      | apply answers_canned; own_status
      | apply answers_if
      | apply answers_bind; intros ? ].
Qed.

Lemma staged_envelope {T} (st0 : option Z) (schema : jsval → list ZodIssue + T)
    steps env req :
  default 200 st0 = 200 →
  (∀ data username, answers envelope (steps data username)) →
  answers envelope (staged st0 schema steps env req).
Proof.
  intros Hst Hsteps w. unfold staged.
  destruct (entry_of schema req) as [|e|errors|data].
  - unfold Http.new_Response. rewrite Hst. cbn. split.
    + left. cbn. own_status.
    + intros name _. reflexivity.
  - apply answers_internal_error.
  - unfold invalid_input. apply answers_canned. own_status.
  - destruct (gate_of env req w) as [e| |user r|user e|user|user username].
    + apply answers_internal_error.
    + unfold unauthorized. apply answers_canned. own_status.
    + unfold rate_limit_exceeded. apply answers_respond. split.
      * left. cbn. own_status.
      * intros name. apply rate_limited_headers_kept.
    + apply answers_internal_error.
    + unfold profile_not_found. apply answers_canned. own_status.
    + apply answers_try_catch; [apply Hsteps | apply answers_internal_error].
Qed.

(** X12. Whatever the request, the session, the profile store and the
    upstream do, each of the three endpoints answers, and its response
    has a status among 200, 400, 401, 403, 429 and 500 or the status the
    sanitizer chose for an upstream answer; apart from [Content-Type] and
    the three [X-RateLimit-*] headers its headers are exactly the CORS
    headers. *)
Theorem responses_stay_in_the_envelope (e : endpoint) env req (w : World) :
  ∃ resp w',
    handler_of e env req w = (Normal resp, w')
    ∧ status_in_taxonomy resp
    ∧ cors_headers_kept resp.
Proof.
  assert (∃ resp w', handler_of e env req w = (Normal resp, w')) as (resp & w' & Hrun).
  { destruct (handlers_respond env req w) as (Hlist & Hget & Henable). by destruct e. }
  exists resp, w'. split; [exact Hrun|].
  assert (answers envelope (handler_of e env req)) as Hanswers.
  { destruct (answers_steps env) as (Hlist & Hget & Henable).
    intros w0. rewrite handler_of_staged.
    destruct e; by apply staged_envelope. }
  specialize (Hanswers w). by rewrite Hrun in Hanswers.
Qed.

(** *** What the upstream answer becomes *)

Lemma admitted_staged {T} (st0 : option Z) (schema : jsval → list ZodIssue + T)
    steps env req (w : World) body data user username :
  Http.json req = inr body →
  schema body = inr data →
  admitted env req w user username →
  staged st0 schema steps env req w =
    try_catch (steps data username) internal_error (counted env (User.id user) w).
Proof.
  intros Hjson Hvalid (Hmethod & Huser & Hallowed & profile & Hprofile & Hname).
  unfold staged, entry_of, gate_of.
  by rewrite Hmethod, Hjson, Hvalid, Huser, Hallowed, Hprofile, Hname.
Qed.

Lemma internal_error_run e (w : World) :
  internal_error e w =
    (Normal (response 500 json_headers (Http.ErrorBody (sanitizeGeneralError e))), w).
Proof. unfold internal_error. by rewrite respond_own by own_status. Qed.

(** X13. An admitted [get-pages-info] request for the user's own
    account sends exactly one call, the read of the Pages document.  A
    rejected call and an unreadable document give 500 with the general
    sanitized message; a success response gives 200 with [enabled: true]
    and the document's [html_url], [status] and [source] as they are; a
    non-success response other than 404 gives the sanitized error. *)
Theorem get_pages_info_relays_upstream env req (w : World) body data user :
  Http.json req = inr body →
  getPagesInfoSchema body = inr data →
  admitted env req w user (GetPagesInfoInput.owner data) →
  let call :=
    Upstream.GetPages (GetPagesInfoInput.owner data) (GetPagesInfoInput.repo data)
      (GetPagesInfoInput.provider_token data) in
  let answer := fetch_result env (length (upstream_calls w)) call in
  let run := get_pages_info env req w in
  new_calls w run [call]
  ∧ (∀ e, answer = inl e →
       run.1 = Normal (response 500 json_headers (Http.ErrorBody (sanitizeGeneralError e))))
  ∧ (∀ resp, answer = inr resp → Upstream.ok resp = true →
       match Upstream.json resp with
       | inr document =>
           run.1 =
             Normal (response 200 json_headers
                       (Http.PagesInfoBody
                          (Upstream.html_url (Upstream.members document))
                          (Upstream.status (Upstream.members document))
                          (Upstream.source (Upstream.members document))))
       | inl e =>
           run.1 =
             Normal (response 500 json_headers (Http.ErrorBody (sanitizeGeneralError e)))
       end)
  ∧ (∀ resp rawError, answer = inr resp → Upstream.ok resp = false →
       Upstream.resp_status resp ≠ 404 →
       Upstream.text resp = inr rawError →
       let sanitized := sanitizeGitHubError (Upstream.resp_status resp) rawError in
       sendable (status sanitized) →
       run.1 =
         Normal (response (status sanitized) json_headers
                   (Http.ErrorBody (message sanitized)))).
Proof.
  intros Hjson Hvalid Hadm call answer run. subst run.
  rewrite get_pages_info_staged, (admitted_staged _ _ _ _ _ _ _ _ _ _ Hjson Hvalid Hadm).
  split.
  { unfold new_calls. rewrite get_pages_info_steps_calls, String.eqb_refl. reflexivity. }
  unfold try_catch, get_pages_info_steps. cbn zeta. rewrite String.eqb_refl. cbn [negb].
  rewrite bind_run, fetch_run.
  change (upstream_calls (counted env (User.id user) w)) with (upstream_calls w).
  subst answer call.
  split_and!.
  - intros e Hans. rewrite Hans. apply (f_equal fst (internal_error_run e _)).
  - intros resp Hans Hok. rewrite Hans. cbn [fst snd].
    assert (Upstream.resp_status resp ≠ 404) as Hne.
    { unfold Upstream.ok in Hok. apply bool_decide_eq_true_1 in Hok. lia. }
    rewrite (bool_decide_eq_false_2 _ Hne), Hok. cbn [negb]. rewrite bind_run.
    destruct (Upstream.json resp) as [e|document]; cbn [await throw mret M_ret fst snd].
    + apply (f_equal fst (internal_error_run e _)).
    + by rewrite respond_default.
  - intros resp rawError Hans Hok Hne Htext Hs. rewrite Hans. cbn [fst snd].
    rewrite (bool_decide_eq_false_2 _ Hne), Hok. cbn [negb].
    unfold upstream_error. rewrite bind_run, Htext. cbn [await mret M_ret fst snd].
    by rewrite (respond_sendable _ _ _ _ Hs).
Qed.

(** X14. An admitted [enable-github-pages] request for the user's own
    account sends exactly one call, the POST that carries the branch and
    the path of the body.  A rejected call gives 500 with the general
    sanitized message; a success response gives 200 with
    [success: true] and the document's [html_url] and [status]; every
    non-success response, 404 included, gives the sanitized error. *)
Theorem enable_github_pages_relays_upstream env req (w : World) body data user :
  Http.json req = inr body →
  enablePagesSchema body = inr data →
  admitted env req w user (EnablePagesInput.owner data) →
  let call :=
    Upstream.PostPages (EnablePagesInput.owner data) (EnablePagesInput.repo data)
      (EnablePagesInput.branch data) (EnablePagesInput.path data)
      (EnablePagesInput.provider_token data) in
  let answer := fetch_result env (length (upstream_calls w)) call in
  let run := enable_github_pages env req w in
  new_calls w run [call]
  ∧ (∀ e, answer = inl e →
       run.1 = Normal (response 500 json_headers (Http.ErrorBody (sanitizeGeneralError e))))
  ∧ (∀ resp document, answer = inr resp → Upstream.ok resp = true →
       Upstream.json resp = inr document →
       run.1 =
         Normal (response 200 json_headers
                   (Http.EnableSuccessBody
                      (Upstream.html_url (Upstream.members document))
                      (Upstream.status (Upstream.members document))
                      "GitHub Pages has been enabled successfully!")))
  ∧ (∀ resp rawError, answer = inr resp → Upstream.ok resp = false →
       Upstream.text resp = inr rawError →
       let sanitized := sanitizeGitHubError (Upstream.resp_status resp) rawError in
       sendable (status sanitized) →
       run.1 =
         Normal (response (status sanitized) json_headers
                   (Http.ErrorBody (message sanitized)))).
Proof.
  intros Hjson Hvalid Hadm call answer run. subst run.
  rewrite enable_github_pages_staged,
    (admitted_staged _ _ _ _ _ _ _ _ _ _ Hjson Hvalid Hadm).
  split.
  { unfold new_calls. rewrite enable_github_pages_steps_calls, String.eqb_refl.
    reflexivity. }
  unfold try_catch, enable_github_pages_steps. cbn zeta. rewrite String.eqb_refl.
  cbn [negb]. rewrite bind_run, fetch_run.
  change (upstream_calls (counted env (User.id user) w)) with (upstream_calls w).
  subst answer call.
  split_and!.
  - intros e Hans. rewrite Hans. apply (f_equal fst (internal_error_run e _)).
  - intros resp document Hans Hok Hdoc. rewrite Hans. cbn [fst snd]. rewrite Hok. cbn [negb].
    rewrite bind_run, Hdoc. cbn [await mret M_ret fst snd]. by rewrite respond_default.
  - intros resp rawError Hans Hok Htext Hs. rewrite Hans. cbn [fst snd]. rewrite Hok.
    cbn [negb]. unfold upstream_error. rewrite bind_run, Htext.
    cbn [await mret M_ret fst snd].
    by rewrite (respond_sendable _ _ _ _ Hs).
Qed.

(** X15. When the listing of an admitted scan cannot be used (the call
    is rejected, or the success response has a body that does not parse
    or is not an array), the answer is 500 with the general sanitized
    message and the listing call is the only upstream call. *)
Theorem unusable_listing_is_500 env req (w : World) body data user username :
  Http.json req = inr body →
  listPagesSitesSchema body = inr data →
  admitted env req w user username →
  let call := listing_request (ListPagesSitesInput.provider_token data) in
  let answer := fetch_result env (length (upstream_calls w)) call in
  let run := list_pages_sites env req w in
  ∀ e,
    (answer = inl e
     ∨ ∃ resp, answer = inr resp ∧ Upstream.ok resp = true
         ∧ (Upstream.json resp = inl e
            ∨ ∃ j, Upstream.json resp = inr j ∧ Upstream.iterate j = inl e)) →
    run.1 = Normal (response 500 json_headers (Http.ErrorBody (sanitizeGeneralError e)))
    ∧ new_calls w run [call].
Proof.
  intros Hjson Hvalid Hadm call answer run e Hcase. subst run.
  rewrite list_pages_sites_staged,
    (admitted_staged _ _ _ _ _ _ _ _ _ _ Hjson Hvalid Hadm).
  unfold new_calls, try_catch, list_pages_sites_steps. cbn zeta.
  fold (listing_request (ListPagesSitesInput.provider_token data)).
  rewrite bind_run, fetch_run.
  change (upstream_calls (counted env (User.id user) w)) with (upstream_calls w).
  subst answer call.
  destruct Hcase as [Hans|(resp & Hans & Hok & Hbody)]; rewrite Hans.
  - rewrite internal_error_run. done.
  - cbn [fst snd]. rewrite Hok. cbn [negb]. rewrite bind_run.
    destruct Hbody as [->|(j & -> & Hiter)]; cbn [await throw mret M_ret fst snd].
    + rewrite internal_error_run. done.
    + rewrite bind_run, Hiter. cbn [await throw mret M_ret fst snd].
      rewrite internal_error_run. done.
Qed.

(** *** The summaries *)

Lemma or_default_nonempty (a : option string) (b : string) :
  b ≠ EmptyString → or_default a b ≠ EmptyString.
Proof.
  intros Hb. unfold or_default, truthy. destruct a as [s|]; [|exact Hb].
  destruct (String.eqb_spec s EmptyString); simpl; done.
Qed.

(** X16. In the answer of a scan every summary is owned by the
    resolved account and names a listed repository whose probe was
    Enabled; its [branch] equals its [source.branch]; its [branch],
    [status], [url] and [source.path] are never empty.  There are at most
    as many summaries as listed repositories, and if no name is listed
    twice no repository occurs twice among the summaries. *)
Theorem summaries_are_well_formed env req (w : World) body data user username repos :
  Http.json req = inr body →
  listPagesSitesSchema body = inr data →
  admitted env req w user username →
  listed env w (ListPagesSitesInput.provider_token data) repos →
  ∃ sites,
    (list_pages_sites env req w).1 = Normal (response 200 json_headers (Http.SitesBody sites))
    ∧ (length sites <= length repos)%nat
    ∧ (NoDup (Upstream.name <$> repos) → NoDup (Http.PagesSite.repository <$> sites))
    ∧ ∀ s, s ∈ sites →
        Http.PagesSite.owner s = username
        ∧ (∃ i repo info,
             repos !! i = Some repo
             ∧ probe env (S (length (upstream_calls w))) username
                 (ListPagesSitesInput.provider_token data) i repo = Enabled info
             ∧ Http.PagesSite.repository s = Upstream.name repo)
        ∧ Http.PagesSite.site_branch s = Http.PagesSite.branch (Http.PagesSite.source s)
        ∧ Http.PagesSite.site_branch s ≠ EmptyString
        ∧ Http.PagesSite.status s ≠ EmptyString
        ∧ Http.PagesSite.url s ≠ EmptyString
        ∧ Http.PagesSite.path (Http.PagesSite.source s) ≠ EmptyString.
Proof.
  intros Hjson Hvalid Hadm Hlisted.
  rewrite (list_pages_sites_scan _ _ _ _ _ _ _ _ Hjson Hvalid Hadm Hlisted).
  eexists. split; [reflexivity|].
  pose proof (summaries_sublist env username (ListPagesSitesInput.provider_token data)
                repos (S (length (upstream_calls w)))) as Hsub.
  split_and!.
  - apply sublist_length in Hsub. by rewrite !length_fmap in Hsub.
  - intros Hnodup. by eapply sublist_NoDup.
  - intros s (i & repo & info & Hi & Hp & ->)%elem_of_summaries.
    unfold site. cbn. split_and!; try done.
    + eauto 10.
    + by apply or_default_nonempty.
    + by apply or_default_nonempty.
    + by apply or_default_nonempty.
    + by apply or_default_nonempty.
Qed.

End Paths.
End HandlerPaths.

(** * [create-branch] *)

Module CreateBranchFacts.
Import Js Shared Dynamic CreateBranch EdgeFacts.

Section Handler.
Context `{Imports}.

Lemma create_fetch_run (env : Env) (r : Request) (calls : list Request) :
  fetch env r calls =
    (match fetch_result env (length calls) r with
     | inl e => Throw e
     | inr resp => Normal resp
     end, calls ++ [r]).
Proof. unfold fetch. destruct (fetch_result _ _ _); reflexivity. Qed.

(** Where a ready handler stands: at the lookup of the source branch. *)
Lemma ready_run env req params profile (calls : list Request) :
  ready env req params profile →
  create_branch env req calls =
    try_catch
      (refResponse ← fetch env (lookup_call params profile);
       if negb (ok refResponse) then
         error ← await (text refResponse);
         respond (SourceBranchNotFound (sourceBranch params)) (Some 404)
       else
         refData ← await (json refResponse);
         sha ← await (object_sha refData);
         createResponse ← fetch env (create_call params profile sha);
         if negb (ok createResponse) then
           error ← await (text createResponse);
           respond (ErrorBody "Failed to create branch. It may already exist.") (Some 400)
         else respond (SuccessBody (branchName params)) None)
      (λ error, respond (ErrorBody error) (Some 500)) calls.
Proof.
  intros (Hmethod & (body & Hjson & Hparams) & Hprofile & Htruthy).
  unfold create_branch. rewrite Hmethod. unfold try_catch, create_branch_body.
  rewrite bind_run, Hjson. cbn [await mret M_ret]. rewrite bind_run, Hparams.
  cbn [await mret M_ret]. rewrite bind_run, Hprofile. cbn [await mret M_ret].
  rewrite Htruthy. reflexivity.
Qed.


(** X18. A ready [create-branch] collapses the upstream's answers: a
    non-success answer to the lookup of the source branch is reported as
    404 "source branch not found" whatever its status, after that one
    call; a non-success answer to the creation is reported as 400, after
    both calls; a rejected lookup is reported as 500 with the message of
    the error as it is. *)
Theorem upstream_failures_are_collapsed env req params profile (calls : list Request) :
  ready env req params profile →
  let lookup := fetch_result env (length calls) (lookup_call params profile) in
  (∀ e, lookup = inl e →
     create_branch env req calls =
       (Normal (mkReply 500 json_headers (Some (ErrorBody e))),
        calls ++ [lookup_call params profile]))
  ∧ (∀ resp raw, lookup = inr resp → ok resp = false → text resp = inr raw →
       create_branch env req calls =
         (Normal (mkReply 404 json_headers
                    (Some (SourceBranchNotFound (sourceBranch params)))),
          calls ++ [lookup_call params profile]))
  ∧ (∀ resp refData sha resp' raw,
       lookup = inr resp → ok resp = true → json resp = inr refData →
       object_sha refData = inr sha →
       fetch_result env (S (length calls)) (create_call params profile sha) = inr resp' →
       ok resp' = false → text resp' = inr raw →
       create_branch env req calls =
         (Normal (mkReply 400 json_headers
                    (Some (ErrorBody "Failed to create branch. It may already exist."))),
          calls ++ [lookup_call params profile; create_call params profile sha])).
Proof.
  intros Hready lookup. subst lookup. rewrite (ready_run _ _ _ _ _ Hready).
  unfold try_catch. rewrite bind_run, create_fetch_run. split_and!.
  - intros e ->. reflexivity.
  - intros resp raw -> Hok Htext. cbn [fst snd]. rewrite Hok. cbn [negb].
    rewrite bind_run, Htext. reflexivity.
  - intros resp refData sha resp' raw -> Hok Hjson Hsha Hcreate Hok' Htext.
    cbn [fst snd]. rewrite Hok. cbn [negb]. rewrite bind_run, Hjson.
    cbn [await mret M_ret]. rewrite bind_run, Hsha. cbn [await mret M_ret].
    rewrite bind_run, create_fetch_run, length_app, Nat.add_1_r, Hcreate. cbn [fst snd].
    rewrite Hok'. cbn [negb]. rewrite bind_run, Htext. cbn [await mret M_ret].
    rewrite <- app_assoc. reflexivity.
Qed.

(** A handler that is not ready answers without any upstream call, and
    not with a success body. *)
Lemma not_ready_run env req (calls : list Request) :
  (∃ params profile, ready env req params profile)
  ∨ ∃ reply,
      create_branch env req calls = (Normal reply, calls)
      ∧ ∀ branch, body reply ≠ Some (SuccessBody branch).
Proof.
  unfold ready, create_branch.
  destruct (String.eqb (Http.method req) "OPTIONS") eqn:Hmethod.
  { right. eexists. split; [reflexivity|]. intros branch. discriminate. }
  unfold try_catch, create_branch_body. rewrite bind_run.
  destruct (Http.json req) as [e|body] eqn:Hjson.
  { right. eexists. split; [reflexivity|]. intros branch. discriminate. }
  cbn [await mret M_ret]. rewrite bind_run.
  destruct (destructure body) as [e|params] eqn:Hparams.
  { right. eexists. split; [reflexivity|]. intros branch. discriminate. }
  cbn [await mret M_ret]. rewrite bind_run.
  destruct (getGitHubToken env req (provider_token params)) as [e|[profile|]] eqn:Hprofile.
  - right. eexists. split; [reflexivity|]. intros branch. discriminate.
  - cbn [await mret M_ret].
    destruct (falsy (owner params) || falsy (repo params) || falsy (branchName params))
      eqn:Hfalsy.
    + right. eexists. split; [reflexivity|]. intros branch. discriminate.
    + left. exists params, profile. eauto 10.
  - right. eexists. split; [reflexivity|]. intros branch. discriminate.
Qed.


(** X20. [create-branch] never reports a success that did not happen:
    a reply whose body is the success object is a 200 that names the
    [branchName] of the request, and it is given only after the lookup
    and the creation were both sent and the creation was answered with a
    success status. *)
Theorem success_means_created env req (calls : list Request) reply branch :
  (create_branch env req calls).1 = Normal reply →
  body reply = Some (SuccessBody branch) →
  ∃ params profile sha resp',
    ready env req params profile
    ∧ branch = branchName params
    ∧ status reply = 200
    ∧ (create_branch env req calls).2
      = calls ++ [lookup_call params profile; create_call params profile sha]
    ∧ fetch_result env (S (length calls)) (create_call params profile sha) = inr resp'
    ∧ ok resp' = true.
Proof.
  destruct (not_ready_run env req calls)
    as [(params & profile & Hready)|(reply' & Hrun & Hbody)].
  2:{ rewrite Hrun. intros [= <-] Hsuccess. by apply Hbody in Hsuccess. }
  rewrite (ready_run _ _ _ _ _ Hready). unfold try_catch.
  rewrite bind_run, create_fetch_run.
  destruct (fetch_result env (length calls) (lookup_call params profile)) as [e|resp];
    cbn [fst snd]; [intros [= <-]; discriminate|].
  destruct (ok resp); cbn [negb].
  2:{ rewrite bind_run. destruct (text resp); cbn [await throw mret M_ret fst snd];
        intros [= <-]; discriminate. }
  rewrite bind_run.
  destruct (json resp) as [e|refData]; cbn [await throw mret M_ret fst snd];
    [intros [= <-]; discriminate|].
  rewrite bind_run.
  destruct (object_sha refData) as [e|sha]; cbn [await throw mret M_ret fst snd];
    [intros [= <-]; discriminate|].
  rewrite bind_run, create_fetch_run, length_app, Nat.add_1_r.
  destruct (fetch_result env (S (length calls)) (create_call params profile sha))
    as [e|resp'] eqn:Hcreate; cbn [fst snd]; [intros [= <-]; discriminate|].
  destruct (ok resp') eqn:Hok'; cbn [negb].
  2:{ rewrite bind_run. destruct (text resp'); cbn [await throw mret M_ret fst snd];
        intros [= <-]; discriminate. }
  intros [= <-] [= <-]. exists params, profile, sha, resp'.
  rewrite <- app_assoc. done.
Qed.

End Handler.
End CreateBranchFacts.

(** * [rename-branch] *)

Module RenameBranchFacts.
Import Js Shared Dynamic RenameBranch EdgeFacts.

Section Handler.
Context `{Imports}.
Variable parse : jsval → JsError + Input.t.

Lemma rename_fetch_run (env : Env) (r : Request) (calls : list Request) :
  fetch env r calls =
    (match fetch_result env (length calls) r with
     | inl e => Throw e
     | inr resp => Normal resp
     end, calls ++ [r]).
Proof. unfold fetch. destruct (fetch_result _ _ _); reflexivity. Qed.

Lemma respond_calls (b : Body) (st : option Z) (calls : list Request) :
  (respond b st calls).2 = calls.
Proof. unfold respond. destruct (new_Reply _ _ _); reflexivity. Qed.

(** X21. [rename-branch] has no rate limiter in front of its owner
    check: whenever the body parses and the session user's profile
    resolves to an account name other than the [owner] of the body, the
    answer is 403 and no upstream call is sent. *)
Theorem foreign_owner_is_403 env req data username (calls : list Request) :
  resolved parse env req data username →
  Input.owner data ≠ username →
  rename_branch parse env req calls =
    (Normal (mkReply 403 json_headers
               (Some (ErrorBody "You can only rename branches in your own repositories"))),
     calls).
Proof.
  intros (Hmethod & (body & Hjson & Hparse) & user & profile & Huser & Hprofile & Hname) Hne.
  unfold rename_branch. rewrite Hmethod. unfold try_catch, rename_branch_body.
  rewrite bind_run, Hjson. cbn [await mret M_ret]. rewrite bind_run, Hparse.
  cbn [await mret M_ret]. rewrite bind_run, Huser. cbn [await mret M_ret].
  rewrite bind_run, Hprofile. cbn [await mret M_ret]. rewrite Hname.
  assert (String.eqb username (Input.owner data) = false) as ->
    by (apply String.eqb_neq; congruence).
  reflexivity.
Qed.

(** X22. [rename-branch] classifies its early failures unlike the
    Pages handlers: a body the schema rejects makes [parse] throw, so the
    answer is 500 with the general sanitized message (not 400), and a
    profile that names no account is answered 401 (not 403).  Neither
    sends an upstream call. *)
Theorem early_failures_of_rename env req (calls : list Request) body :
  String.eqb (Http.method req) "OPTIONS" = false →
  Http.json req = inr body →
  (∀ e, parse body = inl e →
     rename_branch parse env req calls =
       (Normal (mkReply 500 json_headers (Some (ErrorBody (sanitizeGeneralError e)))),
        calls))
  ∧ (∀ data user profile,
       parse body = inr data →
       getUser env (Http.authorization req) = inr (Some user) →
       profiles_single env (Edge.User.id user) = inr profile →
       Stages.unlinked profile →
       rename_branch parse env req calls =
         (Normal (mkReply 401 json_headers (Some (ErrorBody "GitHub username not found"))),
          calls)).
Proof.
  intros Hmethod Hjson.
  unfold rename_branch. rewrite Hmethod. unfold try_catch, rename_branch_body.
  rewrite bind_run, Hjson. cbn [await mret M_ret]. rewrite bind_run. split.
  - intros e ->. reflexivity.
  - intros data user profile -> Huser Hprofile Hun%HandlerPaths.truthy_username_None.
    cbn [await mret M_ret]. rewrite bind_run, Huser. cbn [await mret M_ret].
    rewrite bind_run, Hprofile. cbn [await mret M_ret]. rewrite Hun. reflexivity.
Qed.

(** X23. [rename-branch] sends at most one upstream call, and only the
    rename the body asks for, in a repository of the account the session
    user's profile resolves to, with the token of the body. *)
Theorem rename_stays_within_the_account env req (calls : list Request) :
  ∃ new,
    (rename_branch parse env req calls).2 = calls ++ new
    ∧ (new = []
       ∨ ∃ data,
           resolved parse env req data (Input.owner data)
           ∧ new = [rename_call data]).
Proof.
  assert (∀ c : list Request,
            c = calls →
            ∃ new, c = calls ++ new
              ∧ (new = [] ∨ ∃ data, resolved parse env req data (Input.owner data)
                                     ∧ new = [rename_call data])) as Hnone.
  { intros c ->. exists []. rewrite app_nil_r. auto. }
  unfold rename_branch.
  destruct (String.eqb (Http.method req) "OPTIONS") eqn:Hmethod; [by apply Hnone|].
  assert (∀ (m : M (list Request) (Reply Body)) h (c : list Request),
            (∀ e c', (h e c').2 = c') → (try_catch m h c).2 = (m c).2) as Hcaught.
  { intros m h c Hh. unfold try_catch.
    destruct (m c) as [[a|e] c']; [reflexivity | apply Hh]. }
  rewrite Hcaught by (intros e c'; apply respond_calls).
  unfold rename_branch_body. rewrite bind_run.
  destruct (Http.json req) as [e|body] eqn:Hjson; cbn [await throw mret M_ret];
    [by apply Hnone|].
  rewrite bind_run.
  destruct (parse body) as [e|data] eqn:Hparse; cbn [await throw mret M_ret];
    [by apply Hnone|].
  rewrite bind_run.
  destruct (getUser env (Http.authorization req)) as [e|[user|]] eqn:Huser;
    cbn [await throw mret M_ret]; [by apply Hnone| |apply Hnone, respond_calls].
  rewrite bind_run.
  destruct (profiles_single env (Edge.User.id user)) as [e|profile] eqn:Hprofile;
    cbn [await throw mret M_ret]; [by apply Hnone|].
  destruct (Edge.truthy_username profile) as [username|] eqn:Hname;
    [|apply Hnone, respond_calls].
  destruct (String.eqb_spec username (Input.owner data)) as [->|Hne]; cbn [negb];
    [|apply Hnone, respond_calls].
  assert (∀ c : list Request,
            c = calls ++ [rename_call data] →
            ∃ new, c = calls ++ new
              ∧ (new = [] ∨ ∃ data0, resolved parse env req data0 (Input.owner data0)
                                      ∧ new = [rename_call data0])) as Hone.
  { intros c ->. eexists. split; [reflexivity|]. right. exists data.
    split; [|reflexivity]. split; [exact Hmethod|]. split; [by eauto|].
    exists user, profile. done. }
  fold (rename_call data). rewrite bind_run, rename_fetch_run.
  destruct (fetch_result env (length calls) (rename_call data)) as [e|resp];
    cbn [fst snd]; [by apply Hone|].
  destruct (ok resp); cbn [negb].
  - rewrite bind_run. destruct (json resp) as [e|result]; cbn [await throw mret M_ret];
      [by apply Hone|].
    rewrite bind_run. destruct (member "name" result) as [e|name];
      cbn [await throw mret M_ret]; [by apply Hone|].
    apply Hone. apply respond_calls.
  - rewrite bind_run. destruct (text resp) as [e|raw]; cbn [await throw mret M_ret];
      [by apply Hone|].
    apply Hone. cbn zeta. apply respond_calls.
Qed.

End Handler.
End RenameBranchFacts.


(** * Properties of the client *)

Module BreadcrumbsFacts.
Import Stdlib.Strings.Ascii Breadcrumbs.

Lemma split_not_nil sep s : split sep s ≠ [].
Proof.
  destruct s as [|c s]; simpl; [done|].
  destruct (Ascii.eqb c sep); [done|]. by destruct (split sep s).
Qed.

Lemma split_free sep s : includes sep s = false → split sep s = [s].
Proof.
  induction s as [|c s IH]; simpl; [done|].
  intros [Hc Hs]%orb_false_iff. by rewrite Hc, (IH Hs).
Qed.

Lemma split_app sep x y :
  includes sep x = false → split sep (x +:+ String sep y) = x :: split sep y.
Proof.
  induction x as [|c x IH]; simpl.
  - by rewrite Ascii.eqb_refl.
  - intros [Hc Hx]%orb_false_iff. by rewrite Hc, (IH Hx).
Qed.

Lemma split_includes sep s seg : seg ∈ split sep s → includes sep seg = false.
Proof.
  revert seg. induction s as [|c s IH]; simpl; intros seg.
  - by intros ->%list_elem_of_singleton.
  - destruct (Ascii.eqb c sep) eqn:Hc.
    + intros [->|Hin]%elem_of_cons; [done|by apply IH].
    + destruct (split sep s) as [|x xs] eqn:Hsplit; [by destruct (split_not_nil sep s)|].
      intros [->|Hin]%elem_of_cons.
      * simpl. rewrite Hc. apply IH. by left.
      * apply IH. by right.
Qed.

Lemma pathSegments_filter p :
  pathSegments p = filter (λ segment, segment ≠ EmptyString) (split "/" p).
Proof.
  unfold pathSegments. destruct (String.eqb_spec p EmptyString) as [->|]; [|done].
  simpl. by rewrite filter_cons_False, filter_nil by (intros ?; done).
Qed.

Lemma pathSegments_wf p seg :
  seg ∈ pathSegments p → seg ≠ EmptyString ∧ includes "/" seg = false.
Proof.
  rewrite pathSegments_filter. intros [Hne Hin]%list_elem_of_filter.
  split; [done|]. by eapply split_includes.
Qed.

Lemma pathSegments_join segs :
  Forall (λ seg, seg ≠ EmptyString ∧ includes "/" seg = false) segs →
  pathSegments (join "/" segs) = segs.
Proof.
  rewrite pathSegments_filter.
  induction 1 as [|x segs [Hne Hfree] Hsegs IH]; [done|].
  destruct segs as [|y segs].
  - simpl. rewrite (split_free _ _ Hfree). by rewrite filter_cons_True, filter_nil.
  - change (join "/" (x :: y :: segs)) with (x +:+ String "/" (join "/" (y :: segs))).
    rewrite (split_app _ _ _ Hfree), filter_cons_True by done. by rewrite IH.
Qed.

Lemma pathSegments_Forall p :
  Forall (λ seg, seg ≠ EmptyString ∧ includes "/" seg = false) (pathSegments p).
Proof. apply Forall_forall. intros seg. apply pathSegments_wf. Qed.

Lemma crumbs_lookup p i c :
  crumbs p !! i = Some c ↔
  ∃ seg, pathSegments p !! i = Some seg
    ∧ c = {| path := join "/" (take (S i) (pathSegments p));
             segment := seg;
             isLast := bool_decide (S i = length (pathSegments p)) |}.
Proof.
  unfold crumbs. rewrite list_lookup_imap.
  destruct (pathSegments p !! i) as [seg|] eqn:Hseg; simpl.
  - apply lookup_lt_Some in Hseg. rewrite Nat.add_1_r.
    assert (bool_decide (i = (length (pathSegments p) - 1)%nat)
            = bool_decide (S i = length (pathSegments p))) as ->.
    { apply bool_decide_ext. lia. }
    split; [intros [= <-]; eauto|]. by intros (? & [= <-] & ->).
  - split; [done|]. by intros (? & ? & _).
Qed.

Lemma crumb_path_segments p i c :
  crumbs p !! i = Some c → pathSegments (path c) = take (S i) (pathSegments p).
Proof.
  intros (seg & _ & ->)%crumbs_lookup. simpl.
  apply pathSegments_join, Forall_take, pathSegments_Forall.
Qed.

(** X24. Navigating to a crumb shows the trail up to that crumb: the
    path of the crumb at position [i] splits into exactly the first
    [i + 1] segments of the current path, so the crumbs shown after the
    click are the crumbs up to it, with the same paths and labels and
    the clicked one marked as the current folder.  Exactly the last
    crumb is marked, and clicking it changes no crumb. *)
Theorem crumbs_follow_the_trail (currentPath : string) (i : nat) (c : Crumb) :
  crumbs currentPath !! i = Some c →
  pathSegments (path c) = take (S i) (pathSegments currentPath)
  ∧ path <$> crumbs (path c) = take (S i) (path <$> crumbs currentPath)
  ∧ segment <$> crumbs (path c) = take (S i) (segment <$> crumbs currentPath)
  ∧ last (crumbs (path c)) = Some {| path := path c; segment := segment c; isLast := true |}
  ∧ (isLast c = true ↔ S i = length (crumbs currentPath))
  ∧ (isLast c = true → crumbs (path c) = crumbs currentPath).
Proof.
  intros Hc. pose proof (crumb_path_segments _ _ _ Hc) as Hsegs.
  pose proof Hc as (seg & Hseg & Heq)%crumbs_lookup.
  pose proof (lookup_lt_Some _ _ _ Hseg) as Hlt.
  assert (length (crumbs currentPath) = length (pathSegments currentPath)) as Hlen
    by (unfold crumbs; apply length_imap).
  assert (∀ j, (j ≤ i)%nat →
            crumbs (path c) !! j
            = (λ d, {| path := path d; segment := segment d;
                       isLast := bool_decide (j = i) |}) <$> crumbs currentPath !! j)
    as Hprefix.
  { intros j Hj.
    destruct (crumbs (path c) !! j) as [d|] eqn:Hd.
    - apply crumbs_lookup in Hd as (seg' & Hseg' & ->). rewrite Hsegs in Hseg' |- *.
      rewrite lookup_take_lt in Hseg' by lia.
      assert (crumbs currentPath !! j
              = Some {| path := join "/" (take (S j) (pathSegments currentPath));
                        segment := seg';
                        isLast := bool_decide (S j = length (pathSegments currentPath)) |})
        as -> by (apply crumbs_lookup; eauto).
      simpl. rewrite take_take, length_take. do 3 f_equal; [f_equal; lia|].
      apply bool_decide_ext. lia.
    - apply lookup_ge_None in Hd. unfold crumbs in Hd. rewrite length_imap, Hsegs in Hd.
      rewrite length_take in Hd. lia. }
  assert (length (crumbs (path c)) = S i) as Hlen'.
  { unfold crumbs. rewrite length_imap, Hsegs, length_take. lia. }
  split_and!.
  - exact Hsegs.
  - apply list_eq. intros j. rewrite list_lookup_fmap.
    destruct (decide (j ≤ i)%nat) as [Hj|Hj].
    + rewrite lookup_take_lt, list_lookup_fmap, (Hprefix j Hj) by lia.
      by destruct (crumbs currentPath !! j).
    + rewrite lookup_take_ge by lia.
      rewrite (proj2 (lookup_ge_None _ _)) by lia. done.
  - apply list_eq. intros j. rewrite list_lookup_fmap.
    destruct (decide (j ≤ i)%nat) as [Hj|Hj].
    + rewrite lookup_take_lt, list_lookup_fmap, (Hprefix j Hj) by lia.
      by destruct (crumbs currentPath !! j).
    + rewrite lookup_take_ge by lia.
      rewrite (proj2 (lookup_ge_None _ _)) by lia. done.
  - rewrite last_lookup, Hlen'. simpl. rewrite (Hprefix i) by lia. rewrite Hc. simpl.
    by rewrite bool_decide_eq_true_2.
  - rewrite Heq, Hlen. simpl. apply bool_decide_eq_true.
  - rewrite Heq at 1. simpl. intros Hlast%bool_decide_eq_true.
    unfold crumbs. rewrite Hsegs, Hlast. by rewrite take_ge by lia.
Qed.

(** X25. The crumbs are the segments of the path between slashes,
    leading, trailing and repeated slashes dropped: no label is empty or
    holds a slash, no crumb navigates to the root path, and no two
    crumbs have the same path, which is also their React key. *)
Theorem crumb_keys_are_distinct (currentPath : string) :
  NoDup (path <$> crumbs currentPath)
  ∧ segment <$> crumbs currentPath = pathSegments currentPath
  ∧ ∀ c, c ∈ crumbs currentPath →
      segment c ≠ EmptyString
      ∧ includes "/" (segment c) = false
      ∧ path c ≠ EmptyString.
Proof.
  split_and!.
  - apply NoDup_alt. intros i j p.
    rewrite !list_lookup_fmap.
    destruct (crumbs currentPath !! i) as [ci|] eqn:Hi; [|done].
    destruct (crumbs currentPath !! j) as [cj|] eqn:Hj; [|done].
    simpl. intros [= <-] [= Heq].
    pose proof (crumb_path_segments _ _ _ Hi) as Hsi.
    pose proof (crumb_path_segments _ _ _ Hj) as Hsj.
    apply crumbs_lookup in Hi as (? & Hi%lookup_lt_Some & _).
    apply crumbs_lookup in Hj as (? & Hj%lookup_lt_Some & _).
    rewrite Heq, Hsi in Hsj. apply (f_equal length) in Hsj.
    rewrite !length_take in Hsj. lia.
  - apply list_eq. intros i. rewrite list_lookup_fmap.
    destruct (pathSegments currentPath !! i) as [seg|] eqn:Hseg.
    + assert (crumbs currentPath !! i
              = Some {| path := join "/" (take (S i) (pathSegments currentPath));
                        segment := seg;
                        isLast := bool_decide (S i = length (pathSegments currentPath)) |})
        as -> by (apply crumbs_lookup; eauto).
      done.
    + destruct (crumbs currentPath !! i) as [c|] eqn:Hc; [|done].
      apply crumbs_lookup in Hc as (? & ? & _). congruence.
  - intros c (i & Hc)%list_elem_of_lookup.
    pose proof (crumb_path_segments _ _ _ Hc) as Hsegs.
    apply crumbs_lookup in Hc as (seg & Hseg & ->). simpl in *.
    destruct (pathSegments_wf currentPath seg) as [Hne Hfree];
      [by eapply list_elem_of_lookup_2|].
    split_and!; [done..|].
    intros Hempty. rewrite Hempty in Hsegs.
    change (pathSegments EmptyString) with (@nil string) in Hsegs.
    apply (f_equal length) in Hsegs. rewrite length_take in Hsegs.
    apply lookup_lt_Some in Hseg. cbn [length] in Hsegs. lia.
Qed.

End BreadcrumbsFacts.

Module DashboardFacts.
Import Js RateLimiter Shared Edge Fleet Stages SupabaseFunctions UseLivePages
  LivePagesDashboard.

Lemma getStatusColor_variant (status : string) :
  getStatusColor status ∈ ["default"; "secondary"; "destructive"; "outline"].
Proof.
  unfold getStatusColor. rewrite !elem_of_cons.
  destruct (_ || _); [auto|]. repeat (destruct (String.eqb _ _); [auto 6|]). auto 6.
Qed.

Lemma getStatusLabel_filled (status : string) :
  status ≠ EmptyString → getStatusLabel status ≠ EmptyString.
Proof.
  intros Hs. unfold getStatusLabel. repeat (destruct (String.eqb _ _); [done|]). done.
Qed.

(** X26. The badge of a card: the variant is one of four; the label of
    a label is that label; a status that is not empty never gets an empty
    label; the variant is [destructive] exactly for a status that reads
    [errored] in lower case; what is labelled [Live] has the [default]
    variant, and every status that is shown under another name has a
    variant other than [outline]. *)
Theorem status_badge (status : string) :
  getStatusColor status ∈ ["default"; "secondary"; "destructive"; "outline"]
  ∧ getStatusLabel (getStatusLabel status) = getStatusLabel status
  ∧ (status ≠ EmptyString → getStatusLabel status ≠ EmptyString)
  ∧ (getStatusColor status = "destructive" ↔ toLowerCase status = "errored")
  ∧ (getStatusLabel status = "Live" → getStatusColor status = "default")
  ∧ (getStatusLabel status ≠ status → getStatusColor status ≠ "outline").
Proof.
  split; [apply getStatusColor_variant|]. split; [|split; [apply getStatusLabel_filled|]].
  - unfold getStatusLabel.
    destruct (String.eqb_spec (toLowerCase status) "built"); [done|].
    destruct (String.eqb_spec (toLowerCase status) "building"); [done|].
    destruct (String.eqb_spec (toLowerCase status) "errored"); [done|].
    repeat (rewrite (proj2 (String.eqb_neq _ _)) by done). done.
  - unfold getStatusColor, getStatusLabel.
    destruct (String.eqb_spec (toLowerCase status) "built") as [->|Hbuilt]; [done|].
    destruct (String.eqb_spec (toLowerCase status) "building") as [->|Hbuilding]; [done|].
    destruct (String.eqb_spec (toLowerCase status) "errored") as [->|Herrored]; [done|].
    destruct (String.eqb_spec (toLowerCase status) "live") as [->|Hlive]; cbn [orb].
    + done.
    + split_and!; try done. intros ->. by destruct Hlive.
Qed.

(** X27. [fetchLivePages] always settles.  Its first call turns the
    loading flag on and, whatever the awaited call does, the flag is off
    in the end.  When the call resolves without an error the sites are
    the [sites] of the data (none when the data or its [sites] is
    missing) and no toast is shown.  When it rejects or resolves with an
    error, one destructive toast with a description that is not empty is
    shown and the sites are emptied, so the dashboard then shows its
    "no live pages" view even if it showed sites before. *)
Theorem fetch_always_settles (outcome : Outcome Data) (s : Screen) :
  let effects := fetchLivePages outcome in
  let s' := run effects s in
  head effects = Some (SetIsLoading true)
  ∧ isLoading s' = false
  ∧ (∀ data, outcome = Resolves data None →
       sites s' = default [] (data ≫= data_sites) ∧ toasts s' = toasts s)
  ∧ ((∃ reason, outcome = Rejects reason) ∨ (∃ data error, outcome = Resolves data (Some error)) →
       sites s' = []
       ∧ render s' = NoLivePagesFound
       ∧ ∃ t, toasts s' = toasts s ++ [t]
           ∧ variant t = Some "destructive"
           ∧ description t ≠ EmptyString).
Proof.
  intros effects s'. subst effects s'. split; [reflexivity|]. split_and!.
  - destruct outcome as [reason|data [error|]]; reflexivity.
  - intros data ->. split; reflexivity.
  - intros [[reason ->]|(data & error & ->)];
      (split_and!; [reflexivity | reflexivity |];
       eexists; split_and!; [reflexivity | reflexivity | by apply HandlerPaths.or_default_nonempty]).
Qed.

Section Scan.
Context `{Imports}.


End Scan.
End DashboardFacts.

Module GitHubPagesFacts.
Import Js SupabaseFunctions GitHubPages.

Lemma checkPagesStatus_keeps_step (s : State) outcome :
  currentStep (run (checkPagesStatus s outcome) s) = currentStep s.
Proof. unfold checkPagesStatus. repeat case_match; reflexivity. Qed.

Lemma handleEnablePages_keeps_step (s : State) outcome :
  currentStep (run (handleEnablePages s outcome) s) = currentStep s.
Proof. unfold handleEnablePages. repeat case_match; reflexivity. Qed.

Lemma react_step (s : State) (ev : Event) :
  0 <= currentStep s <= 2 → 0 <= currentStep (react s ev) <= 2.
Proof.
  intros Hs. unfold react. destruct ev as [| |repoName|e|outcome|outcome]; cbn [effects_of].
  - unfold handleNext. repeat case_match; cbn; lia.
  - cbn. lia.
  - cbn. lia.
  - destruct e; cbn; lia.
  - by rewrite checkPagesStatus_keeps_step.
  - by rewrite handleEnablePages_keeps_step.
Qed.

(** X29. The wizard stays on its three steps: after any sequence of
    clicks, selections and calls, however the calls end, [currentStep]
    is 0, 1 or 2.  From such a state Next does not leave step 0 while no
    repository is selected, nor step 1 while no branch is selected, and
    shows one destructive toast instead; otherwise it moves one step
    forward and stops at step 2.  Back moves one step back and stops at
    step 0.  Only Next, Back and Configure change the step. *)
Theorem wizard_stays_on_its_steps (events : list Event) :
  let s := foldl react initial events in
  0 <= currentStep s <= 2
  ∧ (let s' := react s Next in
     if (currentStep s =? 0) && empty (selectedRepo s)
        || (currentStep s =? 1) && empty (selectedBranch s)
     then currentStep s' = currentStep s
          ∧ ∃ t, toasts s' = toasts s ++ [t] ∧ variant t = Some "destructive"
     else currentStep s' = Z.min (currentStep s + 1) 2 ∧ toasts s' = toasts s)
  ∧ currentStep (react s Back) = Z.max (currentStep s - 1) 0
  ∧ (∀ repoName,
       let s' := react s (ConfigureRepo repoName) in
       currentStep s' = 0 ∧ selectedRepo s' = repoName ∧ activeView s' = Deploy)
  ∧ ∀ ev, currentStep (react s ev) ≠ currentStep s →
      ev = Next ∨ ev = Back ∨ ∃ repoName, ev = ConfigureRepo repoName.
Proof.
  intros s.
  assert (0 <= currentStep s <= 2) as Hs.
  { subst s. induction events as [|ev events IH] using rev_ind; [done|].
    rewrite foldl_app. by apply react_step. }
  split; [exact Hs|]. split_and!.
  - unfold react. cbn [effects_of]. unfold handleNext.
    destruct (Z.eqb_spec (currentStep s) 0) as [H0|H0].
    + assert ((currentStep s =? 1) = false) as -> by lia.
      cbn [andb orb]. destruct (empty (selectedRepo s)); cbn.
      * split; [done|]. eexists. split; reflexivity.
      * split; [lia|done].
    + cbn [andb orb]. destruct (Z.eqb_spec (currentStep s) 1) as [H1|H1]; cbn [andb].
      * destruct (empty (selectedBranch s)); cbn.
        -- split; [done|]. eexists. split; reflexivity.
        -- split; [lia|done].
      * cbn. split; [lia|done].
  - reflexivity.
  - intros repoName. cbn. done.
  - intros [| |repoName|e|outcome|outcome]; eauto.
    + unfold react. cbn [effects_of]. destruct e; cbn; done.
    + unfold react. cbn [effects_of]. by rewrite checkPagesStatus_keeps_step.
    + unfold react. cbn [effects_of]. by rewrite handleEnablePages_keeps_step.
Qed.

(** X30. [handleEnablePages] calls the function only when a repository
    and a branch are selected and the user's account name is known, once,
    for that account, repository, branch and path; otherwise it shows
    one toast and changes nothing.  A started call always ends with the
    loading flag off.  The handler never turns [isEnabled] off, and turns
    it on only when the call resolved without an error and with
    [success]; a call that resolves without an error and without
    [success] changes nothing and shows no toast. *)
Theorem enabling_needs_all_three (s : State) (outcome : Outcome Enabling) :
  let effects := handleEnablePages s outcome in
  let s' := run effects s in
  (invocations effects ≠ [] ↔
     selectedRepo s ≠ EmptyString ∧ selectedBranch s ≠ EmptyString
     ∧ truthy (username s) = true)
  ∧ (∀ call, call ∈ invocations effects →
       invocations effects = [call]
       ∧ call.1 = "enable-github-pages"
       ∧ username s = Some (owner call.2)
       ∧ repo call.2 = selectedRepo s
       ∧ branch call.2 = Some (selectedBranch s)
       ∧ path call.2 = Some (selectedPath s)
       ∧ isLoading s' = false)
  ∧ (invocations effects = [] →
       ∃ t, s' = apply s (ShowToast t) ∧ variant t = Some "destructive")
  ∧ (isEnabled s = true → isEnabled s' = true)
  ∧ (isEnabled s' = true →
       isEnabled s = true
       ∨ ∃ data, outcome = Resolves (Some data) None ∧ success data = true
           ∧ pagesUrl s' = enabling_url data)
  ∧ (∀ data, invocations effects ≠ [] → outcome = Resolves data None →
       (∀ d, data = Some d → success d = false) →
       shown effects = [] ∧ s' = apply s (SetIsLoading false))
  ∧ ((∃ reason, outcome = Rejects reason) ∨ (∃ data error, outcome = Resolves data (Some error)) →
       invocations effects ≠ [] →
       ∃ t, shown effects = [t] ∧ variant t = Some "destructive"
         ∧ description t ≠ EmptyString
         ∧ s' = apply (apply s (ShowToast t)) (SetIsLoading false)).
Proof.
  intros effects s'. subst effects s'. unfold handleEnablePages, empty.
  destruct (String.eqb_spec (selectedRepo s) EmptyString) as [Hrepo|Hrepo].
  { split_and!; try (cbn; done); cbn.
    - split; [done|]. by intros (? & _).
    - intros call Hin. by apply elem_of_nil in Hin.
    - intros _. eexists. split; reflexivity.
    - auto. }
  destruct (String.eqb_spec (selectedBranch s) EmptyString) as [Hbranch|Hbranch].
  { split_and!; try (cbn; done); cbn.
    - split; [done|]. by intros (_ & ? & _).
    - intros call Hin. by apply elem_of_nil in Hin.
    - intros _. eexists. split; reflexivity.
    - auto. }
  destruct (truthy (username s)) eqn:Huser.
  2:{ split_and!; try (cbn; done); cbn.
      - split; [done|]. by intros (_ & _ & ?).
      - intros call Hin. by apply elem_of_nil in Hin.
      - intros _. eexists. split; reflexivity.
      - auto. }
  destruct (username s) as [account|] eqn:Haccount; [|done].
  assert (∀ error : option ErrorValue,
            or_default (error ≫= message) "An error occurred while enabling GitHub Pages."
            ≠ EmptyString) as Hdescription
    by (intros error; by apply HandlerPaths.or_default_nonempty).
  destruct outcome as [reason|[[[] url msg]|] [error|]]; cbn.
  all: split_and!; try done.
  all: try (intros call ->%list_elem_of_singleton; done).
  all: try (intros [[? [=]]|(? & ? & [=])]; fail).
  all: try (intros ? _ [= <-] Hsilent; by specialize (Hsilent _ eq_refl)).
  all: try (intros _ _; eexists; split_and!;
            [reflexivity|reflexivity|apply Hdescription|reflexivity]).
  all: try (intros _ _; eexists; split_and!;
            [reflexivity|reflexivity|apply (Hdescription (Some _))|reflexivity]).
  all: try (intros _; right; eexists; split_and!; reflexivity).
  all: try (destruct (isEnabled s); intros; auto; fail).
Qed.

End GitHubPagesFacts.


(** * The further properties on concrete invocations *)

Module Invocations.
Import Js RateLimiter Shared Edge Fleet GitHub Stages Visitors.

Lemma offline_admitted (req_body : jsval) :
  admitted offline_env (post req_body) idle (User.mk "u-alice") "alice".
Proof.
  split_and!; try reflexivity.
  exists (Some {| github_username := Some "alice" |}). split; reflexivity.
Defined.

Lemma early_answers_cost_nothing_witness :
  untouched spent (list_pages_sites (H := Reference.imports) alice_env preflight spent).
Proof.
  exact (HandlerPaths.early_answers_cost_nothing (H := Reference.imports)
           ListPagesSites alice_env preflight spent eq_refl).
Defined.

Lemma every_endpoint_counts_once_witness :
  requestCounts
    (get_pages_info (H := Reference.imports) alice_env (post (info_body "alice" "blog"))
       spent).2 !! "u-alice"
  = Some {| count := 101; resetAt := 50000 |}.
Proof.
  pose proof (HandlerPaths.every_endpoint_counts_once (H := Reference.imports)
                GetPagesInfo alice_env (post (info_body "alice" "blog")) spent
                (User.mk "u-alice") eq_refl) as (_ & Hcount & _).
  exact Hcount.
Defined.

Lemma over_limit_is_429_witness :
  ∃ resp,
    enable_github_pages (H := Reference.imports) alice_env
      (post (enable_body "alice" "blog")) spent
      = (Normal resp, counted alice_env "u-alice" spent)
    ∧ Http.status resp = 429
    ∧ Http.headers resp !! "X-RateLimit-Remaining" = Some "0"
    ∧ Http.headers resp !! "X-RateLimit-Reset" = Some "50".
Proof.
  destruct (HandlerPaths.over_limit_is_429 (H := Reference.imports)
              EnableGitHubPages alice_env (post (enable_body "alice" "blog")) spent
              (User.mk "u-alice") eq_refl eq_refl)
    as (resp & Hrun & Hstatus & _ & _ & Hremaining & Hreset & _).
  exists resp. split_and!; [exact Hrun | exact Hstatus | exact Hremaining | exact Hreset].
Defined.

Lemma unlinked_profile_is_403_witness :
  list_pages_sites (H := Reference.imports) newcomer_env (post list_body) idle =
    (Normal {| Http.status := 403;
               Http.headers := json_headers (H := Reference.imports);
               Http.body := Some (Http.ErrorBody "GitHub profile not found") |},
     counted newcomer_env "u-new" idle).
Proof.
  exact (HandlerPaths.unlinked_profile_is_403 (H := Reference.imports)
           ListPagesSites newcomer_env (post list_body) idle (User.mk "u-new")
           (Some {| github_username := None |}) eq_refl eq_refl eq_refl
           (or_introl eq_refl)).
Defined.

Lemma get_pages_info_relays_upstream_witness :
  let run :=
    get_pages_info (H := Reference.imports) alice_env (post (info_body "alice" "blog")) idle in
  new_calls idle run [Upstream.GetPages "alice" "blog" "gho_token"]
  ∧ run.1 =
      Normal (response 200 (json_headers (H := Reference.imports))
                (Http.PagesInfoBody (Some "https://alice.github.io/blog/") (Some "built")
                   (Some {| Upstream.branch := Some "gh-pages";
                            Upstream.path := Some "/" |}))).
Proof.
  intros run.
  pose proof (HandlerPaths.get_pages_info_relays_upstream (H := Reference.imports)
                alice_env (post (info_body "alice" "blog")) idle (info_body "alice" "blog")
                (GetPagesInfoInput.mk "alice" "blog" "gho_token") (User.mk "u-alice")
                eq_refl eq_refl (Scenarios.alice_admitted _)) as (Hcalls & _ & Hok & _).
  split; [exact Hcalls|]. exact (Hok _ eq_refl eq_refl).
Defined.

Lemma enable_github_pages_relays_upstream_witness :
  let run :=
    enable_github_pages (H := Reference.imports) alice_env
      (post (enable_body "alice" "blog")) idle in
  new_calls idle run [Upstream.PostPages "alice" "blog" "main" "/" "gho_token"]
  ∧ run.1 =
      Normal (response 200 (json_headers (H := Reference.imports))
                (Http.EnableSuccessBody (Some "https://alice.github.io/blog/") None
                   "GitHub Pages has been enabled successfully!")).
Proof.
  intros run.
  pose proof (HandlerPaths.enable_github_pages_relays_upstream (H := Reference.imports)
                alice_env (post (enable_body "alice" "blog")) idle
                (enable_body "alice" "blog")
                (EnablePagesInput.mk "alice" "blog" "main" "/" "gho_token")
                (User.mk "u-alice")
                eq_refl eq_refl (Scenarios.alice_admitted _)) as (Hcalls & _ & Hok & _).
  split; [exact Hcalls|]. exact (Hok _ _ eq_refl eq_refl eq_refl).
Defined.

Lemma unusable_listing_is_500_witness :
  let run := list_pages_sites (H := Reference.imports) offline_env (post list_body) idle in
  run.1 =
    Normal (response 500 (json_headers (H := Reference.imports))
              (Http.ErrorBody
                 (sanitizeGeneralError (Imports := Reference.imports)
                    "TypeError: error sending request")))
  ∧ new_calls idle run [listing_request "gho_token"].
Proof.
  exact (HandlerPaths.unusable_listing_is_500 (H := Reference.imports)
           offline_env (post list_body) idle list_body
           (ListPagesSitesInput.mk "gho_token") (User.mk "u-alice") "alice"
           eq_refl eq_refl (offline_admitted _)
           "TypeError: error sending request" (or_introl eq_refl)).
Defined.

Lemma summaries_are_well_formed_witness :
  ∃ sites,
    (list_pages_sites (H := Reference.imports) alice_env (post list_body) idle).1
      = Normal (response 200 (json_headers (H := Reference.imports)) (Http.SitesBody sites))
    ∧ (length sites <= 3)%nat
    ∧ NoDup (Http.PagesSite.repository <$> sites)
    ∧ ∀ s, s ∈ sites →
        Http.PagesSite.owner s = "alice"
        ∧ Http.PagesSite.site_branch s ≠ EmptyString
        ∧ Http.PagesSite.status s ≠ EmptyString.
Proof.
  destruct (HandlerPaths.summaries_are_well_formed (H := Reference.imports)
              alice_env (post list_body) idle list_body
              (ListPagesSitesInput.mk "gho_token") (User.mk "u-alice") "alice"
              (owned alice) eq_refl eq_refl (Scenarios.alice_admitted _)
              Scenarios.alice_listed)
    as (sites & Hrun & Hlen & Hdup & Hall).
  exists sites. split_and!; [exact Hrun | exact Hlen | |].
  - apply Hdup. apply (bool_decide_unpack _). reflexivity.
  - intros s Hs. destruct (Hall s Hs) as (Howner & _ & _ & Hbranch & Hstatus & _).
    split_and!; assumption.
Defined.


Lemma feature_ready (env : CreateBranch.Env) profile :
  CreateBranch.getGitHubToken env (CreateBranch.post (branch_body "feature")) None
    = inr (Some profile) →
  CreateBranch.ready env (CreateBranch.post (branch_body "feature")) feature_params profile.
Proof.
  intros Htoken. split_and!; [reflexivity | | exact Htoken | reflexivity].
  eexists. split; reflexivity.
Defined.

Lemma upstream_failures_are_collapsed_witness :
  CreateBranch.create_branch (H := Reference.imports) (CreateBranch.failing 403)
      (CreateBranch.post (branch_body "feature")) []
    = (Normal (Dynamic.mkReply 404 (CreateBranch.json_headers (H := Reference.imports))
                 (Some (CreateBranch.SourceBranchNotFound (JStr "main")))),
       [CreateBranch.GetRef (Some (JStr "alice")) (Some (JStr "site")) (JStr "main")
          "gho_stored"]).
Proof.
  exact (proj1 (proj2 (CreateBranchFacts.upstream_failures_are_collapsed
                         (H := Reference.imports) (CreateBranch.failing 403) _ _ _ []
                         (feature_ready (CreateBranch.failing 403) _ eq_refl)))
           _ _ eq_refl eq_refl eq_refl).
Defined.

Lemma success_means_created_witness :
  ∃ params profile sha resp',
    CreateBranch.ready (CreateBranch.friendly "abc")
      (CreateBranch.post (branch_body "feature")) params profile
    ∧ Some (JStr "feature") = CreateBranch.branchName params
    ∧ (CreateBranch.create_branch (H := Reference.imports) (CreateBranch.friendly "abc")
         (CreateBranch.post (branch_body "feature")) []).2
      = [] ++ [CreateBranch.lookup_call params profile;
               CreateBranch.create_call params profile sha]
    ∧ CreateBranch.fetch_result (CreateBranch.friendly "abc") 1
        (CreateBranch.create_call params profile sha) = inr resp'
    ∧ Dynamic.ok resp' = true.
Proof.
  destruct (CreateBranchFacts.success_means_created (H := Reference.imports)
              (CreateBranch.friendly "abc") (CreateBranch.post (branch_body "feature")) []
              (Dynamic.mkReply 200 (CreateBranch.json_headers (H := Reference.imports))
                 (Some (CreateBranch.SuccessBody (Some (JStr "feature")))))
              (Some (JStr "feature")) eq_refl eq_refl)
    as (params & profile & sha & resp' & Hready & Hbranch & _ & Hcalls & Hcreate & Hok).
  exists params, profile, sha, resp'. split_and!; assumption.
Defined.

Lemma foreign_owner_is_403_witness :
  RenameBranch.rename_branch (H := Reference.imports) RenameBranch.parse_strings
      RenameBranch.alice_env (post (RenameBranch.rename_body "bob")) []
    = (Normal (Dynamic.mkReply 403 RenameBranch.json_headers
                 (Some (RenameBranch.ErrorBody
                          "You can only rename branches in your own repositories"))), []).
Proof.
  apply (RenameBranchFacts.foreign_owner_is_403 (H := Reference.imports)
           RenameBranch.parse_strings RenameBranch.alice_env
           (post (RenameBranch.rename_body "bob"))
           (RenameBranch.Input.mk "bob" "site" "master" "main" "gho_token") "alice").
  - split_and!; [reflexivity | eexists; split; reflexivity |].
    exists (User.mk "u-alice"), (Some {| github_username := Some "alice" |}).
    split_and!; reflexivity.
  - discriminate.
Defined.

Lemma early_failures_of_rename_witness :
  RenameBranch.rename_branch (H := Reference.imports) RenameBranch.parse_strings
      RenameBranch.alice_env (post (JObj [])) []
    = (Normal (Dynamic.mkReply 500 RenameBranch.json_headers
                 (Some (RenameBranch.ErrorBody
                          (sanitizeGeneralError (Imports := Reference.imports) "ZodError")))),
       []).
Proof.
  exact (proj1 (RenameBranchFacts.early_failures_of_rename (H := Reference.imports)
                  RenameBranch.parse_strings RenameBranch.alice_env (post (JObj [])) []
                  (JObj []) eq_refl eq_refl)
           "ZodError" eq_refl).
Defined.

Lemma crumbs_follow_the_trail_witness :
  Breadcrumbs.pathSegments "src/components"
    = take 2 (Breadcrumbs.pathSegments "/src//components/ui/")
  ∧ Breadcrumbs.path <$> Breadcrumbs.crumbs "src/components" = ["src"; "src/components"].
Proof.
  pose proof (BreadcrumbsFacts.crumbs_follow_the_trail "/src//components/ui/" 1
                {| Breadcrumbs.path := "src/components";
                   Breadcrumbs.segment := "components";
                   Breadcrumbs.isLast := false |} eq_refl) as (Hsegments & Hpaths & _).
  split; [exact Hsegments | exact Hpaths].
Defined.


End Invocations.
